(** * CsvToSqlserver: value coercion, column mapping and the
      delete-then-insert load, embedded from the JavaScript sources

    Sources embedded here:
    - [tableManager.js]: [mapColumns], [parseNumeric], [parseDate],
      [getColumnType], [ensureTable];
    - [fileWatcher.js]: [detectFileType], [connectWithRetry],
      [detectTableName], [uploadToDatabase], [processFile] and its routing;
    - [server.js]: [uploadToDatabase] (the HTTP variant of the same load) and
      the routing of the upload endpoint.

    Conventions.  A JavaScript string is a sequence of code units; one
    [ascii] stands for one code unit below 256.  A JavaScript object used as
    a record is an association list in property order with pairwise distinct
    keys (column names are assumed not to be array indices and not to shadow
    members of [Object.prototype]).  A JavaScript number is kept as the exact
    decimal it was read from, see [Js.number]. *)

From Stdlib Require Import String Ascii List ZArith NArith Lia Bool Arith.
From Stdlib Require Import DecimalString.
Import ListNotations.
Open Scope string_scope.

(* ================================================================== *)
(** ** The JavaScript built-ins the sources rely on *)
(* ================================================================== *)

Module Js.

Definition code (c : ascii) : N := N_of_ascii c.

Definition in_range (lo hi : N) (c : ascii) : bool :=
  (lo <=? code c)%N && (code c <=? hi)%N.

(** [\d] *)
Definition is_digit (c : ascii) : bool := in_range 48 57 c.

Definition is_upper (c : ascii) : bool := in_range 65 90 c.
Definition is_lower (c : ascii) : bool := in_range 97 122 c.

(** [[a-z]] under the [i] flag: exactly the ASCII letters. *)
Definition is_alpha (c : ascii) : bool := is_upper c || is_lower c.

(** WhiteSpace and LineTerminator code units below 256: TAB, LF, VT, FF, CR,
    SP and NBSP.  This is the set [String.prototype.trim] removes, the set
    [\s] matches and the set [parseFloat] skips. *)
Definition is_space (c : ascii) : bool :=
  in_range 9 13 c || (code c =? 32)%N || (code c =? 160)%N.

Definition is_char (x : ascii) (c : ascii) : bool := Ascii.eqb c x.

(** *** String.prototype helpers *)

Fixpoint take (n : nat) (s : string) : string :=
  match n, s with
  | S n', String c s' => String c (take n' s')
  | _, _ => EmptyString
  end.

Fixpoint drop (n : nat) (s : string) : string :=
  match n, s with
  | S n', String _ s' => drop n' s'
  | _, _ => s
  end.

Fixpoint trimStart (s : string) : string :=
  match s with
  | String c s' => if is_space c then trimStart s' else s
  | EmptyString => EmptyString
  end.

Fixpoint trimEnd (s : string) : string :=
  match s with
  | String c s' =>
      match trimEnd s' with
      | EmptyString => if is_space c then EmptyString else String c EmptyString
      | r => String c r
      end
  | EmptyString => EmptyString
  end.

Definition trim (s : string) : string := trimEnd (trimStart s).

Fixpoint lastIndexOf_from (c : ascii) (s : string) (i found : Z) : Z :=
  match s with
  | String x s' =>
      lastIndexOf_from c s' (i + 1) (if Ascii.eqb x c then i else found)
  | EmptyString => found
  end.

(** [s.lastIndexOf(c)] for a one-character search string; [-1] when absent. *)
Definition lastIndexOf (c : ascii) (s : string) : Z :=
  lastIndexOf_from c s 0 (-1).

(** Every code unit of [s] satisfies [p]. *)
Fixpoint every (p : ascii -> bool) (s : string) : bool :=
  match s with
  | String c s' => p c && every p s'
  | EmptyString => true
  end.

(** [s.replace(/[cls]/g, '')] for a one-character class. *)
Fixpoint removeAll (cls : ascii -> bool) (s : string) : string :=
  match s with
  | String c s' => if cls c then removeAll cls s' else String c (removeAll cls s')
  | EmptyString => EmptyString
  end.

(** [s.replace(c, by)] with a string pattern: the first occurrence only. *)
Fixpoint replaceFirst (c : ascii) (by_ : string) (s : string) : string :=
  match s with
  | String x s' =>
      if Ascii.eqb x c then by_ ++ s' else String x (replaceFirst c by_ s')
  | EmptyString => EmptyString
  end.

Definition lower_char (c : ascii) : ascii :=
  if is_upper c || in_range 192 214 c || in_range 216 222 c
  then ascii_of_N (code c + 32)
  else c.

Fixpoint toLowerCase (s : string) : string :=
  match s with
  | String c s' => String (lower_char c) (toLowerCase s')
  | EmptyString => EmptyString
  end.

Fixpoint repeat_char (c : ascii) (n : nat) : string :=
  match n with
  | O => EmptyString
  | S n' => String c (repeat_char c n')
  end.

(** [s.padStart(n, c)] for a one-character filler. *)
Definition padStart (n : nat) (c : ascii) (s : string) : string :=
  repeat_char c (n - String.length s) ++ s.

(** [s.includes(needle)] *)
Fixpoint includes (needle s : string) : bool :=
  prefix needle s ||
  match s with
  | String _ s' => includes needle s'
  | EmptyString => false
  end.

(** [s.split(c)] for a one-character separator. *)
Fixpoint split (c : ascii) (s : string) : list string :=
  match s with
  | String x s' =>
      if Ascii.eqb x c then EmptyString :: split c s'
      else match split c s' with
           | h :: t => String x h :: t
           | [] => [String x EmptyString]
           end
  | EmptyString => [EmptyString]
  end.

(** *** Numbers

    A finite number is kept as the exact decimal [(-1)^dneg * dmant * 10^dexp]
    it was read from, in normal form ([dmant] has no trailing decimal zero,
    and zero is [0 * 10^0]); the binary64 value JavaScript holds is the
    round-to-nearest image of that decimal, so equal decimals are equal
    numbers.  Magnitudes that round to an infinity are [Inf]. *)

Record decimal := mkDec { dneg : bool; dmant : N; dexp : Z }.

Inductive number :=
| NaN
| Inf (neg : bool)
| Fin (d : decimal).

Definition isNaN (n : number) : bool :=
  match n with NaN => true | _ => false end.

Definition isFinite (n : number) : bool :=
  match n with Fin _ => true | _ => false end.

Fixpoint strip_zeros (fuel : nat) (m : N) (e : Z) : N * Z :=
  match fuel with
  | O => (m, e)
  | S fuel' =>
      if (m mod 10 =? 0)%N then strip_zeros fuel' (m / 10)%N (e + 1)%Z
      else (m, e)
  end.

Definition normalize (neg : bool) (m : N) (e : Z) : decimal :=
  if (m =? 0)%N then mkDec neg 0 0
  else let '(m', e') := strip_zeros (N.to_nat (N.size m)) m e in
       mkDec neg m' e'.

(** Decimals of magnitude at least [2^1024 - 2^970] round to an infinity. *)
Definition overflow_threshold : Z := (2 ^ 1024 - 2 ^ 970)%Z.

Definition overflows (m : N) (e : Z) : bool :=
  if (m =? 0)%N then false
  else if (0 <=? e)%Z then
    (309 <? e)%Z || (overflow_threshold <=? Z.of_N m * 10 ^ e)%Z
  else if (Z.of_N (N.size m) <=? - e)%Z then false
  else (overflow_threshold * 10 ^ (- e) <=? Z.of_N m)%Z.

Definition round (neg : bool) (m : N) (e : Z) : number :=
  if overflows m e then Inf neg else Fin (normalize neg m e).

(** *** parseFloat *)

Fixpoint span (p : ascii -> bool) (s : string) : string * string :=
  match s with
  | String c s' =>
      if p c then let '(a, b) := span p s' in (String c a, b)
      else (EmptyString, s)
  | EmptyString => (EmptyString, EmptyString)
  end.

Fixpoint digits_value (acc : N) (s : string) : N :=
  match s with
  | String c s' => digits_value (acc * 10 + (code c - 48))%N s'
  | EmptyString => acc
  end.

Definition read_sign (s : string) : bool * string :=
  match s with
  | String "-" s' => (true, s')
  | String "+" s' => (false, s')
  | _ => (false, s)
  end.

(** ExponentPart: [e] or [E], an optional sign and at least one digit;
    anything else is left unread and counts as exponent zero. *)
Definition read_exponent (s : string) : Z * string :=
  match s with
  | String c s' =>
      if Ascii.eqb c "e" || Ascii.eqb c "E" then
        let '(neg, t) := read_sign s' in
        let '(ds, r) := span is_digit t in
        match ds with
        | EmptyString => (0%Z, s)
        | _ => let v := Z.of_N (digits_value 0 ds) in
               (if neg then (- v)%Z else v, r)
        end
      else (0%Z, s)
  | EmptyString => (0%Z, s)
  end.

(** The longest prefix of [t] that is a StrDecimalLiteral, as a number, and
    what follows it. *)
Definition readFloat (t : string) : option (number * string) :=
  let '(neg, t1) := read_sign t in
  if prefix "Infinity" t1 then Some (Inf neg, drop 8 t1)
  else
    let '(ip, r1) := span is_digit t1 in
    let '(fp, r2) :=
      match r1 with
      | String "." r => span is_digit r
      | _ => (EmptyString, r1)
      end in
    match ip ++ fp with
    | EmptyString => None
    | ds =>
        let '(e, r3) := read_exponent r2 in
        Some (round neg (digits_value 0 ds) (e - Z.of_nat (String.length fp)),
              r3)
    end.

(** [parseFloat(s)]: skip leading white space, then read the longest prefix
    that is a StrDecimalLiteral; [NaN] when there is none. *)
Definition parseFloat (s : string) : number :=
  match readFloat (trimStart s) with
  | Some (n, _) => n
  | None => NaN
  end.

(** *** Values held by a record cell *)

Inductive Value :=
| VUndefined
| VNull
| VStr (s : string)
| VNum (n : number).

(** Number formatting and [Number(string)] are left to the host. *)
Class NumberOps := {
  num_toString : number -> string;   (* Number.prototype.toString *)
  num_toFixed0 : number -> string;   (* n.toFixed(0) *)
  str_toNumber : string -> number    (* Number(s) *)
}.

Definition is_zero (n : number) : bool :=
  match n with
  | Fin d => (dmant d =? 0)%N
  | _ => false
  end.

(** ToBoolean *)
Definition truthy (v : Value) : bool :=
  match v with
  | VUndefined | VNull => false
  | VStr s => negb (String.eqb s EmptyString)
  | VNum n => negb (isNaN n || is_zero n)
  end.

(** [a || b] *)
Definition or_else (a b : Value) : Value := if truthy a then a else b.

(** [value === null || value === undefined || value === ''] *)
Definition is_blank (v : Value) : bool :=
  match v with
  | VUndefined | VNull => true
  | VStr s => String.eqb s EmptyString
  | VNum _ => false
  end.

(** [value.toString()] where the sources call it: on a value already known
    not to be null or undefined. *)
Definition toString `{NumberOps} (v : Value) : string :=
  match v with
  | VStr s => s
  | VNum n => num_toString n
  | VUndefined | VNull => EmptyString
  end.

(** *** A host for running examples

    Number formatting over the exact decimals: [toString] writes the decimal
    out in full (JavaScript agrees between [1e-6] and [1e21] on the decimals
    it prints back), [toFixed(0)] rounds half away from zero, and [Number]
    reads a whole decimal literal (other radixes are not read). *)

Definition digits_of (n : N) : string := NilEmpty.string_of_uint (N.to_uint n).

Definition sign_of (d : decimal) : string :=
  if dneg d && negb (dmant d =? 0)%N then "-" else EmptyString.

Definition dec_toString (d : decimal) : string :=
  let ds := digits_of (dmant d) in
  sign_of d ++
  if (0 <=? dexp d)%Z then ds ++ repeat_char "0" (Z.to_nat (dexp d))
  else
    let k := Z.to_nat (- dexp d) in
    let len := String.length ds in
    if (k <? len)%nat then take (len - k) ds ++ "." ++ drop (len - k) ds
    else "0." ++ repeat_char "0" (k - len) ++ ds.

Definition dec_toFixed0 (d : decimal) : string :=
  let n :=
    if (0 <=? dexp d)%Z then (dmant d * 10 ^ Z.to_N (dexp d))%N
    else
      let p := (10 ^ Z.to_N (- dexp d))%N in
      let q := (dmant d / p)%N in
      if (p <=? 2 * (dmant d mod p))%N then (q + 1)%N else q in
  sign_of d ++ digits_of n.

Definition special (n : number) (f : decimal -> string) : string :=
  match n with
  | NaN => "NaN"
  | Inf neg => if neg then "-Infinity" else "Infinity"
  | Fin d => f d
  end.

Definition decimalHost : NumberOps := {|
  num_toString := fun n => special n dec_toString;
  num_toFixed0 := fun n => special n dec_toFixed0;
  str_toNumber := fun s =>
    match trim s with
    | EmptyString => Fin (mkDec false 0 0)
    | t => match readFloat t with
           | Some (n, EmptyString) => n
           | _ => NaN
           end
    end
|}.

(** *** Objects as ordered records *)

Section Obj.
Context {A : Type}.

Fixpoint get (k : string) (o : list (string * A)) : option A :=
  match o with
  | (k', v) :: o' => if String.eqb k k' then Some v else get k o'
  | [] => None
  end.

(** [o[k] = v]: overwrite in place, or append a new own property. *)
Fixpoint set (k : string) (v : A) (o : list (string * A)) : list (string * A) :=
  match o with
  | (k', v') :: o' =>
      if String.eqb k k' then (k, v) :: o' else (k', v') :: set k v o'
  | [] => [(k, v)]
  end.

(** [o.hasOwnProperty(k)] *)
Definition hasOwnProperty (k : string) (o : list (string * A)) : bool :=
  match get k o with Some _ => true | None => false end.

(** [Object.keys(o)] *)
Definition keys (o : list (string * A)) : list string := map fst o.

End Obj.

(** [row.k] on a record of cells: [undefined] when the property is absent. *)
Definition prop (k : string) (o : list (string * Value)) : Value :=
  match get k o with Some v => v | None => VUndefined end.

(** *** Regular expressions

    The patterns of the sources are sequences of quantified one-character
    classes.  Each atom is matched greedily and gives characters back one at
    a time when the rest of the pattern fails, as the backtracking matcher of
    the language does. *)

Record Atom := mkAtom {
  cls : ascii -> bool;
  rmin : nat;
  rmax : option nat
}.

Definition Pattern := list Atom.

Fixpoint run_length (p : ascii -> bool) (limit : option nat) (s : string) : nat :=
  match limit, s with
  | Some O, _ => O
  | _, EmptyString => O
  | _, String c s' =>
      if p c
      then S (run_length p (option_map Nat.pred limit) s')
      else O
  end.

Fixpoint backtrack (k lo : nat) (s : string)
    (rest : string -> option (list string * string))
    : option (list string * string) :=
  match rest (drop k s) with
  | Some (gs, r) => Some (take k s :: gs, r)
  | None =>
      match k with
      | O => None
      | S k' => if (lo <=? k')%nat then backtrack k' lo s rest else None
      end
  end.

(** Match the pattern at the start of [s]; [to_end] is a trailing [$].
    The result lists the text each atom matched and the unread suffix. *)
Fixpoint match_here (p : Pattern) (to_end : bool) (s : string)
    : option (list string * string) :=
  match p with
  | [] =>
      if to_end
      then match s with EmptyString => Some ([], s) | _ => None end
      else Some ([], s)
  | a :: p' =>
      let n := run_length (cls a) (rmax a) s in
      if (n <? rmin a)%nat then None
      else backtrack n (rmin a) s (match_here p' to_end)
  end.

(** [s.match(re)] for an unanchored pattern: the leftmost match. *)
Fixpoint search (p : Pattern) (s : string) : option (list string) :=
  match match_here p false s with
  | Some (gs, _) => Some gs
  | None =>
      match s with
      | String _ s' => search p s'
      | EmptyString => None
      end
  end.

(** [re.test(s)] *)
Definition test (p : Pattern) (s : string) : bool :=
  match search p s with Some _ => true | None => false end.

(** [s.match(/^...$/)] *)
Definition match_whole (p : Pattern) (s : string) : option (list string) :=
  option_map fst (match_here p true s).

Definition one (c : ascii -> bool) : Atom := mkAtom c 1 (Some 1).
Definition opt (c : ascii -> bool) : Atom := mkAtom c 0 (Some 1).
Definition star (c : ascii -> bool) : Atom := mkAtom c 0 None.
Definition plus (c : ascii -> bool) : Atom := mkAtom c 1 None.
Definition times (lo hi : nat) (c : ascii -> bool) : Atom := mkAtom c lo (Some hi).

End Js.

(* ================================================================== *)
(** ** The database driver, as the sources use it *)
(* ================================================================== *)

Module Sql.
Import Js.

(** The result of an awaited call: a value, or a thrown [Error] with its
    message. *)
Inductive Throws (A : Type) :=
| Ok (a : A)
| Throw (message : string).
Arguments Ok {A} a.
Arguments Throw {A} message.

Inductive SqlType := NVarChar | Numeric | Date.

(** [request.input(name, type, value)]; the name is the position. *)
Record Param := mkParam { ptype : SqlType; pvalue : Value }.

(** [INSERT INTO [table] ([c0], ...) VALUES (@param0, ...)] with its inputs. *)
Record InsertStmt := mkInsert {
  ins_table : string;
  ins_columns : list string;
  ins_params : list Param
}.

(** [DELETE FROM [table] WHERE [dateColumn] BETWEEN @minDate AND @maxDate],
    with [AND [storeColumn] IN (@store0, ...)] when [del_stores] is not
    empty.  The two dates are bound as [sql.Date], the stores as
    [sql.NVarChar]. *)
Record DeleteStmt := mkDelete {
  del_table : string;
  del_dateColumn : string;
  del_minDate : string;
  del_maxDate : string;
  del_storeColumn : string;
  del_stores : list Value
}.

(** [CREATE TABLE [table] (columns, PRIMARY KEY (...))] *)
Record CreateTableStmt := mkCreateTable {
  ct_table : string;
  ct_columns : list (string * string);
  ct_primaryKey : list string
}.

(** [CREATE INDEX [name] ON [table] ([column])] *)
Record CreateIndexStmt := mkCreateIndex {
  ci_name : string;
  ci_table : string;
  ci_column : string
}.

(** What the sources ask of a connection.  [DB] is the state of the database
    behind it.  A statement that throws leaves the state as it was. *)
Class Driver (DB : Type) := {
  (* SELECT COUNT( * ) FROM INFORMATION_SCHEMA.TABLES WHERE TABLE_NAME = @t *)
  countTables : DB -> string -> Throws nat;
  (* SELECT COLUMN_NAME, DATA_TYPE FROM INFORMATION_SCHEMA.COLUMNS ... *)
  queryColumns : DB -> string -> Throws (list (string * string));
  execCreateTable : DB -> CreateTableStmt -> Throws DB;
  execCreateIndex : DB -> CreateIndexStmt -> Throws DB;
  (* transaction.begin() *)
  beginTransaction : DB -> Throws unit;
  (* the new state and rowsAffected[0] *)
  execDelete : DB -> DeleteStmt -> Throws (DB * nat);
  execInsert : DB -> InsertStmt -> Throws DB;
  (* transaction.commit(), on the state the transaction has built *)
  commitTransaction : DB -> Throws unit;
  (* transaction.rollback(): from the state at begin() and the state the
     transaction has built, the state it leaves and whether it throws *)
  rollbackTransaction : DB -> DB -> DB * Throws unit
}.

(** The same driver with another answer to DELETE statements. *)
Definition withDelete {DB : Type} (d : Driver DB)
    (f : DB -> DeleteStmt -> Throws (DB * nat)) : Driver DB := {|
  countTables := @countTables DB d;
  queryColumns := @queryColumns DB d;
  execCreateTable := @execCreateTable DB d;
  execCreateIndex := @execCreateIndex DB d;
  beginTransaction := @beginTransaction DB d;
  execDelete := f;
  execInsert := @execInsert DB d;
  commitTransaction := @commitTransaction DB d;
  rollbackTransaction := @rollbackTransaction DB d
|}.

(** The same driver with another answer to [commit()]. *)
Definition withCommit {DB : Type} (d : Driver DB) (f : DB -> Throws unit)
    : Driver DB := {|
  countTables := @countTables DB d;
  queryColumns := @queryColumns DB d;
  execCreateTable := @execCreateTable DB d;
  execCreateIndex := @execCreateIndex DB d;
  beginTransaction := @beginTransaction DB d;
  execDelete := @execDelete DB d;
  execInsert := @execInsert DB d;
  commitTransaction := f;
  rollbackTransaction := @rollbackTransaction DB d
|}.

(** The same driver with another answer to [rollback()]. *)
Definition withRollback {DB : Type} (d : Driver DB)
    (f : DB -> DB -> DB * Throws unit) : Driver DB := {|
  countTables := @countTables DB d;
  queryColumns := @queryColumns DB d;
  execCreateTable := @execCreateTable DB d;
  execCreateIndex := @execCreateIndex DB d;
  beginTransaction := @beginTransaction DB d;
  execDelete := @execDelete DB d;
  execInsert := @execInsert DB d;
  commitTransaction := @commitTransaction DB d;
  rollbackTransaction := f
|}.

(** [catch (err) { await transaction.rollback(); throw err; }], for a
    transaction begun at [pool] that has built [tx]: the state the rollback
    leaves, and the error thrown, which is that of the rollback if it
    throws. *)
Definition rolledBack {DB : Type} `{Driver DB} {A : Type} (pool tx : DB)
    (m : string) : DB * Throws A :=
  match rollbackTransaction pool tx with
  | (pool', Ok _) => (pool', Throw m)
  | (pool', Throw m') => (pool', Throw m')
  end.

(** [Inserted is a b]: the statements [is], run in order from state [a], all
    succeed and lead to state [b]. *)
Inductive Inserted {DB : Type} `{Driver DB} : list InsertStmt -> DB -> DB -> Prop :=
| Inserted_nil : forall a, Inserted [] a a
| Inserted_cons : forall i l a b c,
    execInsert a i = Ok b -> Inserted l b c -> Inserted (i :: l) a c.

(** Lines written by [logToFile] and [console.log], by template. *)
Inductive LogEvent :=
| CreatingTable (table : string)
| TableCreated (table : string)
| IndexCreated (name column : string)
| IndexWarning (name message : string)
| TableWasCreated (table : string)
| DateRange (minDate maxDate : option string)
| Stores (stores : list Value)
| DeletingForStores (stores : list Value)
| DeletingByDateOnly
| Deleted (rowsAffected : nat)
| SkippingUnknownColumn (column : string)
| NoValidColumns (row : nat)
| RowError (row : nat) (message : string)
| UploadCompleted (successCount errorCount : nat).

Definition isRowError (e : LogEvent) : bool :=
  match e with RowError _ _ => true | _ => false end.

Definition isNoValidColumns (e : LogEvent) : bool :=
  match e with NoValidColumns _ => true | _ => false end.

Definition isSkippingUnknownColumn (e : LogEvent) : bool :=
  match e with SkippingUnknownColumn _ => true | _ => false end.

End Sql.

(* ================================================================== *)
(** ** tableManager.js *)
(* ================================================================== *)

Module TableManager.
Import Js Sql.

(** One data row: source (or destination) column name to raw cell. *)
Definition Record_ := list (string * Value).

(** An entry of [tableSchemas.json]; the optional members may be missing. *)
Record TableSchema := mkSchema {
  columns : list (string * string);
  primaryKey : option (list string);
  indexes : option (list string);
  numericColumns : option (list string);
  dateColumns : option (list string);
  columnMapping : option (list (string * string))
}.

(** What [loadSchemas()] returns: the parsed file, or the empty object when
    it cannot be read. *)
Definition Schemas := list (string * TableSchema).

Section WithSchemas.
Context `{NumberOps} {DB : Type} `{Driver DB}.
Variable schemas : Schemas.

(** The body of the loop of [mapColumns]: one entry of the mapping, applied
    to the record built so far. *)
Definition copyEntry (csvRow mappedRow : Record_) (entry : string * string)
    : Record_ :=
  let '(csvCol, sqlCol) := entry in
  if hasOwnProperty csvCol csvRow
  then match get csvCol csvRow with
       | Some v => set sqlCol v mappedRow
       | None => mappedRow
       end
  else mappedRow.

(** [mapColumns(csvRow, tableName)] *)
Definition mapColumns (csvRow : Record_) (tableName : string) : Record_ :=
  match get tableName schemas with
  | None => csvRow
  | Some schema =>
      match columnMapping schema with
      | None => csvRow
      | Some mapping => fold_left (copyEntry csvRow) mapping []
      end
  end.

(** [[,.]] *)
Definition is_separator (c : ascii) : bool := is_char "," c || is_char "." c.

(** A text that holds neither separator. *)
Definition plain (s : string) : bool := every (fun c => negb (is_separator c)) s.

(** The separator rewriting of [parseNumeric], on the trimmed text. *)
Definition normalizeSeparators (strValue : string) : string :=
  let lastDot := lastIndexOf "." strValue in
  let lastComma := lastIndexOf "," strValue in
  if (lastComma <? lastDot)%Z then
    removeAll (is_char ",") strValue
  else if (lastDot <? lastComma)%Z then
    replaceFirst "," "." (removeAll (is_char ".") strValue)
  else
    removeAll is_separator strValue.

(** [parseNumeric(value)]; [None] is [null]. *)
Definition parseNumeric (value : Value) : option number :=
  if is_blank value then None
  else
    let strValue := trim (toString value) in
    let numValue := parseFloat (normalizeSeparators strValue) in
    if isNaN numValue then None else Some numValue.

Definition monthMap : list (string * string) :=
  [("jan", "01"); ("feb", "02"); ("mar", "03"); ("apr", "04");
   ("may", "05"); ("mei", "05"); ("jun", "06"); ("jul", "07");
   ("aug", "08"); ("agu", "08"); ("sep", "09"); ("oct", "10");
   ("okt", "10"); ("nov", "11"); ("dec", "12"); ("des", "12")].

(** [/(\d{1,2})\s*([a-z]+)\s*(\d{4})/i] *)
Definition dayMonthYear : Pattern :=
  [times 1 2 is_digit; star is_space; plus is_alpha; star is_space;
   times 4 4 is_digit].

(** [parseDate(value)]; [None] is [null]. *)
Definition parseDate (value : Value) : option string :=
  if is_blank value then None
  else
    let strValue := trim (toString value) in
    match search dayMonthYear strValue with
    | Some [d; _; m; _; year] =>
        let day := padStart 2 "0" d in
        match get (take 3 (toLowerCase m)) monthMap with
        | Some month => Some (year ++ "-" ++ month ++ "-" ++ day)
        | None => Some strValue
        end
    | _ => Some strValue
    end.

Inductive ColumnType := numeric | date | string_.

Definition includes_name (names : option (list string)) (x : string) : bool :=
  match names with
  | Some l => existsb (String.eqb x) l
  | None => false
  end.

(** [getColumnType(tableName, columnName)] *)
Definition getColumnType (tableName columnName : string) : ColumnType :=
  match get tableName schemas with
  | None => string_
  | Some schema =>
      if includes_name (numericColumns schema) columnName then numeric
      else if includes_name (dateColumns schema) columnName then date
      else string_
  end.

(** [tableExists(pool, tableName)] *)
Definition tableExists (pool : DB) (tableName : string) : Throws bool :=
  match countTables pool tableName with
  | Ok count => Ok (0 <? count)%nat
  | Throw m => Throw m
  end.

(** The index loop of [createTable]: a failed index is reported and skipped. *)
Fixpoint createIndexes (pool : DB) (tableName : string) (cols : list string)
    : DB * list LogEvent :=
  match cols with
  | [] => (pool, [])
  | indexCol :: cols' =>
      let indexName := "idx_" ++ toLowerCase indexCol in
      match execCreateIndex pool (mkCreateIndex indexName tableName indexCol) with
      | Ok pool' =>
          let '(pool'', log) := createIndexes pool' tableName cols' in
          (pool'', IndexCreated indexName indexCol :: log)
      | Throw m =>
          let '(pool'', log) := createIndexes pool tableName cols' in
          (pool'', IndexWarning indexName m :: log)
      end
  end.

(** [createTable(pool, tableName, schema)] *)
Definition createTable (pool : DB) (tableName : string) (schema : TableSchema)
    : list LogEvent * Throws DB :=
  let pk := match primaryKey schema with Some l => l | None => [] end in
  match execCreateTable pool (mkCreateTable tableName (columns schema) pk) with
  | Throw m => ([CreatingTable tableName], Throw m)
  | Ok pool' =>
      let '(pool'', log) :=
        createIndexes pool' tableName
          (match indexes schema with Some l => l | None => [] end) in
      (CreatingTable tableName :: TableCreated tableName :: log, Ok pool'')
  end.

(** [ensureTable(pool, tableName)]: whether the table was created. *)
Definition ensureTable (pool : DB) (tableName : string)
    : list LogEvent * Throws (DB * bool) :=
  match get tableName schemas with
  | None => ([], Throw ("No schema defined for table: " ++ tableName))
  | Some schema =>
      match tableExists pool tableName with
      | Throw m => ([], Throw m)
      | Ok true => ([], Ok (pool, false))
      | Ok false =>
          match createTable pool tableName schema with
          | (log, Ok pool') => (log, Ok (pool', true))
          | (log, Throw m) => (log, Throw m)
          end
      end
  end.

End WithSchemas.

End TableManager.


(* ================================================================== *)
(** ** fileWatcher.js *)
(* ================================================================== *)

Module FileWatcher.
Import Js Sql TableManager.

(** [Set.prototype.add] followed by [Array.from]: insertion order, no value
    twice (SameValueZero). *)
Definition number_eqb (a b : number) : bool :=
  match a, b with
  | NaN, NaN => true
  | Inf x, Inf y => Bool.eqb x y
  | Fin x, Fin y =>
      (dmant x =? dmant y)%N && (dexp x =? dexp y)%Z &&
      ((dmant x =? 0)%N || Bool.eqb (dneg x) (dneg y))
  | _, _ => false
  end.

Definition sameValueZero (a b : Value) : bool :=
  match a, b with
  | VUndefined, VUndefined => true
  | VNull, VNull => true
  | VStr x, VStr y => String.eqb x y
  | VNum x, VNum y => number_eqb x y
  | _, _ => false
  end.

Definition set_has (v : Value) (l : list Value) : bool :=
  existsb (sameValueZero v) l.

Definition set_add (v : Value) (l : list Value) : list Value :=
  if set_has v l then l else l ++ [v].

(** [detectTableName(fileName, data)] *)
Definition detectTableName (fileName : string) (data : list Record_) : string :=
  let lowerFileName := toLowerCase fileName in
  if includes "accurate" lowerFileName || includes "invoice" lowerFileName
  then "SALES_INVOICE_ACCURATE_ONLINE"
  else if includes "snj" lowerFileName || includes "srp" lowerFileName
  then "SNJ_SRP_DETAIL"
  else
    match data with
    | firstRow :: _ =>
        let columns := keys firstRow in
        if existsb (String.eqb "No. Faktur") columns
           || existsb (String.eqb "Tanggal") columns
        then "SALES_INVOICE_ACCURATE_ONLINE"
        else if existsb (String.eqb "BILL_NO") columns
                || existsb (String.eqb "SALES_DATE") columns
        then "SNJ_SRP_DETAIL"
        else "SNJ_SRP_DETAIL"
    | [] => "SNJ_SRP_DETAIL"
    end.

(** [minDate], [maxDate] and the store set of one batch. *)
Record Window := mkWindow {
  minDate : option string;
  maxDate : option string;
  stores : list Value
}.

Definition noWindow : Window := mkWindow None None [].

(** [!d] and [d] as conditions, for a date that is [null] or a string. *)
Definition date_truthy (d : option string) : bool :=
  match d with
  | Some s => negb (String.eqb s EmptyString)
  | None => false
  end.

(** [if (!minDate || parsedDate < minDate) minDate = parsedDate] *)
Definition lowerTo (parsedDate : string) (d : option string) : option string :=
  match d with
  | Some m =>
      if negb (date_truthy d) || String.ltb parsedDate m
      then Some parsedDate else d
  | None => Some parsedDate
  end.

(** [if (!maxDate || parsedDate > maxDate) maxDate = parsedDate] *)
Definition raiseTo (parsedDate : string) (d : option string) : option string :=
  match d with
  | Some m =>
      if negb (date_truthy d) || String.ltb m parsedDate
      then Some parsedDate else d
  | None => Some parsedDate
  end.

(** The store or branch cell the table's delete is scoped by, if the row has
    one. *)
Definition storeOf (tableName : string) (row : Record_) : option Value :=
  if String.eqb tableName "SNJ_SRP_DETAIL" && truthy (prop "ORG_CODE_NAME" row)
  then Some (prop "ORG_CODE_NAME" row)
  else if String.eqb tableName "SALES_INVOICE_ACCURATE_ONLINE"
          && truthy (prop "Gudang" row)
  then Some (prop "Gudang" row)
  else None.

Definition addStore (tableName : string) (row : Record_) (l : list Value)
    : list Value :=
  match storeOf tableName row with
  | Some v => set_add v l
  | None => l
  end.

(** [row.SALES_DATE || row.Tanggal] *)
Definition dateValueOf (row : Record_) : Value :=
  or_else (prop "SALES_DATE" row) (prop "Tanggal" row).

Definition dateColumnOf (tableName : string) : string :=
  if String.eqb tableName "SALES_INVOICE_ACCURATE_ONLINE"
  then "Tanggal" else "SALES_DATE".

Definition storeColumnOf (tableName : string) : string :=
  if String.eqb tableName "SALES_INVOICE_ACCURATE_ONLINE"
  then "Gudang" else "ORG_CODE_NAME".

(** [sqlType && (sqlType.includes('int') || ...)] *)
Definition numericType (sqlType : option string) : bool :=
  match sqlType with
  | Some t =>
      negb (String.eqb t EmptyString) &&
      (includes "int" t || includes "numeric" t || includes "decimal" t
       || includes "float" t)
  | None => false
  end.

(** [/[eE][+-]?\d+/] *)
Definition scientific : Pattern :=
  [one (fun c => is_char "e" c || is_char "E" c);
   opt (fun c => is_char "+" c || is_char "-" c);
   plus is_digit].

Section Upload.
Context `{NumberOps} {DB : Type} `{Driver DB}.
Variable schemas : Schemas.

(** [Number(value)] *)
Definition toNumber (value : Value) : number :=
  match value with
  | VNum n => n
  | VStr s => str_toNumber s
  | VNull => Fin (mkDec false 0 0)
  | VUndefined => NaN
  end.

(** The text bound for a string column: numbers and scientific notation are
    written out with no decimals. *)
Definition textFor (value : Value) : string :=
  let stringValue := toString value in
  if (match value with VNum _ => true | _ => false end)
     || test scientific stringValue
  then let num := toNumber value in
       if negb (isNaN num) then num_toFixed0 num else stringValue
  else stringValue.

Definition nullable_num (n : option number) : Value :=
  match n with Some x => VNum x | None => VNull end.

Definition nullable_str (s : option string) : Value :=
  match s with Some x => VStr x | None => VNull end.

(** The [columns.forEach] body of the insert: the parameter bound for one
    cell. *)
Definition bindParam (tableName : string) (columnTypes : list (string * string))
    (col : string) (value : Value) : Param :=
  let colType := getColumnType schemas tableName col in
  let sqlType := get col columnTypes in
  if is_blank value then mkParam NVarChar VNull
  else
    match colType with
    | numeric => mkParam Numeric (nullable_num (parseNumeric value))
    | date => mkParam Date (nullable_str (parseDate value))
    | string_ =>
        if numericType sqlType
        then mkParam Numeric (nullable_num (parseNumeric value))
        else mkParam NVarChar (VStr (textFor value))
    end.

(** The single-row insert built for one record. *)
Definition insertFor (tableName : string) (columnTypes : list (string * string))
    (row : Record_) : InsertStmt :=
  mkInsert tableName (keys row)
    (map (fun cell : string * Value =>
            bindParam tableName columnTypes (fst cell) (snd cell)) row).

(** One step of [mappedData.forEach] in the window scan. *)
Definition windowStep (tableName : string) (w : Window) (row : Record_) : Window :=
  let dateValue := dateValueOf row in
  let w' :=
    if truthy dateValue then
      match parseDate dateValue with
      | Some parsedDate =>
          if negb (String.eqb parsedDate EmptyString)
          then mkWindow (lowerTo parsedDate (minDate w))
                        (raiseTo parsedDate (maxDate w)) (stores w)
          else w
      | None => w
      end
    else w in
  mkWindow (minDate w') (maxDate w') (addStore tableName row (stores w')).

Definition computeWindow (tableName : string) (mappedData : list Record_) : Window :=
  fold_left (windowStep tableName) mappedData noWindow.

Definition deleteFor (tableName : string) (w : Window) (lo hi : string) : DeleteStmt :=
  mkDelete tableName (dateColumnOf tableName) lo hi
           (storeColumnOf tableName) (stores w).

(** The delete phase: nothing when there is no window. *)
Definition deletePhase (tableName : string) (w : Window) (tx : DB)
    : list LogEvent * Throws DB :=
  match minDate w, maxDate w with
  | Some lo, Some hi =>
      if date_truthy (minDate w) && date_truthy (maxDate w) then
        let announce :=
          match stores w with
          | [] => DeletingByDateOnly
          | _ => DeletingForStores (stores w)
          end in
        match execDelete tx (deleteFor tableName w lo hi) with
        | Ok (tx', rowsAffected) => ([announce; Deleted rowsAffected], Ok tx')
        | Throw m => ([announce], Throw m)
        end
      else ([], Ok tx)
  | _, _ => ([], Ok tx)
  end.

(** The state of the insert loop. *)
Record Loop := mkLoop {
  tx : DB;
  successCount : nat;
  errorCount : nat;
  loopLog : list LogEvent
}.

(** The body of the insert loop, for the row at index [i]. *)
Definition insertRow (tableName : string) (columnTypes : list (string * string))
    (i : nat) (row : Record_) (st : Loop) : Loop :=
  match execInsert (tx st) (insertFor tableName columnTypes row) with
  | Ok tx' => mkLoop tx' (S (successCount st)) (errorCount st) (loopLog st)
  | Throw m =>
      mkLoop (tx st) (successCount st) (S (errorCount st))
             (loopLog st ++ [RowError (i + 1) m])
  end.

(** [for (let i = ...; i < mappedData.length; i++)], from row [i] on. *)
Fixpoint insertLoop (tableName : string) (columnTypes : list (string * string))
    (i : nat) (rows : list Record_) (st : Loop) : Loop :=
  match rows with
  | [] => st
  | row :: rows' =>
      insertLoop tableName columnTypes (S i) rows'
                 (insertRow tableName columnTypes i row st)
  end.

(** What a finished load returns. *)
Record Outcome := mkOutcome {
  success : bool;
  outSuccessCount : nat;
  outErrorCount : nat;
  dateRange : option string * option string;
  outStores : list Value
}.

(** From [transaction.begin()] on: delete, insert, commit, and the [catch]
    around them, which rolls the transaction back and throws again.  The
    result is the log, the state the database is left in, and the outcome or
    the error.  A statement that throws leaves the transaction as it was, so
    a failed delete is rolled back from the state at begin. *)
Definition transaction (tableName : string) (columnTypes : list (string * string))
    (mappedData : list Record_) (w : Window) (pool : DB)
    : list LogEvent * DB * Throws Outcome :=
  match deletePhase tableName w pool with
  | (log1, Throw m) =>
      let '(pool', r) := rolledBack pool pool m in (log1, pool', r)
  | (log1, Ok tx1) =>
      let st := insertLoop tableName columnTypes 0 mappedData
                           (mkLoop tx1 0 0 []) in
      let log2 := (log1 ++ loopLog st)%list in
      match commitTransaction (tx st) with
      | Throw m =>
          let '(pool', r) := rolledBack pool (tx st) m in (log2, pool', r)
      | Ok _ =>
          ((log2 ++ [UploadCompleted (successCount st) (errorCount st)])%list,
           tx st,
           Ok (mkOutcome true (successCount st) (errorCount st)
                         (minDate w, maxDate w) (stores w)))
      end
  end.

Definition columnTypesOf (recordset : list (string * string))
    : list (string * string) :=
  fold_left (fun o (col : string * string) => set (fst col) (snd col) o)
            recordset [].

(** [uploadToDatabase(connConfig, data, fileName)] on an open connection:
    the database as the load leaves it, the log, and the outcome or the
    error thrown. *)
Definition uploadToDatabase (data : list Record_) (fileName : string) (pool : DB)
    : DB * list LogEvent * Throws Outcome :=
  let tableName := detectTableName fileName data in
  match ensureTable schemas pool tableName with
  | (log0, Throw m) => (pool, log0, Throw m)
  | (log0, Ok (pool1, wasCreated)) =>
      let log1 :=
        (log0 ++ if wasCreated : bool then [TableWasCreated tableName] else [])%list in
      match queryColumns pool1 tableName with
      | Throw m => (pool1, log1, Throw m)
      | Ok recordset =>
          let columnTypes := columnTypesOf recordset in
          let mappedData := map (fun row => mapColumns schemas row tableName) data in
          let w := computeWindow tableName mappedData in
          let log2 :=
            (log1 ++ [DateRange (minDate w) (maxDate w); Stores (stores w)])%list in
          match beginTransaction pool1 with
          | Throw m => (pool1, log2, Throw m)
          | Ok _ =>
              let '(log3, pool2, r) :=
                transaction tableName columnTypes mappedData w pool1 in
              (pool2, (log2 ++ log3)%list, r)
          end
      end
  end.

(** The database as table provisioning leaves it, before the transaction
    begins: with the table newly created if it was missing. *)
Definition provisioned (data : list Record_) (fileName : string) (pool : DB) : DB :=
  match ensureTable schemas pool (detectTableName fileName data) with
  | (_, Ok (pool1, _)) => pool1
  | (_, Throw _) => pool
  end.

(** Where [processFile] leaves the file. *)
Inductive FileFate := MovedToProcessed | MovedToFailed | LeftInWatchFolder.

(** The [catch] of [processFile]: the file is renamed into the failed
    folder, unless that rename throws. *)
Definition moveToFailed (toFailed : Throws unit) : FileFate :=
  match toFailed with
  | Ok _ => MovedToFailed
  | Throw _ => LeftInWatchFolder
  end.

(** [processFile], from the parsed rows on, against the connection the file
    is routed to; [toProcessed] and [toFailed] are what the two
    [fs.renameSync] calls answer.  The rename into the processed folder is
    inside the [try], so its failure sends the file the way of a failed
    load. *)
Definition processFile (data : list Record_) (fileName : string) (pool : DB)
    (toProcessed toFailed : Throws unit) : DB * list LogEvent * FileFate :=
  match data with
  | [] => (pool, [], moveToFailed toFailed)
  | _ =>
      match uploadToDatabase data fileName pool with
      | (pool', log, Ok _) =>
          match toProcessed with
          | Ok _ => (pool', log, MovedToProcessed)
          | Throw _ => (pool', log, moveToFailed toFailed)
          end
      | (pool', log, Throw _) => (pool', log, moveToFailed toFailed)
      end
  end.

End Upload.

End FileWatcher.

(* ================================================================== *)
(** ** server.js *)
(* ================================================================== *)

Module Server.
Import Js Sql TableManager.
Import FileWatcher (Window, mkWindow, minDate, maxDate, stores, noWindow,
  lowerTo, raiseTo, addStore, numericType, scientific, dateValueOf).

(** [/^\d{2}-\d{2}-\d{4}$/] *)
Definition strictDMY : Pattern :=
  [times 2 2 is_digit; one (is_char "-"); times 2 2 is_digit;
   one (is_char "-"); times 4 4 is_digit].

(** The date fix of the window scan: [DD-MM-YYYY] becomes [YYYY-MM-DD]. *)
Definition fixDate (dateStr : string) : string :=
  match match_whole strictDMY dateStr with
  | Some _ =>
      let parts := split "-" dateStr in
      nth 2 parts EmptyString ++ "-" ++ nth 1 parts EmptyString ++ "-"
        ++ nth 0 parts EmptyString
  | None => dateStr
  end.

Section Upload.
Context `{NumberOps} {DB : Type} `{Driver DB}.

(** One step of [data.forEach] in the window scan. *)
Definition windowStep (tableName : string) (w : Window) (row : Record_) : Window :=
  let dateValue := dateValueOf row in
  let w' :=
    if truthy dateValue then
      let dateStr := fixDate (toString dateValue) in
      mkWindow (lowerTo dateStr (minDate w)) (raiseTo dateStr (maxDate w))
               (stores w)
    else w in
  mkWindow (minDate w') (maxDate w') (addStore tableName row (stores w')).

Definition computeWindow (tableName : string) (data : list Record_) : Window :=
  fold_left (windowStep tableName) data noWindow.

(** [columnTypes[col]] as a condition, for a column name that is not the
    name of a member of [Object.prototype] (see [Shapes.ordinary]); for
    those the object answers with the inherited member. *)
Definition declared (columnTypes : list (string * string)) (col : string) : bool :=
  match get col columnTypes with
  | Some t => negb (String.eqb t EmptyString)
  | None => false
  end.

(** [validColumns] with [validValues], in step. *)
Definition validCells (columnTypes : list (string * string)) (row : Record_)
    : Record_ :=
  filter (fun cell : string * Value => declared columnTypes (fst cell)) row.

(** [validColumns.length === 0]: the row is passed over. *)
Definition skips (columnTypes : list (string * string)) (row : Record_) : bool :=
  match validCells columnTypes row with
  | [] => true
  | _ => false
  end.

(** The columns reported as unknown, which happens on the first row only. *)
Definition unknownColumns (columnTypes : list (string * string)) (i : nat)
    (row : Record_) : list LogEvent :=
  if (i =? 0)%nat then
    map SkippingUnknownColumn
        (filter (fun col => negb (declared columnTypes col)) (keys row))
  else [].

(** [value.toString().replace(/[^0-9.-]/g, '')] *)
Definition numericText (s : string) : string :=
  removeAll (fun c => negb (is_digit c || is_char "." c || is_char "-" c)) s.

(** The [validColumns.forEach] body of the insert. *)
Definition bindParam (columnTypes : list (string * string)) (col : string)
    (value : Value) : Param :=
  let sqlType := get col columnTypes in
  if is_blank value then mkParam NVarChar VNull
  else if numericType sqlType then
    let numValue :=
      if (match value with VNum _ => true | _ => false end)
         || test scientific (toString value)
      then FileWatcher.toNumber value
      else parseFloat (numericText (toString value)) in
    mkParam Numeric (if isNaN numValue then VNull else VNum numValue)
  else mkParam NVarChar (VStr (FileWatcher.textFor value)).

(** The single-row insert built for one record, over its valid columns. *)
Definition insertFor (tableName : string) (columnTypes : list (string * string))
    (row : Record_) : InsertStmt :=
  let valid := validCells columnTypes row in
  mkInsert tableName (keys valid)
    (map (fun cell : string * Value =>
            bindParam columnTypes (fst cell) (snd cell)) valid).

(** An element of [errors]. *)
Record ErrorEntry := mkError {
  row : nat;
  error : string;
  data : Record_
}.

(** The state of the insert loop. *)
Record Loop := mkLoop {
  tx : DB;
  successCount : nat;
  errorCount : nat;
  errors : list ErrorEntry;
  loopLog : list LogEvent
}.

(** The body of the insert loop, for the row at index [i]. *)
Definition insertRow (tableName : string) (columnTypes : list (string * string))
    (i : nat) (r : Record_) (st : Loop) : Loop :=
  let log := (loopLog st ++ unknownColumns columnTypes i r)%list in
  if skips columnTypes r then
    (* continue *)
    mkLoop (tx st) (successCount st) (errorCount st) (errors st)
           (log ++ [NoValidColumns (i + 1)])
  else
    match execInsert (tx st) (insertFor tableName columnTypes r) with
    | Ok tx' => mkLoop tx' (S (successCount st)) (errorCount st) (errors st) log
    | Throw m =>
        mkLoop (tx st) (successCount st) (S (errorCount st))
               (errors st ++ [mkError (i + 1) m r])
               (log ++ [RowError (i + 1) m])
    end.

(** [for (let i = ...; i < data.length; i++)], from row [i] on. *)
Fixpoint insertLoop (tableName : string) (columnTypes : list (string * string))
    (i : nat) (rows : list Record_) (st : Loop) : Loop :=
  match rows with
  | [] => st
  | r :: rows' =>
      insertLoop tableName columnTypes (S i) rows'
                 (insertRow tableName columnTypes i r st)
  end.

(** What a finished load returns; [outErrors] is [errors.slice(0, 10)]. *)
Record Outcome := mkOutcome {
  success : bool;
  outSuccessCount : nat;
  outErrorCount : nat;
  dateRange : option string * option string;
  outStores : list Value;
  outErrors : list ErrorEntry
}.

(** From [transaction.begin()] on, with the [catch] that rolls back.  The
    delete phase is the one of [fileWatcher.js], statement for statement. *)
Definition transaction (tableName : string) (columnTypes : list (string * string))
    (data : list Record_) (w : Window) (pool : DB)
    : list LogEvent * DB * Throws Outcome :=
  match FileWatcher.deletePhase tableName w pool with
  | (log1, Throw m) =>
      let '(pool', r) := rolledBack pool pool m in (log1, pool', r)
  | (log1, Ok tx1) =>
      let st := insertLoop tableName columnTypes 0 data
                           (mkLoop tx1 0 0 [] []) in
      let log2 := (log1 ++ loopLog st)%list in
      match commitTransaction (tx st) with
      | Throw m =>
          let '(pool', r) := rolledBack pool (tx st) m in (log2, pool', r)
      | Ok _ =>
          ((log2 ++ [UploadCompleted (successCount st) (errorCount st)])%list,
           tx st,
           Ok (mkOutcome true (successCount st) (errorCount st)
                         (minDate w, maxDate w) (stores w)
                         (firstn 10 (errors st))))
      end
  end.

(** [uploadToDatabase(connConfig, data, tableName)] on an open connection. *)
Definition uploadToDatabase (data : list Record_) (tableName : string) (pool : DB)
    : DB * list LogEvent * Throws Outcome :=
  match queryColumns pool tableName with
  | Throw m => (pool, [], Throw m)
  | Ok recordset =>
      let columnTypes := FileWatcher.columnTypesOf recordset in
      let w := computeWindow tableName data in
      let log1 := [DateRange (minDate w) (maxDate w); Stores (stores w)] in
      match beginTransaction pool with
      | Throw m => (pool, log1, Throw m)
      | Ok _ =>
          let '(log2, pool', r) := transaction tableName columnTypes data w pool in
          (pool', (log1 ++ log2)%list, r)
      end
  end.

End Upload.

End Server.

(* ================================================================== *)
(** ** A reference database

    Tables are lists of stored rows; a stored row keeps, per column named in
    its INSERT, the parameter that was bound.  Two things are left open: how
    the server reads a text as a date ([dateKey], a sortable day number, or
    nothing when the text is no date) and which inserts a table refuses
    ([violates], given the rows already there). *)
(* ================================================================== *)

Module RefDB.
Import Js Sql.

Definition StoredRow := list (string * Param).

Record Table := mkTable {
  t_columns : list (string * string);
  t_rows : list StoredRow
}.

Definition DB := list (string * Table).

Definition rowsOf (db : DB) (table : string) : list StoredRow :=
  match get table db with
  | Some t => t_rows t
  | None => []
  end.

Definition rowCount (db : DB) (table : string) : nat :=
  List.length (rowsOf db table).

Definition has_column (t : Table) (col : string) : bool :=
  hasOwnProperty col (t_columns t).

(** [YYYY-MM-DD] read as the number [YYYYMMDD]. *)
Definition isoDate (s : string) : option Z :=
  match match_whole [times 4 4 is_digit; one (is_char "-"); times 2 2 is_digit;
                     one (is_char "-"); times 2 2 is_digit] s with
  | Some [y; _; m; _; d] =>
      Some (Z.of_N (digits_value 0 y) * 10000
            + Z.of_N (digits_value 0 m) * 100 + Z.of_N (digits_value 0 d))%Z
  | _ => None
  end.

(** [M/D/YYYY] read as the number [YYYYMMDD]. *)
Definition slashDate (s : string) : option Z :=
  match match_whole [times 1 2 is_digit; one (is_char "/"); times 1 2 is_digit;
                     one (is_char "/"); times 4 4 is_digit] s with
  | Some [m; _; d; _; y] =>
      Some (Z.of_N (digits_value 0 y) * 10000
            + Z.of_N (digits_value 0 m) * 100 + Z.of_N (digits_value 0 d))%Z
  | _ => None
  end.

Section Engine.
Variable dateKey : string -> option Z.
Variable violates : list StoredRow -> InsertStmt -> option string.

Definition cellDate (r : StoredRow) (col : string) : option Z :=
  match get col r with
  | Some p => match pvalue p with VStr s => dateKey s | _ => None end
  | None => None
  end.

(** The WHERE clause of a delete, on one stored row; a NULL cell satisfies
    neither BETWEEN nor IN. *)
Definition selected (d : DeleteStmt) (lo hi : Z) (r : StoredRow) : bool :=
  match cellDate r (del_dateColumn d) with
  | Some k => (lo <=? k)%Z && (k <=? hi)%Z
  | None => false
  end
  &&
  match del_stores d with
  | [] => true
  | _ =>
      match get (del_storeColumn d) r with
      | Some p => FileWatcher.set_has (pvalue p) (del_stores d)
      | None => false
      end
  end.

(** The row an accepted insert stores. *)
Definition stored (i : InsertStmt) : StoredRow :=
  combine (ins_columns i) (ins_params i).

(** The delete of a load window would remove the stored row [r]. *)
Definition windowSelects (tableName : string) (w : FileWatcher.Window)
    (r : StoredRow) : bool :=
  match FileWatcher.minDate w, FileWatcher.maxDate w with
  | Some lo, Some hi =>
      FileWatcher.date_truthy (Some lo) && FileWatcher.date_truthy (Some hi) &&
      match dateKey lo, dateKey hi with
      | Some klo, Some khi =>
          selected (FileWatcher.deleteFor tableName w lo hi) klo khi r
      | _, _ => false
      end
  | _, _ => false
  end.

Definition refDelete (db : DB) (d : DeleteStmt) : Throws (DB * nat) :=
  match get (del_table d) db with
  | None => Throw "Invalid object name"
  | Some t =>
      if negb (has_column t (del_dateColumn d)) then Throw "Invalid column name"
      else if negb (match del_stores d with
                    | [] => true
                    | _ => has_column t (del_storeColumn d)
                    end)
      then Throw "Invalid column name"
      else
        match dateKey (del_minDate d), dateKey (del_maxDate d) with
        | Some lo, Some hi =>
            let gone := filter (selected d lo hi) (t_rows t) in
            let kept := filter (fun r => negb (selected d lo hi r)) (t_rows t) in
            Ok (set (del_table d) (mkTable (t_columns t) kept) db,
                List.length gone)
        | _, _ => Throw "Invalid date"
        end
  end.

Definition refInsert (db : DB) (i : InsertStmt) : Throws DB :=
  match get (ins_table i) db with
  | None => Throw "Invalid object name"
  | Some t =>
      match ins_columns i with
      | [] => Throw "Incorrect syntax"
      | _ =>
          if negb (forallb (has_column t) (ins_columns i))
          then Throw "Invalid column name"
          else
            match violates (t_rows t) i with
            | Some m => Throw m
            | None =>
                Ok (set (ins_table i)
                        (mkTable (t_columns t) (t_rows t ++ [stored i])) db)
            end
      end
  end.

Definition refCreateTable (db : DB) (c : CreateTableStmt) : Throws DB :=
  match get (ct_table c) db with
  | Some _ => Throw "There is already an object with that name"
  | None => Ok (set (ct_table c) (mkTable (ct_columns c) []) db)
  end.

#[local] Instance refDriver : Driver DB := {|
  countTables := fun db t => Ok (if hasOwnProperty t db then 1 else 0)%nat;
  queryColumns := fun db t =>
    Ok (match get t db with Some tb => t_columns tb | None => [] end);
  execCreateTable := refCreateTable;
  execCreateIndex := fun db _ => Ok db;
  beginTransaction := fun _ => Ok tt;
  execDelete := refDelete;
  execInsert := refInsert;
  commitTransaction := fun _ => Ok tt;
  rollbackTransaction := fun saved _ => (saved, Ok tt)
|}.

End Engine.

End RefDB.

(* ================================================================== *)
(** ** Sample data *)
(* ================================================================== *)

Module Samples.
Import Js Sql TableManager RefDB.

(** A table whose schema renames one source column. *)
Definition billSchemas : Schemas :=
  [("BILLS",
    mkSchema [("BILL", "nvarchar(20)"); ("EXTRA", "nvarchar(20)")]
             None None None None (Some [("Bill No", "BILL")]))].

Definition billRow : Record_ :=
  [("Bill No", VStr "B-1"); ("EXTRA", VStr "x")].

(** The detail table, with no column mapping. *)
Definition detailSchemas : Schemas :=
  [("SNJ_SRP_DETAIL",
    mkSchema [("SALES_DATE", "date"); ("ORG_CODE_NAME", "nvarchar(50)");
              ("AMOUNT", "decimal(18,2)")]
             None None (Some ["AMOUNT"]) (Some ["SALES_DATE"]) None)].

Definition detailColumns : list (string * string) :=
  [("SALES_DATE", "date"); ("ORG_CODE_NAME", "nvarchar"); ("AMOUNT", "decimal")].

(** The detail table, empty. *)
Definition emptyDetail : DB := [("SNJ_SRP_DETAIL", mkTable detailColumns [])].

(** A table that refuses a row with no amount. *)
Definition amountRequired (rows : list StoredRow) (i : InsertStmt) : option string :=
  match get "AMOUNT" (combine (ins_columns i) (ins_params i)) with
  | Some p =>
      match pvalue p with
      | VNull => Some "Cannot insert the value NULL into column 'AMOUNT'"
      | _ => None
      end
  | None => Some "Cannot insert the value NULL into column 'AMOUNT'"
  end.

Definition lenient (rows : list StoredRow) (i : InsertStmt) : option string := None.

Definition strictDriver : Driver DB := refDriver isoDate amountRequired.
Definition lenientDriver : Driver DB := refDriver isoDate lenient.

Definition sale (day store amount : string) : Record_ :=
  [("SALES_DATE", VStr day); ("ORG_CODE_NAME", VStr store);
   ("AMOUNT", VStr amount)].

(** Three sales; the second has no amount. *)
Definition threeSales : list Record_ :=
  [sale "2025-11-25" "A" "10"; sale "2025-11-26" "A" "";
   sale "2025-11-27" "A" "12,5"].

(** Two sales of one day; the second names no store. *)
Definition storelessBatch : list Record_ :=
  [sale "2025-11-25" "A" "10"; sale "2025-11-25" "" "7"].

(** Two sales of store A, of the first of February and the first of October,
    dated month first. *)
Definition slashBatch : list Record_ :=
  [sale "2/1/2025" "A" "10"; sale "10/1/2025" "A" "7"].

Definition slashDriver : Driver DB := refDriver slashDate lenient.

(** Two sales of store A. *)
Definition storeBatch : list Record_ :=
  [sale "25 Nov 2025" "A" "10"; sale "26 Nov 2025" "A" "7"].

(** A sale with no date. *)
Definition undatedBatch : list Record_ :=
  [[("ORG_CODE_NAME", VStr "A"); ("AMOUNT", VStr "5")]].

(** A sale whose date the reference database does not read. *)
Definition unreadableBatch : list Record_ := [sale "25-11-2025" "A" "10"].

(** The detail table holding one sale. *)
Definition oneSaleDetail : DB :=
  [("SNJ_SRP_DETAIL",
    mkTable detailColumns
      [[("SALES_DATE", mkParam Date (VStr "2025-11-25"));
        ("ORG_CODE_NAME", mkParam NVarChar (VStr "A"));
        ("AMOUNT", mkParam Numeric (VNum (Fin (mkDec false 1 1))))]])].

(** A row none of whose columns the detail table declares. *)
Definition strangerRow : Record_ := [("X", VStr "1")].

(** A sale with one column more than the detail table declares. *)
Definition saleWithExtra : Record_ :=
  [("SALES_DATE", VStr "2025-11-25"); ("EXTRA", VStr "x")].

End Samples.

(* ================================================================== *)
(** ** fileWatcher.js and server.js: connecting, file type, routing *)
(* ================================================================== *)

Module Ingest.
Import Js Sql TableManager.

(** *** connectWithRetry *)

(** What [connectWithRetry] hands back: the pool, the error it throws, or
    [undefined] when the loop body never runs. *)
Inductive Connected (P : Type) :=
| Pool (pool : P)
| Thrown (message : string)
| NoPool.
Arguments Pool {P} pool.
Arguments Thrown {P} message.
Arguments NoPool {P}.

(** The log lines of the loop and its pauses, in order. *)
Inductive ConnectEvent :=
| Connecting (attempt retries : nat)
| ConnectedOk
| AttemptFailed (attempt : nat) (message : string)
| Waited.

Section Connect.
Context {P : Type}.
(** The answer of [sql.connect] to the call of each attempt. *)
Variable connect : nat -> Throws P.

(** [for (let attempt = ...; attempt <= retries; attempt++)], from [attempt]
    on, with [remaining] iterations to go. *)
Fixpoint attempts (retries attempt remaining : nat)
    : list ConnectEvent * Connected P :=
  match remaining with
  | O => ([], NoPool)
  | S remaining' =>
      match connect attempt with
      | Ok pool => ([Connecting attempt retries; ConnectedOk], Pool pool)
      | Throw m =>
          if (attempt =? retries)%nat then
            ([Connecting attempt retries; AttemptFailed attempt m],
             Thrown ("Failed to connect after " ++ digits_of (N.of_nat retries)
                     ++ " attempts: " ++ m))
          else
            let '(log, r) := attempts retries (S attempt) remaining' in
            (Connecting attempt retries :: AttemptFailed attempt m :: Waited
               :: log, r)
      end
  end.

(** [connectWithRetry(connConfig, retries = 3)]; [None] is a missing
    argument. *)
Definition connectWithRetry (retries : option nat)
    : list ConnectEvent * Connected P :=
  let n := match retries with Some n => n | None => 3 end in
  attempts n 1 n.

End Connect.

Definition isWaited (e : ConnectEvent) : bool :=
  match e with Waited => true | _ => false end.

Definition isConnecting (e : ConnectEvent) : bool :=
  match e with Connecting _ _ => true | _ => false end.

(** How many events of a log satisfy [f]. *)
Definition count (f : ConnectEvent -> bool) (log : list ConnectEvent) : nat :=
  List.length (filter f log).

(** *** detectFileType *)

Inductive FileType := xlsx | csv | unknown.

(** [buffer[i]] of the four-byte buffer, zero where the file is shorter. *)
Definition byteAt (bytes : string) (i : nat) : N :=
  match String.get i bytes with
  | Some c => code c
  | None => 0%N
  end.

(** [buffer[0] === 0x50 && buffer[1] === 0x4B && buffer[2] === 0x03 &&
    buffer[3] === 0x04] *)
Definition zipSignature (bytes : string) : bool :=
  (byteAt bytes 0 =? 80)%N && (byteAt bytes 1 =? 75)%N
  && (byteAt bytes 2 =? 3)%N && (byteAt bytes 3 =? 4)%N.

(** [[\x20-\x7E\r\n\t]] *)
Definition is_text (c : ascii) : bool :=
  in_range 32 126 c || (code c =? 13)%N || (code c =? 10)%N || (code c =? 9)%N.

(** [re.test(s)] for a pattern that starts with [^]. *)
Definition test_at_start (p : Pattern) (s : string) : bool :=
  match match_here p false s with Some _ => true | None => false end.

(** [detectFileType(filePath)], from the bytes of the file and the text the
    file reads as (one [ascii] per code unit; a code unit above 255 is as
    good as any that is not in the class). *)
Definition detectFileType (bytes text : string) : FileType :=
  if zipSignature bytes then xlsx
  else
    let sample := take 100 text in
    if test_at_start [plus is_text] sample then csv else unknown.

(** *** Routing a table to its connection *)

(** An entry of [config.connections], as far as routing reads it. *)
Record Connection := mkConnection {
  conn_name : string;
  conn_enabled : bool
}.

(** [connections.find(conn => conn.name === name)] *)
Definition findNamed (name : string) (connections : list Connection)
    : option Connection :=
  find (fun conn => String.eqb (conn_name conn) name) connections.

(** The routing both files share: Accurate Online goes to Database 2, all
    else to Database 1. *)
Definition routeByTable (connections : list Connection) (tableName : string)
    : Throws Connection :=
  if String.eqb tableName "SALES_INVOICE_ACCURATE_ONLINE" then
    match findNamed "Database 2" connections with
    | Some db2 =>
        if conn_enabled db2 then Ok db2
        else Throw "Database 2 is not enabled for SALES_INVOICE_ACCURATE_ONLINE"
    | None => Throw "Database 2 is not enabled for SALES_INVOICE_ACCURATE_ONLINE"
    end
  else
    match findNamed "Database 1" connections with
    | Some db1 =>
        if conn_enabled db1 then Ok db1 else Throw "Database 1 is not enabled"
    | None => Throw "Database 1 is not enabled"
    end.

(** The routing of [processFile] in fileWatcher.js. *)
Definition routeWatcher (connections : list Connection) (tableName : string)
    : Throws Connection :=
  match filter conn_enabled connections with
  | [] => Throw "No enabled database connections in config.json"
  | _ => routeByTable connections tableName
  end.

(** The routing of the upload endpoint in server.js; [None] is a missing
    configuration, which falls back to the connection of the form (an object
    with no [enabled] member, which nothing reads from then on). *)
Definition routeServer (appConfig : option (list Connection))
    (tableName : string) : Throws Connection :=
  match appConfig with
  | Some connections => routeByTable connections tableName
  | None => Ok (mkConnection "Manual Connection" false)
  end.

End Ingest.

(* ================================================================== *)
(** ** Shapes of texts and lists, used to state properties *)
(* ================================================================== *)

Module Shapes.
Import Js TableManager.

(** The members of [Object.prototype]: the names a plain object answers to
    without having them as properties of its own. *)
Definition prototypeMembers : list string :=
  ["constructor"; "hasOwnProperty"; "isPrototypeOf"; "propertyIsEnumerable";
   "toLocaleString"; "toString"; "valueOf"; "__proto__";
   "__defineGetter__"; "__defineSetter__"; "__lookupGetter__";
   "__lookupSetter__"].

(** A column name that is none of them.  For such a name [columnTypes[col]]
    is the type the metadata gives, or [undefined]; for a member of
    [Object.prototype] it is the inherited member, on which the sources'
    [sqlType.includes] throws. *)
Definition ordinary (col : string) : bool :=
  negb (existsb (String.eqb col) prototypeMembers).

(** A record all of whose column names are ordinary. *)
Definition ordinaryRecord (r : Record_) : bool := forallb ordinary (keys r).

(** The text does not start with white space. *)
Definition starts_clean (s : string) : bool :=
  match s with
  | String c _ => negb (is_space c)
  | EmptyString => true
  end.

(** The code unit [c] does not occur in [s]. *)
Definition lacks (c : ascii) (s : string) : bool :=
  every (fun x => negb (Ascii.eqb x c)) s.

(** [n] decimal digits. *)
Definition digits (n : nat) (s : string) : bool :=
  every is_digit s && (String.length s =? n)%nat.

(** The texts of a match, one after the other. *)
Definition joined (gs : list string) : string :=
  fold_right String.append EmptyString gs.

(** The text [g] is one an atom may match: in its class, within its bounds. *)
Definition fits (a : Atom) (g : string) : bool :=
  every (cls a) g && (rmin a <=? String.length g)%nat
  && match rmax a with
     | Some m => (String.length g <=? m)%nat
     | None => true
     end.


(** The values [f] gives on [l], in order. *)
Definition collect {A B : Type} (f : A -> option B) (l : list A) : list B :=
  flat_map (fun x => match f x with Some y => [y] | None => [] end) l.

(** The date a row brings to the window scan of [fileWatcher.js]: the parsed
    date cell, when cell and parsed date are both truthy. *)
Definition watcherDate `{NumberOps} (row : Record_) : option string :=
  let dateValue := FileWatcher.dateValueOf row in
  if truthy dateValue then
    match parseDate dateValue with
    | Some parsedDate =>
        if String.eqb parsedDate EmptyString then None else Some parsedDate
    | None => None
    end
  else None.

(** The date a row brings to the window scan of [server.js]. *)
Definition serverDate `{NumberOps} (row : Record_) : option string :=
  let dateValue := FileWatcher.dateValueOf row in
  if truthy dateValue then Some (Server.fixDate (toString dateValue)) else None.

(** [lo] and [hi] are among [ds], and no text of [ds] is before [lo] or
    after [hi] in the order of [<] on strings. *)
Definition bounds (lo hi : string) (ds : list string) : Prop :=
  In lo ds /\ In hi ds /\
  forall d, In d ds -> String.ltb d lo = false /\ String.ltb hi d = false.

(** A parameter the driver can take: a text or [null] as [NVarChar], a
    number that is not NaN or [null] as [Numeric], a text as [Date]. *)
Definition wellBound (p : Sql.Param) : bool :=
  match Sql.ptype p, Sql.pvalue p with
  | Sql.NVarChar, VNull | Sql.NVarChar, VStr _ => true
  | Sql.Numeric, VNull => true
  | Sql.Numeric, VNum n => negb (isNaN n)
  | Sql.Date, VStr _ => true
  | _, _ => false
  end.

End Shapes.

(* ================================================================== *)
(** * Properties of the embedded code *)
(* ================================================================== *)

(** ** Strings *)

Module StringFacts.
Import Js.

Lemma every_impl (p q : ascii -> bool) (s : string) :
  (forall c, p c = true -> q c = true) ->
  every p s = true -> every q s = true.
Proof.
  intros Hpq. induction s as [|c s IH]; simpl; auto.
  intros E. apply andb_true_iff in E as [E1 E2].
  rewrite (Hpq _ E1), (IH E2). reflexivity.
Qed.

Lemma every_app (p : ascii -> bool) (a b : string) :
  every p (a ++ b) = every p a && every p b.
Proof.
  induction a as [|c a IH]; simpl; auto.
  rewrite IH, andb_assoc. reflexivity.
Qed.

Lemma every_trimStart (p : ascii -> bool) (s : string) :
  every p s = true -> every p (trimStart s) = true.
Proof.
  induction s as [|c s IH]; simpl; auto.
  intros E. destruct (is_space c).
  - apply andb_true_iff in E as [_ E2]. auto.
  - exact E.
Qed.

Lemma every_trimEnd (p : ascii -> bool) (s : string) :
  every p s = true -> every p (trimEnd s) = true.
Proof.
  induction s as [|c s IH]; simpl; auto.
  intros E. apply andb_true_iff in E as [E1 E2]. specialize (IH E2).
  destruct (trimEnd s) as [|d r].
  - destruct (is_space c); simpl; auto. rewrite E1; reflexivity.
  - change (p c && every p (String d r) = true). rewrite E1, IH. reflexivity.
Qed.

Lemma trimStart_app_mark (a b : string) (c : ascii) :
  is_space c = false ->
  trimStart (a ++ String c b) = trimStart a ++ String c b.
Proof.
  intros Hc. induction a as [|x a IH]; simpl.
  - rewrite Hc. reflexivity.
  - destruct (is_space x); auto.
Qed.

Lemma trimEnd_app_mark (a b : string) (c : ascii) :
  is_space c = false ->
  trimEnd (a ++ String c b) = a ++ String c (trimEnd b).
Proof.
  intros Hc. induction a as [|x a IH].
  - simpl. destruct (trimEnd b); [rewrite Hc|]; reflexivity.
  - change (trimEnd (String x (a ++ String c b))
            = String x (a ++ String c (trimEnd b))).
    simpl. rewrite IH. destruct a; reflexivity.
Qed.

Lemma trim_app_mark (a b : string) (c : ascii) :
  is_space c = false ->
  trim (a ++ String c b) = trimStart a ++ String c (trimEnd b).
Proof.
  intros Hc. unfold trim.
  rewrite trimStart_app_mark by assumption.
  apply trimEnd_app_mark; assumption.
Qed.

Lemma lastIndexOf_from_absent (c : ascii) (s : string) (i found : Z) :
  every (fun x => negb (Ascii.eqb x c)) s = true ->
  lastIndexOf_from c s i found = found.
Proof.
  revert i found. induction s as [|x s IH]; simpl; intros i found E; auto.
  apply andb_true_iff in E as [E1 E2].
  rewrite IH by assumption.
  destruct (Ascii.eqb x c); [discriminate|reflexivity].
Qed.

Lemma lastIndexOf_from_mark (c : ascii) (a b : string) (i found : Z) :
  every (fun x => negb (Ascii.eqb x c)) b = true ->
  lastIndexOf_from c (a ++ String c b) i found
  = (i + Z.of_nat (String.length a))%Z.
Proof.
  intros Hb. revert i found. induction a as [|x a IH]; intros i found.
  - simpl. rewrite Ascii.eqb_refl.
    rewrite lastIndexOf_from_absent by assumption. lia.
  - change (lastIndexOf_from c (a ++ String c b) (i + 1)
              (if Ascii.eqb x c then i else found)
            = (i + Z.of_nat (S (String.length a)))%Z).
    rewrite IH. lia.
Qed.

Lemma removeAll_none (p : ascii -> bool) (s : string) :
  every (fun c => negb (p c)) s = true -> removeAll p s = s.
Proof.
  induction s as [|c s IH]; simpl; auto.
  intros E. apply andb_true_iff in E as [E1 E2].
  destruct (p c); [discriminate|]. rewrite IH by assumption. reflexivity.
Qed.

Lemma replaceFirst_mark (c d : ascii) (a b : string) :
  every (fun x => negb (Ascii.eqb x c)) a = true ->
  replaceFirst c (String d EmptyString) (a ++ String c b) = a ++ String d b.
Proof.
  induction a as [|x a IH]; simpl.
  - intros _. rewrite Ascii.eqb_refl. reflexivity.
  - intros E. apply andb_true_iff in E as [E1 E2].
    destruct (Ascii.eqb x c); [discriminate|].
    rewrite IH by assumption. reflexivity.
Qed.

End StringFacts.

(** ** Value coercion *)

Module CoercionFacts.
Import Js TableManager StringFacts.

Lemma plain_no_dot (s : string) :
  plain s = true -> every (fun x => negb (Ascii.eqb x ".")) s = true.
Proof.
  apply every_impl. intros c. unfold is_separator, is_char.
  destruct (Ascii.eqb c ","), (Ascii.eqb c "."); simpl; congruence.
Qed.

Lemma plain_no_comma (s : string) :
  plain s = true -> every (fun x => negb (Ascii.eqb x ",")) s = true.
Proof.
  apply every_impl. intros c. unfold is_separator, is_char.
  destruct (Ascii.eqb c ","), (Ascii.eqb c "."); simpl; congruence.
Qed.

Lemma lastIndexOf_mark (c : ascii) (a b : string) :
  every (fun x => negb (Ascii.eqb x c)) b = true ->
  lastIndexOf c (a ++ String c b) = Z.of_nat (String.length a).
Proof.
  intros Hb. unfold lastIndexOf. rewrite lastIndexOf_from_mark by assumption.
  lia.
Qed.

Lemma lastIndexOf_other (c d : ascii) (a b : string) :
  Ascii.eqb d c = false ->
  every (fun x => negb (Ascii.eqb x c)) a = true ->
  every (fun x => negb (Ascii.eqb x c)) b = true ->
  lastIndexOf c (a ++ String d b) = (-1)%Z.
Proof.
  intros Hd Ha Hb. unfold lastIndexOf. apply lastIndexOf_from_absent.
  rewrite every_app, Ha. simpl. rewrite Hd, Hb. reflexivity.
Qed.

(** With a dot as the only separator the text is kept as it is. *)
Lemma normalizeSeparators_dot (a b : string) :
  plain a = true -> plain b = true ->
  normalizeSeparators (a ++ String "." b) = a ++ String "." b.
Proof.
  intros Ha Hb. unfold normalizeSeparators.
  rewrite (lastIndexOf_mark "." a b) by (apply plain_no_dot; assumption).
  rewrite (lastIndexOf_other "," "." a b)
    by (try reflexivity; apply plain_no_comma; assumption).
  destruct (Z.ltb_spec (-1) (Z.of_nat (String.length a))) as [_|L]; [|lia].
  apply removeAll_none.
  rewrite every_app. simpl.
  pose proof (plain_no_comma _ Ha) as Ha'. pose proof (plain_no_comma _ Hb) as Hb'.
  unfold is_char. rewrite Ha', Hb'. reflexivity.
Qed.

(** With a comma as the only separator the comma becomes a dot. *)
Lemma normalizeSeparators_comma (a b : string) :
  plain a = true -> plain b = true ->
  normalizeSeparators (a ++ String "," b) = a ++ String "." b.
Proof.
  intros Ha Hb. unfold normalizeSeparators.
  rewrite (lastIndexOf_mark "," a b) by (apply plain_no_comma; assumption).
  rewrite (lastIndexOf_other "." "," a b)
    by (try reflexivity; apply plain_no_dot; assumption).
  destruct (Z.ltb_spec (Z.of_nat (String.length a)) (-1)) as [L|_]; [lia|].
  destruct (Z.ltb_spec (-1) (Z.of_nat (String.length a))) as [_|L]; [|lia].
  rewrite removeAll_none.
  - apply replaceFirst_mark. apply plain_no_comma; assumption.
  - rewrite every_app. simpl.
    pose proof (plain_no_dot _ Ha) as Ha'. pose proof (plain_no_dot _ Hb) as Hb'.
    unfold is_char. rewrite Ha', Hb'. reflexivity.
Qed.

Lemma app_mark_not_empty (a b : string) (c : ascii) :
  String.eqb (a ++ String c b) EmptyString = false.
Proof. destruct a; reflexivity. Qed.

Lemma plain_trimStart (s : string) : plain s = true -> plain (trimStart s) = true.
Proof. apply every_trimStart. Qed.

Lemma plain_trimEnd (s : string) : plain s = true -> plain (trimEnd s) = true.
Proof. apply every_trimEnd. Qed.

(** C7 as stated fails: the text ["Infinity"] is neither blank nor read as
    NaN, so [parseNumeric] returns it, and it is not finite. *)
Lemma parseNumeric_Infinity_is_returned :
  exists n : number,
    @parseNumeric decimalHost (VStr "Infinity") = Some n /\ isFinite n = false.
Proof. exists (Inf false). split; reflexivity. Qed.

(** The same holds on every host, and for a finite literal too large for a
    double. *)
Lemma parseNumeric_non_finite `{NumberOps} :
  parseNumeric (VStr "Infinity") = Some (Inf false) /\
  parseNumeric (VStr "-1e999") = Some (Inf true).
Proof. split; reflexivity. Qed.

(** C7, amended.  [parseNumeric] is a total function; it returns [null]
    exactly for a blank input (null, undefined, the empty string) and for an
    input whose normalised text [parseFloat] reads as NaN; any other result
    is what [parseFloat] read, which is never NaN but may be an infinity. *)
Theorem parseNumeric_null_iff_blank_or_NaN `{NumberOps} (value : Value) :
  match parseNumeric value with
  | None =>
      is_blank value = true \/
      parseFloat (normalizeSeparators (trim (toString value))) = NaN
  | Some n =>
      is_blank value = false /\ isNaN n = false /\
      n = parseFloat (normalizeSeparators (trim (toString value)))
  end.
Proof.
  unfold parseNumeric. destruct (is_blank value); [left; reflexivity|].
  destruct (parseFloat _) eqn:E; simpl; auto.
Qed.

End CoercionFacts.

(** ** Records and the column mapping *)

Module MappingFacts.
Import Js TableManager.

Section Objects.
Context {A : Type}.
Implicit Types (o : list (string * A)) (k : string) (v : A).

Lemma keys_set o k v x :
  In x (keys (set k v o)) <-> x = k \/ In x (keys o).
Proof.
  induction o as [|[k' v'] o IH]; simpl.
  - intuition congruence.
  - destruct (String.eqb_spec k k') as [->|N]; simpl.
    + intuition congruence.
    + rewrite IH. intuition congruence.
Qed.

Lemma get_set o k v x :
  get x (set k v o) = if String.eqb x k then Some v else get x o.
Proof.
  induction o as [|[k' v'] o IH]; simpl.
  - reflexivity.
  - destruct (String.eqb_spec k k') as [->|N]; simpl.
    + destruct (String.eqb x k'); reflexivity.
    + rewrite IH. destruct (String.eqb_spec x k') as [->|N'];
        destruct (String.eqb_spec k' k); subst; congruence.
Qed.

Lemma NoDup_keys_set o k v : NoDup (keys o) -> NoDup (keys (set k v o)).
Proof.
  induction o as [|[k' v'] o IH]; simpl; intros ND.
  - constructor; [intros []|constructor].
  - inversion ND as [|? ? Hnin ND']; subst.
    destruct (String.eqb_spec k k') as [->|N]; simpl.
    + constructor; assumption.
    + constructor; [|auto]. intros Hin.
      apply keys_set in Hin as [E|Hin]; [congruence|contradiction].
Qed.

Lemma hasOwnProperty_keys o k : hasOwnProperty k o = true <-> In k (keys o).
Proof.
  unfold hasOwnProperty. induction o as [|[k' v'] o IH]; simpl.
  - intuition discriminate.
  - destruct (String.eqb_spec k k') as [->|N]; [intuition|].
    rewrite IH. intuition congruence.
Qed.

Lemma set_same o k v : get k o = Some v -> set k v o = o.
Proof.
  induction o as [|[k' v'] o IH]; simpl; [discriminate|].
  destruct (String.eqb_spec k k') as [->|N].
  - intros [= ->]. reflexivity.
  - intros E. rewrite IH by assumption. reflexivity.
Qed.

Lemma set_set o k v w : set k v (set k w o) = set k v o.
Proof.
  induction o as [|[k' v'] o IH]; simpl.
  - rewrite String.eqb_refl. reflexivity.
  - destruct (String.eqb_spec k k') as [->|N]; simpl.
    + rewrite String.eqb_refl. reflexivity.
    + destruct (String.eqb_spec k k'); [contradiction|]. rewrite IH. reflexivity.
Qed.

End Objects.

Lemma copyEntry_get (csvRow acc : Record_) (s d : string) :
  copyEntry csvRow acc (s, d)
  = match get s csvRow with Some v => set d v acc | None => acc end.
Proof.
  unfold copyEntry, hasOwnProperty. destruct (get s csvRow); reflexivity.
Qed.

Lemma copy_keys (csvRow : Record_) (mapping : list (string * string))
    (acc : Record_) (d : string) :
  In d (keys (fold_left (copyEntry csvRow) mapping acc)) <->
  In d (keys acc) \/
  exists s, In (s, d) mapping /\ hasOwnProperty s csvRow = true.
Proof.
  revert acc. induction mapping as [|[s0 d0] mapping IH]; intros acc;
    cbn [fold_left].
  - split; [auto|]. intros [Hin|(s & [] & _)]; assumption.
  - rewrite IH. rewrite copyEntry_get.
    destruct (get s0 csvRow) as [v|] eqn:E.
    + rewrite keys_set. split.
      * intros [[->|Hin]|(s & Hin & Hs)].
        -- right. exists s0. unfold hasOwnProperty. rewrite E. simpl; auto.
        -- auto.
        -- right. exists s. simpl; auto.
      * intros [Hin|(s & [[= -> ->]|Hin] & Hs)].
        -- auto.
        -- auto.
        -- right. exists s. auto.
    + split.
      * intros [Hin|(s & Hin & Hs)].
        -- auto.
        -- right. exists s. simpl; auto.
      * intros [Hin|(s & [[= -> ->]|Hin] & Hs)].
        -- auto.
        -- unfold hasOwnProperty in Hs. rewrite E in Hs. discriminate.
        -- right. exists s. auto.
Qed.

Lemma copy_get (csvRow : Record_) (mapping : list (string * string))
    (acc : Record_) (d : string) (v : Value) :
  get d (fold_left (copyEntry csvRow) mapping acc) = Some v ->
  get d acc = Some v \/ exists s, In (s, d) mapping /\ get s csvRow = Some v.
Proof.
  revert acc. induction mapping as [|[s0 d0] mapping IH]; intros acc;
    cbn [fold_left].
  - auto.
  - intros Hget. apply IH in Hget as [Hget|(s & Hin & Hs)];
      [|right; exists s; simpl; auto].
    rewrite copyEntry_get in Hget.
    destruct (get s0 csvRow) as [v0|] eqn:E; [|auto].
    rewrite get_set in Hget. destruct (String.eqb_spec d d0) as [->|N]; [|auto].
    injection Hget as ->. right. exists s0. simpl; auto.
Qed.

Lemma copy_NoDup (csvRow : Record_) (mapping : list (string * string))
    (acc : Record_) :
  NoDup (keys acc) -> NoDup (keys (fold_left (copyEntry csvRow) mapping acc)).
Proof.
  revert acc. induction mapping as [|[s0 d0] mapping IH]; intros acc ND;
    cbn [fold_left].
  - assumption.
  - apply IH. rewrite copyEntry_get. destruct (get s0 csvRow); [|assumption].
    apply NoDup_keys_set; assumption.
Qed.

Lemma mapColumns_fold (schemas : Schemas) (csvRow : Record_) (tableName : string)
    (schema : TableSchema) (mapping : list (string * string)) :
  get tableName schemas = Some schema ->
  columnMapping schema = Some mapping ->
  mapColumns schemas csvRow tableName = fold_left (copyEntry csvRow) mapping [].
Proof. intros Hs Hm. unfold mapColumns. rewrite Hs, Hm. reflexivity. Qed.

(** C10. With a [columnMapping] declared, the mapped record holds exactly
    the destination names of the mapping entries whose source column the
    input record has, each with the cell of such a source column, and no
    name twice; an input column that no such entry names as its destination
    is not in the mapped record, whatever the table declares.  Without a
    mapping (or without a schema) the record is returned as it is. *)
Theorem mapColumns_projects_onto_mapping (schemas : Schemas) (csvRow : Record_)
    (tableName : string) :
  match get tableName schemas with
  | Some schema =>
      match columnMapping schema with
      | Some mapping =>
          let mappedRow := mapColumns schemas csvRow tableName in
          (forall d : string,
             In d (keys mappedRow) <->
             exists s, In (s, d) mapping /\ hasOwnProperty s csvRow = true) /\
          (forall (d : string) (v : Value),
             get d mappedRow = Some v ->
             exists s, In (s, d) mapping /\ get s csvRow = Some v) /\
          (forall k : string,
             In k (keys csvRow) ->
             (forall s, In (s, k) mapping -> hasOwnProperty s csvRow = false) ->
             ~ In k (keys mappedRow)) /\
          NoDup (keys mappedRow)
      | None => mapColumns schemas csvRow tableName = csvRow
      end
  | None => mapColumns schemas csvRow tableName = csvRow
  end.
Proof.
  destruct (get tableName schemas) as [schema|] eqn:Hs;
    [|unfold mapColumns; rewrite Hs; reflexivity].
  destruct (columnMapping schema) as [mapping|] eqn:Hm;
    [|unfold mapColumns; rewrite Hs, Hm; reflexivity].
  cbv zeta. rewrite (mapColumns_fold _ _ _ _ _ Hs Hm).
  assert (Hkeys : forall d,
            In d (keys (fold_left (copyEntry csvRow) mapping [])) <->
            exists s, In (s, d) mapping /\ hasOwnProperty s csvRow = true).
  { intros d. rewrite copy_keys. simpl. intuition. }
  split; [exact Hkeys|]. split; [|split].
  - intros d v Hget. apply copy_get in Hget as [Hget|Hex]; [discriminate|auto].
  - intros k _ Hnone Hin. apply Hkeys in Hin as (s & Hin & Hs').
    rewrite (Hnone s Hin) in Hs'. discriminate.
  - apply copy_NoDup. constructor.
Qed.

Lemma mapColumns_projects_witness :
  In "EXTRA" (keys Samples.billRow) /\
  ~ In "EXTRA" (keys (mapColumns Samples.billSchemas Samples.billRow "BILLS")) /\
  mapColumns Samples.billSchemas Samples.billRow "BILLS" = [("BILL", VStr "B-1")].
Proof.
  pose proof (mapColumns_projects_onto_mapping
                Samples.billSchemas Samples.billRow "BILLS") as H.
  cbn in H. destruct H as (_ & _ & Hdrop & _).
  split; [cbn; auto|]. split; [|reflexivity].
  apply Hdrop; [cbn; auto|].
  intros s [[= <-]|[]].
Defined.

End MappingFacts.

(** ** The insert loops *)

Module LoopFacts.
Import Js Sql TableManager Shapes.

Section AnyDriver.
Context `{NumberOps} {DB : Type} `{Driver DB}.
Variable schemas : Schemas.
Variable tableName : string.
Variable columnTypes : list (string * string).

Lemma Inserted_app (a b : list InsertStmt) (x y z : DB) :
  Inserted a x y -> Inserted b y z -> Inserted (a ++ b) x z.
Proof.
  induction 1 as [|i l p q r Hi Hl IH]; simpl; intros Hb; [assumption|].
  econstructor; eauto.
Qed.

(** *** fileWatcher.js *)

Local Abbreviation wLoop := (FileWatcher.insertLoop schemas tableName columnTypes).
Local Abbreviation wRow := (FileWatcher.insertRow schemas tableName columnTypes).
Local Abbreviation wStmt := (FileWatcher.insertFor schemas tableName columnTypes).

Lemma watcher_loop_app (i : nat) (a b : list Record_) (st : FileWatcher.Loop) :
  wLoop i (a ++ b) st = wLoop (i + List.length a) b (wLoop i a st).
Proof.
  revert i st. induction a as [|r a IH]; intros i st; simpl.
  - rewrite Nat.add_0_r. reflexivity.
  - rewrite IH. f_equal. lia.
Qed.

Lemma watcher_row_counts (i : nat) (r : Record_) (st : FileWatcher.Loop) :
  FileWatcher.successCount (wRow i r st) + FileWatcher.errorCount (wRow i r st)
  = S (FileWatcher.successCount st + FileWatcher.errorCount st).
Proof.
  unfold FileWatcher.insertRow.
  destruct (execInsert (FileWatcher.tx st) _); simpl; lia.
Qed.

Lemma watcher_loop_counts (i : nat) (rows : list Record_) (st : FileWatcher.Loop) :
  FileWatcher.successCount (wLoop i rows st)
  + FileWatcher.errorCount (wLoop i rows st)
  = FileWatcher.successCount st + FileWatcher.errorCount st + List.length rows.
Proof.
  revert i st. induction rows as [|r rows IH]; intros i st; simpl.
  - lia.
  - rewrite IH, watcher_row_counts. lia.
Qed.

(** Rows that the database accepts one after the other are all inserted. *)
Lemma watcher_loop_all_inserted (i : nat) (rows : list Record_)
    (st : FileWatcher.Loop) (b : DB) :
  Inserted (map wStmt rows) (FileWatcher.tx st) b ->
  wLoop i rows st
  = FileWatcher.mkLoop b (FileWatcher.successCount st + List.length rows)
      (FileWatcher.errorCount st) (FileWatcher.loopLog st).
Proof.
  revert i st. induction rows as [|r rows IH]; intros i st; simpl; intros Hins.
  - inversion Hins; subst. destruct st; simpl. f_equal. lia.
  - inversion Hins as [|? ? ? q ? Hq Hrest]; subst.
    rewrite IH; unfold FileWatcher.insertRow; rewrite Hq; simpl.
    + f_equal. lia.
    + exact Hrest.
Qed.

(** *** server.js *)

Local Abbreviation sLoop := (Server.insertLoop tableName columnTypes).
Local Abbreviation sRow := (Server.insertRow tableName columnTypes).
Local Abbreviation sStmt := (Server.insertFor tableName columnTypes).

Lemma server_loop_app (i : nat) (a b : list Record_) (st : Server.Loop) :
  sLoop i (a ++ b) st = sLoop (i + List.length a) b (sLoop i a st).
Proof.
  revert i st. induction a as [|r a IH]; intros i st; simpl.
  - rewrite Nat.add_0_r. reflexivity.
  - rewrite IH. f_equal. lia.
Qed.

Lemma server_row_counts (i : nat) (r : Record_) (st : Server.Loop) :
  Server.successCount (sRow i r st) + Server.errorCount (sRow i r st)
  + (if Server.skips columnTypes r then 1 else 0)
  = S (Server.successCount st + Server.errorCount st) /\
  List.length (Server.errors (sRow i r st)) + Server.errorCount st
  = List.length (Server.errors st) + Server.errorCount (sRow i r st).
Proof.
  unfold Server.insertRow. destruct (Server.skips columnTypes r); simpl.
  - lia.
  - destruct (execInsert (Server.tx st) _); simpl;
      rewrite ?length_app; simpl; lia.
Qed.

Lemma server_loop_counts (i : nat) (rows : list Record_) (st : Server.Loop) :
  Server.successCount (sLoop i rows st) + Server.errorCount (sLoop i rows st)
  + List.length (filter (Server.skips columnTypes) rows)
  = Server.successCount st + Server.errorCount st + List.length rows /\
  List.length (Server.errors (sLoop i rows st)) + Server.errorCount st
  = List.length (Server.errors st) + Server.errorCount (sLoop i rows st).
Proof.
  revert i st. induction rows as [|r rows IH]; intros i st; simpl.
  - lia.
  - destruct (IH (S i) (sRow i r st)) as [IH1 IH2].
    destruct (server_row_counts i r st) as [R1 R2].
    destruct (Server.skips columnTypes r); simpl; lia.
Qed.

Lemma server_loop_all_inserted (i : nat) (rows : list Record_)
    (st : Server.Loop) (b : DB) :
  (forall r, In r rows -> Server.skips columnTypes r = false) ->
  Inserted (map sStmt rows) (Server.tx st) b ->
  exists log,
    sLoop i rows st
    = Server.mkLoop b (Server.successCount st + List.length rows)
        (Server.errorCount st) (Server.errors st) log.
Proof.
  revert i st. induction rows as [|r rows IH]; intros i st Hno Hins; simpl.
  - inversion Hins; subst. exists (Server.loopLog st).
    destruct st; simpl. f_equal. lia.
  - inversion Hins as [|? ? ? q ? Hq Hrest]; subst.
    pose proof (Hno r (or_introl eq_refl)) as Hr.
    destruct (IH (S i) (sRow i r st) (fun r' Hin => Hno r' (or_intror Hin)))
      as [log Hlog].
    + unfold Server.insertRow. rewrite Hr, Hq. exact Hrest.
    + rewrite Hlog. unfold Server.insertRow. rewrite Hr, Hq. simpl.
      eexists. f_equal. lia.
Qed.

Lemma watcher_row_log (i : nat) (r : Record_) (st : FileWatcher.Loop) :
  List.length (filter isRowError (FileWatcher.loopLog (wRow i r st)))
  + FileWatcher.errorCount st
  = List.length (filter isRowError (FileWatcher.loopLog st))
    + FileWatcher.errorCount (wRow i r st).
Proof.
  unfold FileWatcher.insertRow.
  destruct (execInsert (FileWatcher.tx st) _); simpl;
    rewrite ?filter_app, ?length_app; simpl; lia.
Qed.

Lemma watcher_loop_log (i : nat) (rows : list Record_) (st : FileWatcher.Loop) :
  List.length (filter isRowError (FileWatcher.loopLog (wLoop i rows st)))
  + FileWatcher.errorCount st
  = List.length (filter isRowError (FileWatcher.loopLog st))
    + FileWatcher.errorCount (wLoop i rows st).
Proof.
  revert i st. induction rows as [|r rows IH]; intros i st; simpl.
  - lia.
  - pose proof (IH (S i) (wRow i r st)). pose proof (watcher_row_log i r st). lia.
Qed.

Lemma unknownColumns_not_passed_over (i : nat) (r : Record_) :
  filter isNoValidColumns (Server.unknownColumns columnTypes i r) = [].
Proof.
  unfold Server.unknownColumns. destruct (i =? 0)%nat; [|reflexivity].
  induction (filter _ (keys r)) as [|c l IH]; simpl; auto.
Qed.

Lemma server_row_passed_over (i : nat) (r : Record_) (st : Server.Loop) :
  List.length (filter isNoValidColumns (Server.loopLog (sRow i r st)))
  = List.length (filter isNoValidColumns (Server.loopLog st))
    + (if Server.skips columnTypes r then 1 else 0).
Proof.
  unfold Server.insertRow. destruct (Server.skips columnTypes r).
  - cbn [Server.loopLog]. rewrite !filter_app, unknownColumns_not_passed_over.
    rewrite !length_app. simpl. lia.
  - destruct (execInsert (Server.tx st) _); cbn [Server.loopLog];
      rewrite !filter_app, unknownColumns_not_passed_over, ?length_app; simpl; lia.
Qed.

Lemma server_loop_passed_over (i : nat) (rows : list Record_) (st : Server.Loop) :
  List.length (filter isNoValidColumns (Server.loopLog (sLoop i rows st)))
  = List.length (filter isNoValidColumns (Server.loopLog st))
    + List.length (filter (Server.skips columnTypes) rows).
Proof.
  revert i st. induction rows as [|r rows IH]; intros i st; simpl.
  - lia.
  - rewrite IH, server_row_passed_over.
    destruct (Server.skips columnTypes r); simpl; lia.
Qed.

(** The delete phase logs its own lines only. *)
Lemma deletePhase_log_quiet (w : FileWatcher.Window) (pool : DB)
    (log : list LogEvent) (r : Throws DB) :
  FileWatcher.deletePhase tableName w pool = (log, r) ->
  filter isRowError log = [] /\ filter isNoValidColumns log = [].
Proof.
  unfold FileWatcher.deletePhase.
  destruct (FileWatcher.minDate w); [|intros [= <- _]; auto].
  destruct (FileWatcher.maxDate w); [|intros [= <- _]; auto].
  destruct (_ && _); [|intros [= <- _]; auto].
  destruct (execDelete _ _) as [[tx' n]|m]; intros [= <- _];
    destruct (FileWatcher.stores w); auto.
Qed.

(** C4, amended.  For a batch of N records that reaches the insert phase and
    is committed, the outcome of the watcher's load has
    [successCount + errorCount = N], and the log has one ["Row i error"]
    line per counted error.  The outcome of the server's load (column names
    being ordinary) has [successCount + errorCount = N] less the number of
    records none of whose columns the destination declares: such a record is
    passed over with a log line of its own and counted neither way.  The
    [errors] the server's outcome carries are one entry per counted error up
    to ten, and no more than ten. *)
Theorem insert_loops_account_for_rows (rows : list Record_)
    (w : FileWatcher.Window) (pool : DB) :
  let passedOver := List.length (filter (Server.skips columnTypes) rows) in
  (forall log pool' o,
     FileWatcher.transaction schemas tableName columnTypes rows w pool
     = (log, pool', Ok o) ->
     FileWatcher.outSuccessCount o + FileWatcher.outErrorCount o
     = List.length rows /\
     List.length (filter isRowError log) = FileWatcher.outErrorCount o) /\
  (forallb ordinaryRecord rows = true ->
   forall log pool' o,
     Server.transaction tableName columnTypes rows w pool = (log, pool', Ok o) ->
     Server.outSuccessCount o + Server.outErrorCount o + passedOver
     = List.length rows /\
     List.length (Server.outErrors o) = Nat.min 10 (Server.outErrorCount o) /\
     List.length (filter isNoValidColumns log) = passedOver).
Proof.
  cbv zeta. split.
  - intros log pool' o. unfold FileWatcher.transaction.
    destruct (FileWatcher.deletePhase tableName w pool) as [l [tx1|m]] eqn:Hdel.
    2:{ unfold rolledBack. destruct (rollbackTransaction pool pool) as [p [u|m']];
        discriminate. }
    apply deletePhase_log_quiet in Hdel as [Hq _].
    destruct (commitTransaction _).
    2:{ unfold rolledBack. destruct (rollbackTransaction pool _) as [p [u|m']];
        discriminate. }
    intros E. apply (f_equal snd) in E as Eo. apply (f_equal fst) in E.
    apply (f_equal fst) in E. cbn [fst snd] in E, Eo.
    injection Eo as <-. subst log.
    cbn [FileWatcher.outSuccessCount FileWatcher.outErrorCount].
    pose proof (watcher_loop_counts 0 rows (FileWatcher.mkLoop tx1 0 0 [])) as W1.
    pose proof (watcher_loop_log 0 rows (FileWatcher.mkLoop tx1 0 0 [])) as W2.
    cbn [FileWatcher.successCount FileWatcher.errorCount FileWatcher.loopLog
         filter List.length] in W1, W2.
    rewrite !filter_app, !length_app, Hq. simpl. split; [exact W1|exact W2].
  - intros _ log pool' o. unfold Server.transaction.
    destruct (FileWatcher.deletePhase tableName w pool) as [l [tx1|m]] eqn:Hdel.
    2:{ unfold rolledBack. destruct (rollbackTransaction pool pool) as [p [u|m']];
        discriminate. }
    apply deletePhase_log_quiet in Hdel as [_ Hq].
    destruct (commitTransaction _).
    2:{ unfold rolledBack. destruct (rollbackTransaction pool _) as [p [u|m']];
        discriminate. }
    intros E. apply (f_equal snd) in E as Eo. apply (f_equal fst) in E.
    apply (f_equal fst) in E. cbn [fst snd] in E, Eo.
    apply (f_equal (fun t => match t with Ok a => a | Throw _ => o end)) in Eo.
    cbv beta iota in Eo. subst log. rewrite <- Eo.
    cbn [Server.outSuccessCount Server.outErrorCount Server.outErrors].
    destruct (server_loop_counts 0 rows (Server.mkLoop tx1 0 0 [] [])) as [S1 S2].
    pose proof (server_loop_passed_over 0 rows (Server.mkLoop tx1 0 0 [] [])) as S3.
    cbn [Server.successCount Server.errorCount Server.errors Server.loopLog
         filter List.length] in S1, S2, S3.
    rewrite length_firstn, !filter_app, !length_app, Hq.
    cbn [filter isNoValidColumns List.length app Nat.add].
    split; [lia|]. split; [|lia].
    replace (List.length (Server.errors
                            (sLoop 0 rows (Server.mkLoop tx1 0 0 [] []))))
      with (Server.errorCount (sLoop 0 rows (Server.mkLoop tx1 0 0 [] [])))
      by lia.
    reflexivity.
Qed.

(** One refused row in the loops: the rows around it are inserted, the
    counters are [N - 1] and [1], and the error is reported once. *)
Lemma one_failing_row_in_loops (pre post : list Record_) (bad : Record_)
    (message : string) (tx0 tx1 tx2 : DB) :
  (Inserted (map wStmt pre) tx0 tx1 ->
   execInsert tx1 (wStmt bad) = Throw message ->
   Inserted (map wStmt post) tx1 tx2 ->
   wLoop 0 (pre ++ bad :: post) (FileWatcher.mkLoop tx0 0 0 [])
   = FileWatcher.mkLoop tx2 (List.length (pre ++ bad :: post) - 1) 1
       [RowError (List.length pre + 1) message]) /\
  ((forall r, In r (pre ++ bad :: post) -> Server.skips columnTypes r = false) ->
   Inserted (map sStmt pre) tx0 tx1 ->
   execInsert tx1 (sStmt bad) = Throw message ->
   Inserted (map sStmt post) tx1 tx2 ->
   let s := sLoop 0 (pre ++ bad :: post) (Server.mkLoop tx0 0 0 [] []) in
   Server.tx s = tx2 /\
   Server.successCount s = List.length (pre ++ bad :: post) - 1 /\
   Server.errorCount s = 1 /\
   Server.errors s = [Server.mkError (List.length pre + 1) message bad] /\
   firstn 10 (Server.errors s)
   = [Server.mkError (List.length pre + 1) message bad]).
Proof.
  split.
  - intros Hpre Hbad Hpost.
    rewrite watcher_loop_app.
    rewrite (watcher_loop_all_inserted 0 pre _ tx1) by exact Hpre.
    cbn [wLoop FileWatcher.insertLoop].
    unfold FileWatcher.insertRow at 1. cbn [FileWatcher.tx]. rewrite Hbad.
    rewrite (watcher_loop_all_inserted _ post _ tx2) by exact Hpost.
    cbn. rewrite length_app. cbn. f_equal. lia.
  - intros Hno Hpre Hbad Hpost.
    assert (E : exists log,
              sLoop 0 (pre ++ bad :: post) (Server.mkLoop tx0 0 0 [] [])
              = Server.mkLoop tx2 (List.length pre + List.length post) 1
                  [Server.mkError (List.length pre + 1) message bad] log).
    { rewrite server_loop_app.
      destruct (server_loop_all_inserted 0 pre (Server.mkLoop tx0 0 0 [] []) tx1)
        as [log1 E1].
      { intros r Hin. apply Hno. apply in_or_app. left. exact Hin. }
      { exact Hpre. }
      rewrite E1. cbn [Server.insertLoop].
      unfold Server.insertRow.
      rewrite (Hno bad) by (apply in_or_app; right; left; reflexivity).
      cbn [Server.tx]. rewrite Hbad.
      match goal with
      | |- context [sLoop ?i post ?st] =>
          destruct (server_loop_all_inserted i post st tx2) as [log2 E2]
      end.
      { intros r Hin. apply Hno. apply in_or_app. right. right. exact Hin. }
      { exact Hpost. }
      rewrite E2. cbn. eexists. reflexivity. }
    destruct E as [log E]. cbv zeta. rewrite E. cbn.
    rewrite length_app. cbn. repeat split; try reflexivity; lia.
Qed.

(** C3, amended.  Take a load that reaches the insert phase with records of
    ordinary column names, in which the rows before the one at position K
    are accepted, that row is refused with a message, the rows after it are
    accepted from the state the refusal left, and the commit succeeds.  The
    load commits the state in which all rows but that one are inserted, and
    its outcome has [successCount = N - 1] and [errorCount = 1].  The
    outcome of the server's load holds the one error entry, of row K+1 with
    the message and the record.  The outcome of the watcher's load has no
    list of errors at all: the row and its message are in the one
    ["Row K+1 error"] line of its log, and nowhere else. *)
Theorem one_failing_row_is_isolated (pre post : list Record_) (bad : Record_)
    (message : string) (w : FileWatcher.Window) (pool tx0 tx1 tx2 : DB)
    (logd : list LogEvent) :
  let rows := (pre ++ bad :: post)%list in
  let N := List.length rows in
  let K := List.length pre in
  forallb ordinaryRecord rows = true ->
  FileWatcher.deletePhase tableName w pool = (logd, Ok tx0) ->
  commitTransaction tx2 = Ok tt ->
  (Inserted (map wStmt pre) tx0 tx1 ->
   execInsert tx1 (wStmt bad) = Throw message ->
   Inserted (map wStmt post) tx1 tx2 ->
   FileWatcher.transaction schemas tableName columnTypes rows w pool
   = (((logd ++ [RowError (K + 1) message]) ++ [UploadCompleted (N - 1) 1])%list,
      tx2,
      Ok (FileWatcher.mkOutcome true (N - 1) 1
            (FileWatcher.minDate w, FileWatcher.maxDate w)
            (FileWatcher.stores w)))) /\
  ((forall r, In r rows -> Server.skips columnTypes r = false) ->
   Inserted (map sStmt pre) tx0 tx1 ->
   execInsert tx1 (sStmt bad) = Throw message ->
   Inserted (map sStmt post) tx1 tx2 ->
   exists log,
     Server.transaction tableName columnTypes rows w pool
     = (log, tx2,
        Ok (Server.mkOutcome true (N - 1) 1
              (FileWatcher.minDate w, FileWatcher.maxDate w)
              (FileWatcher.stores w)
              [Server.mkError (K + 1) message bad]))).
Proof.
  intros rows N K _ Hdel Hcommit.
  destruct (one_failing_row_in_loops pre post bad message tx0 tx1 tx2)
    as [HW HS].
  split.
  - intros Hpre Hbad Hpost.
    unfold FileWatcher.transaction. rewrite Hdel.
    fold rows in HW. rewrite (HW Hpre Hbad Hpost).
    cbn [FileWatcher.tx FileWatcher.successCount FileWatcher.errorCount
         FileWatcher.loopLog].
    rewrite Hcommit. reflexivity.
  - intros Hno Hpre Hbad Hpost.
    unfold Server.transaction. rewrite Hdel.
    fold rows in HS. specialize (HS Hno Hpre Hbad Hpost). cbv zeta in HS.
    destruct HS as (Etx & Esucc & Eerr & _ & Eten).
    rewrite Etx, Esucc, Eerr, Eten, Hcommit. eexists. reflexivity.
Qed.

(** The insert the server builds names declared columns of the record, all
    of them and no other. *)
Lemma server_insert_columns (r : Record_) (col : string) :
  In col (ins_columns (sStmt r)) <->
  In col (keys r) /\ Server.declared columnTypes col = true.
Proof.
  unfold Server.insertFor, Server.validCells, keys. cbn [ins_columns].
  induction r as [|[k v] r IH]; simpl.
  - tauto.
  - destruct (Server.declared columnTypes k) eqn:D; simpl; rewrite IH.
    + split; [intros [->|[]]; auto|tauto].
    + split; [tauto|]. intros [[->|Hin] Hd]; [congruence|auto].
Qed.

(** The insert the watcher builds names every column of the record. *)
Lemma watcher_insert_columns (r : Record_) :
  ins_columns (wStmt r) = keys r.
Proof. reflexivity. Qed.

(** The server reports unknown columns for the first row only. *)
Lemma server_unknown_once (i : nat) (rows : list Record_) (st : Server.Loop) :
  filter isSkippingUnknownColumn (Server.loopLog (sLoop (S i) rows st))
  = filter isSkippingUnknownColumn (Server.loopLog st).
Proof.
  revert i st. induction rows as [|r rows IH]; intros i st; simpl.
  - reflexivity.
  - rewrite IH. unfold Server.insertRow, Server.unknownColumns. simpl.
    rewrite app_nil_r.
    destruct (Server.skips columnTypes r); simpl.
    + rewrite filter_app. simpl. apply app_nil_r.
    + destruct (execInsert (Server.tx st) _); simpl; [reflexivity|].
      rewrite filter_app. simpl. apply app_nil_r.
Qed.

End AnyDriver.

Import Samples.

Lemma one_failing_row_witness :
  let refusal := "Cannot insert the value NULL into column 'AMOUNT'" in
  let w := @FileWatcher.computeWindow decimalHost "SNJ_SRP_DETAIL" threeSales in
  (exists log tx2,
     @FileWatcher.transaction decimalHost _ strictDriver detailSchemas
       "SNJ_SRP_DETAIL" detailColumns threeSales w emptyDetail
     = (log, tx2,
        Ok (FileWatcher.mkOutcome true 2 1
              (Some "2025-11-25", Some "2025-11-27") [VStr "A"])) /\
     filter isRowError log = [RowError 2 refusal] /\
     RefDB.rowCount tx2 "SNJ_SRP_DETAIL" = 2) /\
  (exists log tx2,
     @Server.transaction decimalHost _ strictDriver
       "SNJ_SRP_DETAIL" detailColumns threeSales w emptyDetail
     = (log, tx2,
        Ok (Server.mkOutcome true 2 1
              (Some "2025-11-25", Some "2025-11-27") [VStr "A"]
              [Server.mkError 2 refusal (sale "2025-11-26" "A" "")]))).
Proof.
  intros refusal w.
  split.
  - edestruct (@one_failing_row_is_isolated decimalHost _ strictDriver
                 detailSchemas "SNJ_SRP_DETAIL" detailColumns
                 [sale "2025-11-25" "A" "10"] [sale "2025-11-27" "A" "12,5"]
                 (sale "2025-11-26" "A" "") refusal w emptyDetail)
      as [HW _].
    + reflexivity.
    + vm_compute. reflexivity.
    + reflexivity.
    + eexists. eexists. split; [|split].
      * apply HW.
        -- econstructor; [vm_compute; reflexivity|constructor].
        -- vm_compute. reflexivity.
        -- econstructor; [vm_compute; reflexivity|constructor].
      * vm_compute. reflexivity.
      * vm_compute. reflexivity.
  - edestruct (@one_failing_row_is_isolated decimalHost _ strictDriver
                 detailSchemas "SNJ_SRP_DETAIL" detailColumns
                 [sale "2025-11-25" "A" "10"] [sale "2025-11-27" "A" "12,5"]
                 (sale "2025-11-26" "A" "") refusal w emptyDetail)
      as [_ HS].
    + reflexivity.
    + vm_compute. reflexivity.
    + reflexivity.
    + edestruct HS as [log E].
      * intros r [<-|[<-|[<-|[]]]]; reflexivity.
      * econstructor; [vm_compute; reflexivity|constructor].
      * vm_compute. reflexivity.
      * econstructor; [vm_compute; reflexivity|constructor].
      * eexists. eexists. exact E.
Defined.

(** C3 as stated fails of the watcher's load: its outcome names no row.  Two
    batches of three sales, the one refused at row 2 and the other at row 1,
    end in the same outcome, two successes and one error; only the logs
    tell the rows apart. *)
Lemma watcher_outcome_names_no_row :
  let second := threeSales in
  let first := [sale "2025-11-25" "A" ""; sale "2025-11-26" "A" "10";
                sale "2025-11-27" "A" "12,5"] in
  let load := fun batch =>
    @FileWatcher.uploadToDatabase decimalHost _ strictDriver detailSchemas
      batch "snj.csv" emptyDetail in
  snd (load second) = snd (load first) /\
  snd (load second)
  = Ok (FileWatcher.mkOutcome true 2 1
          (Some "2025-11-25", Some "2025-11-27") [VStr "A"]) /\
  map (fun e => match e with RowError i _ => i | _ => 0 end)
      (filter isRowError (snd (fst (load second)))) = [2] /\
  map (fun e => match e with RowError i _ => i | _ => 0 end)
      (filter isRowError (snd (fst (load first)))) = [1].
Proof. repeat split; vm_compute; reflexivity. Qed.

Lemma insert_loops_account_for_rows_witness :
  let rows := [strangerRow; sale "2025-11-25" "A" "10"] in
  exists log pool' o,
    @Server.transaction decimalHost _ lenientDriver "SNJ_SRP_DETAIL"
      detailColumns rows FileWatcher.noWindow emptyDetail
    = (log, pool', Ok o) /\
    Server.outSuccessCount o + Server.outErrorCount o
    + List.length (filter (Server.skips detailColumns) rows) = 2 /\
    List.length (Server.outErrors o) = Nat.min 10 (Server.outErrorCount o) /\
    Server.outSuccessCount o = 1.
Proof.
  intros rows.
  destruct (@Server.transaction decimalHost _ lenientDriver "SNJ_SRP_DETAIL"
              detailColumns rows FileWatcher.noWindow emptyDetail)
    as [[log pool'] [o|m]] eqn:E.
  - exists log, pool', o. split; [reflexivity|].
    destruct (proj2 (@insert_loops_account_for_rows decimalHost _ lenientDriver
                       detailSchemas "SNJ_SRP_DETAIL" detailColumns rows
                       FileWatcher.noWindow emptyDetail)
                eq_refl log pool' o E) as (A1 & A2 & _).
    split; [exact A1|]. split; [exact A2|].
    vm_compute in E. injection E as _ _ <-. reflexivity.
  - vm_compute in E. discriminate.
Defined.

(** C4 as stated fails in the server's load: a row none of whose columns the
    detail table declares is passed over, and the load of that one row ends
    with [successCount = 0] and [errorCount = 0]. *)
Lemma server_passes_over_uncounted_row :
  snd (@Server.uploadToDatabase decimalHost _ lenientDriver
         [strangerRow] "SNJ_SRP_DETAIL" emptyDetail)
  = Ok (Server.mkOutcome true 0 0 (None, None) [] []) /\
  0 + 0 <> List.length [strangerRow].
Proof. split; [vm_compute; reflexivity|discriminate]. Qed.

(** C9 holds of the server's insert and fails of the watcher's: for a sale
    with a column [EXTRA] that the detail table does not declare (and no
    column mapping), the server's insert names [SALES_DATE] only, and the
    watcher's insert names [EXTRA] too. *)
Theorem watcher_insert_names_undeclared_column `{NumberOps} :
  let mapped := mapColumns detailSchemas saleWithExtra "SNJ_SRP_DETAIL" in
  Server.declared detailColumns "EXTRA" = false /\
  ins_columns
    (FileWatcher.insertFor detailSchemas "SNJ_SRP_DETAIL" detailColumns mapped)
  = ["SALES_DATE"; "EXTRA"] /\
  ins_columns (Server.insertFor "SNJ_SRP_DETAIL" detailColumns saleWithExtra)
  = ["SALES_DATE"].
Proof. repeat split. Qed.

(** Against the reference database the watcher's insert of that sale is
    refused for the unknown column, so the row is lost to an error. *)
Lemma watcher_undeclared_column_row_fails :
  snd (@FileWatcher.uploadToDatabase decimalHost _ lenientDriver detailSchemas
         [saleWithExtra] "snj.csv" emptyDetail)
  = Ok (FileWatcher.mkOutcome true 0 1
          (Some "2025-11-25", Some "2025-11-25") []).
Proof. vm_compute; reflexivity. Qed.

End LoopFacts.

(** ** The load: window, delete phase, transaction *)

Module UploadFacts.
Import Js Sql TableManager FileWatcher.

Section AnyDriver.
Context `{NumberOps} {DB : Type}.
Variable schemas : Schemas.

Lemma windowStep_undated (tableName : string) (w : Window) (row : Record_) :
  truthy (dateValueOf row) = false ->
  minDate (windowStep tableName w row) = minDate w /\
  maxDate (windowStep tableName w row) = maxDate w.
Proof. intros Hd. unfold windowStep. rewrite Hd. split; reflexivity. Qed.

Lemma window_undated (tableName : string) (rows : list Record_) (w : Window) :
  (forall row, In row rows -> truthy (dateValueOf row) = false) ->
  minDate (fold_left (windowStep tableName) rows w) = minDate w /\
  maxDate (fold_left (windowStep tableName) rows w) = maxDate w.
Proof.
  revert w. induction rows as [|row rows IH]; intros w Hall; simpl.
  - split; reflexivity.
  - destruct (IH (windowStep tableName w row)) as [I1 I2].
    + intros r Hin. apply Hall. right. exact Hin.
    + destruct (windowStep_undated tableName w row) as [S1 S2].
      * apply Hall. left. reflexivity.
      * rewrite I1, I2, S1, S2. split; reflexivity.
Qed.

Lemma deletePhase_no_window (drv : Driver DB) (tableName : string) (w : Window)
    (tx : DB) :
  minDate w = None -> deletePhase tableName w tx = ([], Ok tx).
Proof. intros Hw. unfold deletePhase. rewrite Hw. reflexivity. Qed.

(** The insert loop never asks the driver to delete. *)
Lemma insertLoop_withDelete (drv : Driver DB)
    (f : DB -> DeleteStmt -> Throws (DB * nat)) (tableName : string)
    (columnTypes : list (string * string)) (i : nat) (rows : list Record_)
    (st : Loop) :
  @insertLoop _ DB (withDelete drv f) schemas tableName columnTypes i rows st
  = @insertLoop _ DB drv schemas tableName columnTypes i rows st.
Proof.
  revert i st. induction rows as [|r rows IH]; intros i st; simpl.
  - reflexivity.
  - rewrite IH. reflexivity.
Qed.

Lemma createIndexes_withDelete (drv : Driver DB)
    (f : DB -> DeleteStmt -> Throws (DB * nat)) (pool : DB) (tableName : string)
    (cols : list string) :
  @createIndexes DB (withDelete drv f) pool tableName cols
  = @createIndexes DB drv pool tableName cols.
Proof.
  revert pool. induction cols as [|c cols IH]; intros pool; simpl.
  - reflexivity.
  - destruct (@execCreateIndex DB drv pool _); rewrite IH; reflexivity.
Qed.

Lemma ensureTable_withDelete (drv : Driver DB)
    (f : DB -> DeleteStmt -> Throws (DB * nat)) (pool : DB) (tableName : string) :
  @ensureTable DB (withDelete drv f) schemas pool tableName
  = @ensureTable DB drv schemas pool tableName.
Proof.
  unfold ensureTable, createTable. destruct (get tableName schemas); [|reflexivity].
  unfold tableExists. simpl.
  destruct (@countTables DB drv pool tableName) as [n|]; [|reflexivity].
  destruct (0 <? n)%nat; [reflexivity|].
  destruct (@execCreateTable DB drv pool _); [|reflexivity].
  rewrite createIndexes_withDelete. reflexivity.
Qed.

(** C5, amended.  The date of a record is read from either candidate
    column, whatever the table: it is [row.SALES_DATE || row.Tanggal] on the
    mapped record.  When that is falsy for every record of the batch, the
    window has no dates, the delete phase does nothing to the transaction
    and logs nothing, and the whole load is the same whatever the driver
    would answer to a DELETE: no DELETE statement is sent, the load only
    inserts. *)
Theorem no_date_no_delete (drv : Driver DB)
    (f : DB -> DeleteStmt -> Throws (DB * nat))
    (data : list Record_) (fileName : string) (pool : DB) :
  let tableName := detectTableName fileName data in
  let mappedData := map (fun row => mapColumns schemas row tableName) data in
  let w := computeWindow tableName mappedData in
  (forall row, In row mappedData -> truthy (dateValueOf row) = false) ->
  minDate w = None /\ maxDate w = None /\
  (forall tx : DB, @deletePhase DB drv tableName w tx = ([], Ok tx)) /\
  @uploadToDatabase _ DB (withDelete drv f) schemas data fileName pool
  = @uploadToDatabase _ DB drv schemas data fileName pool.
Proof.
  intros tableName mappedData w Hall.
  destruct (window_undated tableName mappedData noWindow Hall) as [Hmin Hmax].
  fold (computeWindow tableName mappedData) in Hmin, Hmax. fold w in Hmin, Hmax.
  simpl in Hmin, Hmax.
  split; [exact Hmin|]. split; [exact Hmax|]. split.
  - intros tx. apply deletePhase_no_window. exact Hmin.
  - unfold uploadToDatabase. fold tableName.
    rewrite ensureTable_withDelete.
    destruct (@ensureTable DB drv schemas pool tableName) as [log0 [[pool1 created]|m]];
      [|reflexivity].
    change (@queryColumns DB (withDelete drv f)) with (@queryColumns DB drv).
    destruct (@queryColumns DB drv pool1 tableName) as [recordset|m]; [|reflexivity].
    fold mappedData. fold w.
    change (@beginTransaction DB (withDelete drv f))
      with (@beginTransaction DB drv).
    destruct (@beginTransaction DB drv pool1) as [_|m]; [|reflexivity].
    unfold transaction.
    rewrite !deletePhase_no_window by exact Hmin.
    rewrite insertLoop_withDelete. reflexivity.
Qed.

(** The state a transaction that throws leaves, when the rollback of the
    driver restores the state at begin. *)
Lemma thrown_transaction_state (drv : Driver DB)
    (tableName : string) (columnTypes : list (string * string))
    (mappedData : list Record_) (w : Window) (pool1 pool2 : DB)
    (log : list LogEvent) (m : string) :
  (forall saved working : DB, fst (rollbackTransaction saved working) = saved) ->
  transaction schemas tableName columnTypes mappedData w pool1
  = (log, pool2, Throw m) ->
  pool2 = pool1.
Proof.
  intros Hrestore. unfold transaction, rolledBack.
  destruct (deletePhase tableName w pool1) as [l [tx1|m0]].
  - destruct (commitTransaction _) as [u|m1]; [discriminate|].
    match goal with
    | |- context [rollbackTransaction pool1 ?t] =>
        pose proof (Hrestore pool1 t) as R;
        destruct (rollbackTransaction pool1 t) as [p [u|m']]
    end; simpl in R; intros [= _ <- _]; exact R.
  - pose proof (Hrestore pool1 pool1) as R.
    destruct (rollbackTransaction pool1 pool1) as [p [u|m']];
      simpl in R; intros [= _ <- _]; exact R.
Qed.

(** A load that throws hands back the state the transaction began from. *)
Lemma thrown_load_state (drv : Driver DB) (data : list Record_)
    (fileName : string) (pool pool' : DB) (log : list LogEvent) (m : string) :
  (forall saved working : DB, fst (rollbackTransaction saved working) = saved) ->
  uploadToDatabase schemas data fileName pool = (pool', log, Throw m) ->
  pool' = provisioned schemas data fileName pool.
Proof.
  intros Hrestore Hup. unfold provisioned. unfold uploadToDatabase in Hup.
  destruct (ensureTable schemas pool (detectTableName fileName data))
    as [log0 [[pool1 created]|m0]]; [|congruence].
  destruct (queryColumns pool1 _) as [recordset|m1]; [|congruence].
  destruct (beginTransaction pool1) as [_|m2]; [|congruence].
  destruct (transaction _ _ _ _ _ _) as [[log3 pool2] r] eqn:Et.
  injection Hup as <- _ ->.
  apply (thrown_transaction_state drv _ _ _ _ _ _ _ _ Hrestore Et).
Qed.

(** C2.  Every write of a load after [begin()] goes through the transaction,
    and every error after [begin()] passes through the [catch] that calls
    [rollback()].  So, with a driver whose rollback restores the state at
    begin, a load that ends in an error leaves the database as it was when
    the transaction began, whatever had been deleted or inserted inside the
    transaction: that is the state table provisioning left, and the very
    state before the load when the table already existed.  An error in the
    delete phase, or at commit after the insert loop has run, is such an
    error of the load, and [processFile] then never moves the file to the
    processed folder. *)
Theorem failed_load_leaves_no_trace (drv : Driver DB)
    (data : list Record_) (fileName : string) (pool : DB) :
  (forall saved working : DB, fst (rollbackTransaction saved working) = saved) ->
  (forall (pool' : DB) (log : list LogEvent) (m : string),
     uploadToDatabase schemas data fileName pool = (pool', log, Throw m) ->
     pool' = provisioned schemas data fileName pool /\
     (tableExists pool (detectTableName fileName data) = Ok true -> pool' = pool) /\
     (forall toProcessed toFailed,
        processFile schemas data fileName pool toProcessed toFailed
        = (match data with [] => pool | _ => pool' end,
           match data with [] => [] | _ => log end,
           moveToFailed toFailed))) /\
  (forall (tableName : string) (columnTypes : list (string * string))
          (mappedData : list Record_) (w : Window) (pool1 : DB)
          (log : list LogEvent) (m : string),
     deletePhase tableName w pool1 = (log, Throw m) ->
     exists m',
       transaction schemas tableName columnTypes mappedData w pool1
       = (log, pool1, Throw m'))
  /\
  (forall (tableName : string) (columnTypes : list (string * string))
          (mappedData : list Record_) (w : Window) (pool1 tx1 : DB)
          (log : list LogEvent) (m : string),
     deletePhase tableName w pool1 = (log, Ok tx1) ->
     commitTransaction
       (tx (insertLoop schemas tableName columnTypes 0 mappedData
                       (mkLoop tx1 0 0 []))) = Throw m ->
     exists log' m',
       transaction schemas tableName columnTypes mappedData w pool1
       = (log', pool1, Throw m')).
Proof.
  intros Hrestore. split; [|split].
  - intros pool' log m Hup.
    assert (Hprov : pool' = provisioned schemas data fileName pool)
      by (eapply thrown_load_state; [exact Hrestore|exact Hup]).
    split; [exact Hprov|]. split.
    + intros Hex. rewrite Hprov. unfold provisioned, ensureTable.
      destruct (get (detectTableName fileName data) schemas); [|reflexivity].
      rewrite Hex. reflexivity.
    + intros toProcessed toFailed. unfold processFile. rewrite Hup.
      destruct data; reflexivity.
  - intros tableName columnTypes mappedData w pool1 log m Hdel.
    unfold transaction, rolledBack. rewrite Hdel.
    pose proof (Hrestore pool1 pool1) as R.
    destruct (rollbackTransaction pool1 pool1) as [p [u|m']];
      simpl in R; subst p; eexists; reflexivity.
  - intros tableName columnTypes mappedData w pool1 tx1 log m Hdel Hcommit.
    unfold transaction, rolledBack. rewrite Hdel, Hcommit.
    match goal with
    | |- context [rollbackTransaction pool1 ?t] =>
        pose proof (Hrestore pool1 t) as R;
        destruct (rollbackTransaction pool1 t) as [p [u|m']]
    end; simpl in R; subst p; eexists; eexists; reflexivity.
Qed.

End AnyDriver.

Import Samples.

Lemma no_date_no_delete_witness :
  let refuse := fun (_ : RefDB.DB) (_ : DeleteStmt) =>
                  @Throw (RefDB.DB * nat) "no DELETE expected" in
  (forall row,
     In row (map (fun row => mapColumns detailSchemas row
                               (detectTableName "snj.csv" undatedBatch))
                 undatedBatch) ->
     truthy (dateValueOf row) = false) /\
  snd (@uploadToDatabase decimalHost _ (withDelete lenientDriver refuse)
         detailSchemas undatedBatch "snj.csv" emptyDetail)
  = Ok (mkOutcome true 1 0 (None, None) [VStr "A"]).
Proof.
  intros refuse.
  assert (Hall : forall row,
             In row (map (fun row => mapColumns detailSchemas row
                                       (detectTableName "snj.csv" undatedBatch))
                         undatedBatch) ->
             truthy (dateValueOf row) = false).
  { intros row [<-|[]]. reflexivity. }
  split; [exact Hall|].
  destruct (@no_date_no_delete decimalHost _ detailSchemas lenientDriver refuse
              undatedBatch "snj.csv" emptyDetail Hall) as (_ & _ & _ & E).
  rewrite E. vm_compute. reflexivity.
Defined.

(** C5 as stated fails: the date is not read from the designated column of
    the table alone.  A batch for the detail table whose one record has no
    [SALES_DATE] but a [Tanggal] gets a window; the DELETE is sent and
    removes the row the table had for that day and store, and the record
    itself, naming a column the table has not, is refused: the table ends
    empty. *)
Lemma date_in_other_column_deletes :
  let row := [("Tanggal", VStr "2025-11-25"); ("ORG_CODE_NAME", VStr "A");
              ("AMOUNT", VStr "5")] in
  let load := @uploadToDatabase decimalHost _ lenientDriver detailSchemas
                [row] "snj.csv" oneSaleDetail in
  detectTableName "snj.csv" [row] = "SNJ_SRP_DETAIL" /\
  dateColumnOf "SNJ_SRP_DETAIL" = "SALES_DATE" /\
  prop "SALES_DATE" (mapColumns detailSchemas row "SNJ_SRP_DETAIL") = VUndefined /\
  In (Deleted 1) (snd (fst load)) /\
  snd load
  = Ok (mkOutcome true 0 1 (Some "2025-11-25", Some "2025-11-25") [VStr "A"]) /\
  RefDB.rowCount oneSaleDetail "SNJ_SRP_DETAIL" = 1 /\
  RefDB.rowCount (fst (fst load)) "SNJ_SRP_DETAIL" = 0.
Proof.
  repeat split; try (vm_compute; reflexivity).
  vm_compute. auto 10.
Qed.

Lemma failed_load_witness :
  (exists log,
     @uploadToDatabase decimalHost _ lenientDriver detailSchemas
       unreadableBatch "snj.csv" oneSaleDetail
     = (oneSaleDetail, log, Throw "Invalid date") /\
     @processFile decimalHost _ lenientDriver detailSchemas
       unreadableBatch "snj.csv" oneSaleDetail (Ok tt) (Ok tt)
     = (oneSaleDetail, log, MovedToFailed)) /\
  (exists log,
     @uploadToDatabase decimalHost _
       (withCommit lenientDriver (fun _ => Throw "commit failed"))
       detailSchemas storeBatch "snj.csv" oneSaleDetail
     = (oneSaleDetail, log, Throw "commit failed")).
Proof.
  split.
  - set (L := snd (fst (@uploadToDatabase decimalHost _ lenientDriver
                          detailSchemas unreadableBatch "snj.csv" oneSaleDetail))).
    assert (Hup : @uploadToDatabase decimalHost _ lenientDriver detailSchemas
                    unreadableBatch "snj.csv" oneSaleDetail
                  = (oneSaleDetail, L, Throw "Invalid date"))
      by (vm_compute; reflexivity).
    exists L. split; [exact Hup|].
    destruct (proj1 (@failed_load_leaves_no_trace decimalHost _ detailSchemas
                       lenientDriver unreadableBatch "snj.csv" oneSaleDetail
                       (fun _ _ => eq_refl)) _ _ _ Hup) as (_ & _ & Hp).
    exact (Hp (Ok tt) (Ok tt)).
  - eexists.
    assert (E : forall r, r = @uploadToDatabase decimalHost _
                  (withCommit lenientDriver (fun _ => Throw "commit failed"))
                  detailSchemas storeBatch "snj.csv" oneSaleDetail ->
                fst (fst r) = oneSaleDetail -> snd r = Throw "commit failed" ->
                r = (oneSaleDetail, snd (fst r), Throw "commit failed")).
    { intros [[a b] c] _ Ha Hc. simpl in *. subst. reflexivity. }
    apply E; [reflexivity| |vm_compute; reflexivity].
    destruct (@uploadToDatabase decimalHost _
                (withCommit lenientDriver (fun _ => Throw "commit failed"))
                detailSchemas storeBatch "snj.csv" oneSaleDetail)
      as [[p' l'] [o|m]] eqn:Hup.
    + vm_compute in Hup. discriminate.
    + apply (proj1 (@failed_load_leaves_no_trace decimalHost _ detailSchemas
                      (withCommit lenientDriver (fun _ => Throw "commit failed"))
                      storeBatch "snj.csv" oneSaleDetail (fun _ _ => eq_refl)))
        in Hup.
      destruct Hup as (_ & Hsame & _). simpl. apply Hsame. reflexivity.
Defined.

(** The guarantee is the rollback's: with a driver whose [rollback()] leaves
    the transaction's work in place, the same failed load leaves its rows
    behind. *)
Lemma without_rollback_rows_stay :
  let careless :=
    withRollback (withCommit lenientDriver (fun _ => Throw "commit failed"))
                 (fun _ working => (working, Ok tt)) in
  let load := @uploadToDatabase decimalHost _ careless detailSchemas
                storeBatch "snj.csv" emptyDetail in
  snd load = Throw "commit failed" /\
  RefDB.rowCount emptyDetail "SNJ_SRP_DETAIL" = 0 /\
  RefDB.rowCount (fst (fst load)) "SNJ_SRP_DETAIL" = 2.
Proof. repeat split; vm_compute; reflexivity. Qed.

(** Against the reference database, provisioning adds no row to any table,
    so a load that throws leaves every table with the rows it had. *)
Lemma createIndexes_reference (dateKey : string -> option Z)
    (violates : list RefDB.StoredRow -> InsertStmt -> option string)
    (pool : RefDB.DB) (tableName : string) (cols : list string) :
  fst (@createIndexes _ (RefDB.refDriver dateKey violates) pool tableName cols)
  = pool.
Proof.
  induction cols as [|c cols IH]; simpl; [reflexivity|].
  destruct (@createIndexes _ (RefDB.refDriver dateKey violates) pool tableName
              cols) as [p l].
  simpl in *. exact IH.
Qed.

Lemma thrown_load_keeps_rows `{NumberOps} (dateKey : string -> option Z)
    (violates : list RefDB.StoredRow -> InsertStmt -> option string)
    (schemas : Schemas) (data : list Record_) (fileName : string)
    (pool pool' : RefDB.DB) (log : list LogEvent) (m table : string) :
  @uploadToDatabase _ _ (RefDB.refDriver dateKey violates) schemas data fileName
    pool = (pool', log, Throw m) ->
  RefDB.rowsOf pool' table = RefDB.rowsOf pool table.
Proof.
  intros Hup. apply thrown_load_state in Hup; [|reflexivity]. subst pool'.
  unfold provisioned, ensureTable, tableExists.
  set (t := detectTableName fileName data).
  destruct (get t schemas) as [schema|]; [|reflexivity].
  change (@countTables _ (RefDB.refDriver dateKey violates) pool t)
    with (@Ok nat (if hasOwnProperty t pool then 1 else 0)).
  unfold hasOwnProperty.
  destruct (get t pool) as [tb|] eqn:Hget; [reflexivity|].
  cbn [Nat.ltb Nat.leb]. unfold createTable.
  change (@execCreateTable _ (RefDB.refDriver dateKey violates))
    with RefDB.refCreateTable.
  unfold RefDB.refCreateTable. cbn [ct_table ct_columns]. rewrite Hget.
  match goal with
  | |- context [@createIndexes ?D ?d ?p ?n ?c] =>
      pose proof (createIndexes_reference dateKey violates p n c) as Hidx;
      destruct (@createIndexes D d p n c) as [p' l']
  end.
  simpl in Hidx. subst p'. unfold RefDB.rowsOf.
  rewrite MappingFacts.get_set.
  destruct (String.eqb_spec table t) as [->|Hne]; [rewrite Hget|]; reflexivity.
Qed.

End UploadFacts.

(** ** Two loads in a row, against the reference database *)

Module ReloadFacts.
Import Js Sql TableManager FileWatcher RefDB MappingFacts.

Section Reference.
Context `{NumberOps}.
Variable dateKey : string -> option Z.
Variable violates : list StoredRow -> InsertStmt -> option string.
Variable schemas : Schemas.
Variable tableName : string.
Variable cols : list (string * string).

Local Abbreviation drv := (refDriver dateKey violates).
Local Abbreviation cts := (columnTypesOf cols).
Local Abbreviation rLoop :=
  (@insertLoop _ DB drv schemas tableName cts).
Local Abbreviation rStmt := (insertFor schemas tableName cts).
Local Abbreviation table rows := (mkTable cols rows).

Lemma filter_all {A : Type} (p : A -> bool) (l : list A) :
  (forall x, In x l -> p x = true) ->
  filter p l = l /\ filter (fun x => negb (p x)) l = [].
Proof.
  induction l as [|a l IH]; simpl; intros Hall; [split; reflexivity|].
  rewrite (Hall a (or_introl eq_refl)). simpl.
  destruct IH as [I1 I2]; [intros x Hx; apply Hall; right; exact Hx|].
  rewrite I1, I2. split; reflexivity.
Qed.

Lemma get_set_same {A : Type} (o : list (string * A)) (k : string) (v : A) :
  get k (set k v o) = Some v.
Proof. rewrite get_set, String.eqb_refl. reflexivity. Qed.

(** An accepted insert appends the stored row to the table. *)
Lemma refInsert_shape (db : DB) (rows : list StoredRow) (i : InsertStmt) :
  get tableName db = Some (table rows) -> ins_table i = tableName ->
  refInsert violates db i = Ok (set tableName (table (rows ++ [stored i])) db) \/
  exists m, refInsert violates db i = Throw m.
Proof.
  intros Hget Ht. unfold refInsert. rewrite Ht, Hget. simpl.
  destruct (ins_columns i); [right; eexists; reflexivity|].
  destruct (negb _); [right; eexists; reflexivity|].
  destruct (violates rows i); [right; eexists; reflexivity|].
  left. reflexivity.
Qed.

Lemma loop_errors_grow (i : nat) (rows : list Record_) (st : Loop) :
  errorCount st <= errorCount (rLoop i rows st).
Proof.
  revert i st. induction rows as [|r rows IH]; intros i st; simpl; [lia|].
  etransitivity; [|apply IH]. unfold insertRow.
  destruct (execInsert (tx st) _); simpl; lia.
Qed.

(** A loop that counts no error has appended every row of the batch. *)
Lemma loop_without_errors (i : nat) (rows : list Record_) (st : Loop)
    (rows0 : list StoredRow) :
  get tableName (tx st) = Some (table rows0) ->
  errorCount (rLoop i rows st) = errorCount st ->
  rLoop i rows st
  = mkLoop (set tableName
              (table (rows0 ++ map (fun r => stored (rStmt r)) rows)) (tx st))
           (successCount st + List.length rows) (errorCount st) (loopLog st).
Proof.
  revert i st rows0. induction rows as [|r rows IH]; intros i st rows0 Hget Herr.
  - simpl. rewrite app_nil_r, (set_same _ _ _ Hget), Nat.add_0_r.
    destruct st; reflexivity.
  - cbn [insertLoop] in *.
    assert (Erow : @insertRow _ DB drv schemas tableName cts i r st
                   = match refInsert violates (tx st) (rStmt r) with
                     | Ok tx' => mkLoop tx' (S (successCount st)) (errorCount st)
                                        (loopLog st)
                     | Throw m => mkLoop (tx st) (successCount st)
                                         (S (errorCount st))
                                         (loopLog st ++ [RowError (i + 1) m])
                     end) by reflexivity.
    rewrite Erow in *. clear Erow.
    destruct (refInsert_shape (tx st) rows0 (rStmt r) Hget eq_refl) as [E|[m E]];
      rewrite E in *.
    + rewrite (IH (S i) _ (rows0 ++ [stored (rStmt r)])%list).
      * cbn [tx successCount errorCount loopLog].
        rewrite set_set, <- app_assoc. simpl. f_equal. lia.
      * cbn [tx]. apply get_set_same.
      * exact Herr.
    + match type of Herr with
      | errorCount (rLoop ?j rows ?s) = _ =>
          pose proof (loop_errors_grow j rows s) as G
      end.
      cbn [errorCount] in G. lia.
Qed.

Lemma filter_none {A : Type} (p : A -> bool) (l : list A) :
  (forall x, In x l -> p x = false) -> filter p l = [].
Proof.
  induction l as [|a l IH]; simpl; intros Hall; [reflexivity|].
  rewrite (Hall a (or_introl eq_refl)). apply IH.
  intros x Hx. apply Hall. right. exact Hx.
Qed.

(** What a delete phase that does not throw leaves of the table: the rows
    the window does not select; with a window, it reports the others. *)
Lemma deletePhase_shape (db : DB) (rows : list StoredRow) (w : Window)
    (log : list LogEvent) (tx1 : DB) :
  get tableName db = Some (table rows) ->
  @deletePhase DB drv tableName w db = (log, Ok tx1) ->
  tx1 = set tableName
          (table (filter (fun r => negb (windowSelects dateKey tableName w r)) rows))
          db /\
  (date_truthy (minDate w) && date_truthy (maxDate w) = true ->
   In (Deleted (List.length (filter (windowSelects dateKey tableName w) rows)))
      log).
Proof.
  intros Hget. unfold deletePhase, windowSelects.
  assert (Hidle : (forall r : StoredRow, In r rows -> negb false = true) ->
                  db = set tableName (table (filter (fun _ => negb false) rows)) db).
  { intros _. destruct (filter_all (fun _ : StoredRow => negb false) rows) as [F _];
      [reflexivity|]. rewrite F. symmetry. apply set_same. exact Hget. }
  destruct (minDate w) as [lo|] eqn:Emin; cbv beta iota.
  2: { intros [= E1 E2]; subst. split; [apply Hidle; reflexivity|discriminate]. }
  destruct (maxDate w) as [hi|] eqn:Emax; cbv beta iota.
  2: { intros [= E1 E2]; subst. split; [apply Hidle; reflexivity|].
       rewrite andb_false_r. discriminate. }
  destruct (date_truthy (Some lo) && date_truthy (Some hi)) eqn:T;
    cbv beta iota.
  2: { intros [= E1 E2]; subst. split; [apply Hidle; reflexivity|discriminate]. }
  cbn [andb].
  change (@execDelete DB drv) with (refDelete dateKey).
  unfold refDelete. cbn [del_table del_dateColumn del_stores del_storeColumn
                         del_minDate del_maxDate deleteFor].
  rewrite Hget.
  destruct (negb (has_column (table rows) (dateColumnOf tableName)));
    [discriminate|].
  destruct (negb match stores w with
                 | [] => true
                 | _ :: _ => has_column (table rows) (storeColumnOf tableName)
                 end); [discriminate|].
  destruct (dateKey lo) as [klo|] eqn:Klo; [|discriminate].
  destruct (dateKey hi) as [khi|] eqn:Khi; [|discriminate].
  cbn [t_rows t_columns andb]. intros [= E1 E2]; subst.
  split; [reflexivity|]. intros _. right. left. reflexivity.
Qed.

(** Whether the delete phase throws does not depend on the rows. *)
Lemma deletePhase_verdict (db db' : DB) (rows rows' : list StoredRow)
    (w : Window) (log : list LogEvent) (tx1 : DB) :
  get tableName db = Some (table rows) ->
  get tableName db' = Some (table rows') ->
  @deletePhase DB drv tableName w db = (log, Ok tx1) ->
  exists log' tx1', @deletePhase DB drv tableName w db' = (log', Ok tx1').
Proof.
  intros Hget Hget'. unfold deletePhase.
  destruct (minDate w) as [lo|]; [|eauto].
  destruct (maxDate w) as [hi|]; [|eauto].
  destruct (date_truthy (Some lo) && date_truthy (Some hi)); [|eauto].
  change (@execDelete DB drv) with (refDelete dateKey). unfold refDelete.
  cbn [del_table del_dateColumn del_stores del_storeColumn
       del_minDate del_maxDate deleteFor].
  rewrite Hget, Hget'. cbn [t_columns].
  destruct (negb (has_column _ _)); [discriminate|].
  destruct (negb _); [discriminate|].
  destruct (dateKey lo); [|discriminate].
  destruct (dateKey hi); [|discriminate].
  intros _. eauto.
Qed.

(** The load against a database in which the destination table exists. *)
Lemma upload_on_existing_table (data : list Record_) (fileName : string)
    (db : DB) (rows : list StoredRow) (schema : TableSchema) :
  detectTableName fileName data = tableName ->
  get tableName schemas = Some schema ->
  get tableName db = Some (table rows) ->
  let mappedData := map (fun row => mapColumns schemas row tableName) data in
  let w := computeWindow tableName mappedData in
  @uploadToDatabase _ DB drv schemas data fileName db
  = let '(log3, pool2, r) :=
      @transaction _ DB drv schemas tableName cts mappedData w db in
    (pool2,
     ([DateRange (minDate w) (maxDate w); Stores (stores w)] ++ log3)%list, r).
Proof.
  intros Ht Hs Hget mappedData w.
  unfold uploadToDatabase, ensureTable, tableExists. rewrite Ht, Hs.
  change (@countTables DB drv db tableName)
    with (@Ok nat (if hasOwnProperty tableName db then 1 else 0)).
  unfold hasOwnProperty. rewrite Hget. cbn [Nat.ltb Nat.leb].
  change (@queryColumns DB drv db tableName)
    with (@Ok (list (string * string))
              (match get tableName db with
               | Some tb => t_columns tb
               | None => []
               end)).
  rewrite Hget. cbn [t_columns].
  change (@beginTransaction DB drv db) with (@Ok unit tt).
  fold mappedData. fold w. reflexivity.
Qed.

(** Take a batch whose destination table exists and is empty and whose
    first load ends with no row in error.  The table then holds one row per
    record.  If the load window selects every row that load stored, the
    second load deletes exactly those rows, inserts the batch again and
    leaves the database as the first load left it, with the same outcome.
    In general a second load with no row in error leaves one row per record
    plus the rows of the first load that the window does not select. *)
Lemma second_load_when_covered (data : list Record_) (fileName : string)
    (pool pool1 : DB) (log1 : list LogEvent) (o1 : Outcome) :
  let mappedData := map (fun row => mapColumns schemas row tableName) data in
  let w := computeWindow tableName mappedData in
  detectTableName fileName data = tableName ->
  get tableName pool = Some (table []) ->
  @uploadToDatabase _ DB drv schemas data fileName pool = (pool1, log1, Ok o1) ->
  outErrorCount o1 = 0 ->
  rowCount pool1 tableName = List.length data /\
  ((forall row, In row mappedData ->
      windowSelects dateKey tableName w (stored (rStmt row)) = true) ->
   exists log2,
     @uploadToDatabase _ DB drv schemas data fileName pool1 = (pool1, log2, Ok o1)
     /\ (data <> [] -> In (Deleted (List.length data)) log2)) /\
  (forall (pool2 : DB) (log2 : list LogEvent) (o2 : Outcome),
     @uploadToDatabase _ DB drv schemas data fileName pool1 = (pool2, log2, Ok o2) ->
     outErrorCount o2 = 0 ->
     rowCount pool2 tableName
     = List.length data
       + List.length (filter (fun r => negb (windowSelects dateKey tableName w r))
                             (rowsOf pool1 tableName))).
Proof.
  intros mappedData w Ht Hget Hup Herr.
  destruct (get tableName schemas) as [schema|] eqn:Hs.
  2: { unfold uploadToDatabase, ensureTable in Hup. rewrite Ht, Hs in Hup.
       discriminate. }
  rewrite (upload_on_existing_table data fileName pool [] schema Ht Hs Hget)
    in Hup.
  fold mappedData in Hup. fold w in Hup.
  unfold transaction in Hup.
  destruct (@deletePhase DB drv tableName w pool) as [logd [txd|md]] eqn:Hdel;
    [|discriminate Hup].
  destruct (deletePhase_shape pool [] w logd txd Hget Hdel) as [Etx _].
  cbn [filter] in Etx. rewrite (set_same _ _ _ Hget) in Etx. subst txd.
  change (@commitTransaction DB drv) with (fun _ : DB => @Ok unit tt) in Hup.
  cbv beta in Hup.
  injection Hup as Hpool Hlog Hout.
  assert (Hloop := loop_without_errors 0 mappedData (mkLoop pool 0 0 []) [] Hget).
  cbn [tx successCount errorCount loopLog] in Hloop.
  rewrite <- Hout in Herr. cbn [outErrorCount] in Herr.
  specialize (Hloop Herr). cbn [app Nat.add] in Hloop.
  set (SR := map (fun r => stored (rStmt r)) mappedData) in *.
  assert (Epool : pool1 = set tableName (table SR) pool).
  { rewrite <- Hpool, Hloop. reflexivity. }
  assert (Hget1 : get tableName pool1 = Some (table SR)).
  { rewrite Epool. apply get_set_same. }
  assert (Hlen : List.length SR = List.length data).
  { unfold SR, mappedData. rewrite !length_map. reflexivity. }
  assert (Hrows1 : rowsOf pool1 tableName = SR).
  { unfold rowsOf. rewrite Hget1. reflexivity. }
  destruct (deletePhase_verdict pool pool1 [] SR w logd pool Hget Hget1 Hdel)
    as (logd2 & txd2 & Hdel2).
  destruct (deletePhase_shape pool1 SR w logd2 txd2 Hget1 Hdel2) as [Etx2 Hin2].
  split; [|split].
  - unfold rowCount. rewrite Hrows1. exact Hlen.
  - intros Hcov.
    rewrite (upload_on_existing_table data fileName pool1 SR schema Ht Hs Hget1).
    fold mappedData. fold w. unfold transaction. rewrite Hdel2.
    assert (Hsel : forall r, In r SR -> windowSelects dateKey tableName w r = true).
    { intros r Hin. unfold SR in Hin.
      apply in_map_iff in Hin as (row & <- & Hrow). apply Hcov. exact Hrow. }
    destruct (filter_all _ SR Hsel) as [F1 F2].
    rewrite F2, Epool, set_set, (set_same _ _ _ Hget) in Etx2. subst txd2.
    change (@commitTransaction DB drv) with (fun _ : DB => @Ok unit tt).
    cbv beta. rewrite Hpool, Hout. eexists. split; [reflexivity|].
    intros Hdata.
    apply in_or_app. right. apply in_or_app. left. apply in_or_app. left.
    rewrite F1, Hlen in Hin2. apply Hin2.
    destruct mappedData as [|row0 rest] eqn:Em.
    + unfold mappedData in Em. destruct data; [contradiction|discriminate].
    + specialize (Hcov row0 (or_introl eq_refl)). unfold windowSelects in Hcov.
      destruct (minDate w) as [lo|]; [|discriminate].
      destruct (maxDate w) as [hi|]; [|discriminate].
      apply andb_true_iff in Hcov as [Hcov _]. exact Hcov.
  - intros pool2 log2 o2 Hup2 Herr2.
    rewrite (upload_on_existing_table data fileName pool1 SR schema Ht Hs Hget1)
      in Hup2.
    fold mappedData in Hup2. fold w in Hup2. unfold transaction in Hup2.
    rewrite Hdel2 in Hup2.
    change (@commitTransaction DB drv) with (fun _ : DB => @Ok unit tt) in Hup2.
    cbv beta in Hup2. injection Hup2 as Hpool2 Hlog2 Hout2.
    set (kept := filter (fun r => negb (windowSelects dateKey tableName w r)) SR)
      in *.
    assert (Hgetd : get tableName txd2 = Some (table kept)).
    { rewrite Etx2. apply get_set_same. }
    assert (Hloop2 := loop_without_errors 0 mappedData (mkLoop txd2 0 0 []) kept
                        Hgetd).
    cbn [tx successCount errorCount loopLog] in Hloop2.
    rewrite <- Hout2 in Herr2. cbn [outErrorCount] in Herr2.
    specialize (Hloop2 Herr2).
    unfold rowCount, rowsOf at 1. rewrite <- Hpool2, Hloop2. cbn [tx].
    rewrite get_set_same. cbn [t_rows]. fold SR.
    rewrite Hrows1. fold kept. rewrite length_app, Hlen. lia.
Qed.

End Reference.

Import Samples.

(** C1 as stated fails: both records of the batch carry a date and both
    inserts succeed in both loads, the table starts empty, and yet it holds
    two rows after the first load and three after the second.  The second
    record names no store, so its stored row has a NULL store and the second
    load's delete, scoped to the stores of the batch, leaves it in place. *)
Lemma storeless_rows_survive_reload :
  let load := @uploadToDatabase decimalHost _ lenientDriver detailSchemas
                storelessBatch "snj.csv" in
  let first := load emptyDetail in
  let second := load (fst (fst first)) in
  snd first
  = Ok (mkOutcome true 2 0 (Some "2025-11-25", Some "2025-11-25") [VStr "A"]) /\
  snd second
  = Ok (mkOutcome true 2 0 (Some "2025-11-25", Some "2025-11-25") [VStr "A"]) /\
  rowCount (fst (fst first)) "SNJ_SRP_DETAIL" = 2 /\
  rowCount (fst (fst second)) "SNJ_SRP_DETAIL" = 3.
Proof. vm_compute. repeat split. Qed.

(** The date side of the condition matters as well: the window's ends are
    the least and the greatest date text, and texts dated month first are
    not ordered as their dates are.  The window of this batch runs from
    ["10/1/2025"] to ["2/1/2025"], no date lies between the first of October
    and the first of February of the same year, the second load deletes
    nothing and the table holds four rows. *)
Lemma misordered_dates_survive_reload :
  let load := @uploadToDatabase decimalHost _ slashDriver detailSchemas
                slashBatch "snj.csv" in
  let first := load emptyDetail in
  let second := load (fst (fst first)) in
  snd first
  = Ok (mkOutcome true 2 0 (Some "10/1/2025", Some "2/1/2025") [VStr "A"]) /\
  snd second
  = Ok (mkOutcome true 2 0 (Some "10/1/2025", Some "2/1/2025") [VStr "A"]) /\
  rowCount (fst (fst first)) "SNJ_SRP_DETAIL" = 2 /\
  rowCount (fst (fst second)) "SNJ_SRP_DETAIL" = 4.
Proof. vm_compute. repeat split. Qed.

(** So does the way the store is written: a store text in scientific
    notation is stored written out in full, the window keeps it as it came,
    and the second load's delete, looking for ["1e5"], finds none of the
    rows stored as ["100000"]. *)
Lemma rewritten_stores_survive_reload :
  let load := @uploadToDatabase decimalHost _ lenientDriver detailSchemas
                [sale "2025-11-25" "1e5" "10"; sale "2025-11-25" "1e5" "7"]
                "snj.csv" in
  let first := load emptyDetail in
  let second := load (fst (fst first)) in
  snd first
  = Ok (mkOutcome true 2 0 (Some "2025-11-25", Some "2025-11-25") [VStr "1e5"]) /\
  snd second
  = Ok (mkOutcome true 2 0 (Some "2025-11-25", Some "2025-11-25") [VStr "1e5"]) /\
  rowCount (fst (fst first)) "SNJ_SRP_DETAIL" = 2 /\
  rowCount (fst (fst second)) "SNJ_SRP_DETAIL" = 4.
Proof. vm_compute. repeat split. Qed.

End ReloadFacts.

(** ** White space and grouping separators in the coercions *)

Module TrimFacts.
Import Js Shapes StringFacts.

Lemma trimStart_clean (s : string) : starts_clean (trimStart s) = true.
Proof.
  induction s as [|c s IH]; simpl; auto.
  destruct (is_space c) eqn:E; auto. simpl. rewrite E. reflexivity.
Qed.

Lemma trimStart_of_clean (s : string) :
  starts_clean s = true -> trimStart s = s.
Proof.
  destruct s as [|c s]; simpl; auto.
  destruct (is_space c); [discriminate|reflexivity].
Qed.

Lemma trimStart_idem (s : string) : trimStart (trimStart s) = trimStart s.
Proof. apply trimStart_of_clean, trimStart_clean. Qed.

Lemma trimEnd_idem (s : string) : trimEnd (trimEnd s) = trimEnd s.
Proof.
  induction s as [|c s IH]; simpl; auto.
  destruct (trimEnd s) as [|d r] eqn:E.
  - destruct (is_space c) eqn:Ec; simpl; [|rewrite Ec]; reflexivity.
  - change (trimEnd (String c (String d r)) = String c (String d r)).
    cbn [trimEnd]. cbn [trimEnd] in IH. rewrite IH. reflexivity.
Qed.

Lemma trimEnd_clean (s : string) :
  starts_clean s = true -> starts_clean (trimEnd s) = true.
Proof.
  destruct s as [|c s]; simpl; auto.
  intros Hc. destruct (trimEnd s); [|exact Hc].
  destruct (is_space c) eqn:E; [reflexivity|]. simpl. rewrite E. reflexivity.
Qed.

Lemma trim_clean (s : string) : starts_clean (trim s) = true.
Proof. apply trimEnd_clean, trimStart_clean. Qed.

Lemma trim_idem (s : string) : trim (trim s) = trim s.
Proof.
  unfold trim at 1. rewrite (trimStart_of_clean _ (trim_clean s)).
  apply trimEnd_idem.
Qed.

Lemma trimStart_no_space (s : string) :
  every (fun c => negb (is_space c)) s = true -> trimStart s = s.
Proof.
  intros E. apply trimStart_of_clean. destruct s as [|c s]; simpl in *; auto.
  apply andb_true_iff in E as [E _]. exact E.
Qed.

Lemma trimEnd_no_space (s : string) :
  every (fun c => negb (is_space c)) s = true -> trimEnd s = s.
Proof.
  induction s as [|c s IH]; simpl; auto.
  intros E. apply andb_true_iff in E as [E1 E2]. rewrite (IH E2).
  destruct s; [|reflexivity].
  destruct (is_space c); [discriminate|reflexivity].
Qed.

Lemma trim_no_space (s : string) :
  every (fun c => negb (is_space c)) s = true -> trim s = s.
Proof.
  intros E. unfold trim. rewrite (trimStart_no_space _ E).
  apply trimEnd_no_space, E.
Qed.

Lemma parseFloat_trimStart (s : string) : parseFloat (trimStart s) = parseFloat s.
Proof. unfold parseFloat. rewrite trimStart_idem. reflexivity. Qed.

Lemma every_removeAll (p cls : ascii -> bool) (s : string) :
  every p s = true -> every p (removeAll cls s) = true.
Proof.
  induction s as [|c s IH]; simpl; auto.
  intros E. apply andb_true_iff in E as [E1 E2].
  destruct (cls c); simpl; [|rewrite E1]; auto.
Qed.

Lemma every_removeAll_cls (cls : ascii -> bool) (s : string) :
  every (fun c => negb (cls c)) (removeAll cls s) = true.
Proof.
  induction s as [|c s IH]; simpl; auto.
  destruct (cls c) eqn:E; simpl; [|rewrite E]; auto.
Qed.

Lemma removeAll_app (cls : ascii -> bool) (a b : string) :
  removeAll cls (a ++ b) = removeAll cls a ++ removeAll cls b.
Proof.
  induction a as [|c a IH]; simpl; auto.
  destruct (cls c); simpl; rewrite IH; reflexivity.
Qed.

Lemma trimStart_removeAll (cls : ascii -> bool) (s : string) :
  (forall c, is_space c = true -> cls c = false) ->
  trimStart (removeAll cls (trimStart s)) = trimStart (removeAll cls s).
Proof.
  intros Hcls. induction s as [|c s IH]; simpl; auto.
  destruct (is_space c) eqn:E; [|reflexivity].
  rewrite (Hcls _ E). simpl. rewrite E. exact IH.
Qed.

Lemma lastIndexOf_from_app (c : ascii) (a b : string) (i found : Z) :
  lastIndexOf_from c (a ++ b) i found
  = lastIndexOf_from c b (i + Z.of_nat (String.length a))
      (lastIndexOf_from c a i found).
Proof.
  revert i found. induction a as [|x a IH]; intros i found.
  - simpl. f_equal. lia.
  - change (lastIndexOf_from c (a ++ b) (i + 1)
              (if Ascii.eqb x c then i else found)
            = lastIndexOf_from c b (i + Z.of_nat (S (String.length a)))
                (lastIndexOf_from c a (i + 1)
                   (if Ascii.eqb x c then i else found))).
    rewrite IH. f_equal. lia.
Qed.

Lemma lastIndexOf_from_bound (c : ascii) (s : string) (i found : Z) :
  (found < i)%Z ->
  (lastIndexOf_from c s i found < i + Z.of_nat (String.length s))%Z.
Proof.
  revert i found. induction s as [|x s IH]; intros i found Hf.
  - simpl. lia.
  - change (lastIndexOf_from c s (i + 1) (if Ascii.eqb x c then i else found)
            < i + Z.of_nat (S (String.length s)))%Z.
    specialize (IH (i + 1)%Z (if Ascii.eqb x c then i else found)).
    destruct (Ascii.eqb x c); lia.
Qed.

(** A separator of the other kind after the last [c] does not move it. *)
Lemma lastIndexOf_before (c d : ascii) (a b : string) :
  Ascii.eqb d c = false ->
  every (fun x => negb (Ascii.eqb x c)) b = true ->
  (lastIndexOf c (a ++ String d b) < Z.of_nat (String.length a))%Z.
Proof.
  intros Hd Hb. unfold lastIndexOf. rewrite lastIndexOf_from_app.
  rewrite lastIndexOf_from_absent by (simpl; rewrite Hd, Hb; reflexivity).
  pose proof (lastIndexOf_from_bound c a 0 (-1)). lia.
Qed.

End TrimFacts.

Module NumericFacts.
Import Js TableManager Shapes StringFacts CoercionFacts TrimFacts.

Lemma normalizeSeparators_plain (s : string) :
  plain s = true -> normalizeSeparators s = s.
Proof.
  intros Hs. unfold normalizeSeparators, lastIndexOf.
  rewrite !lastIndexOf_from_absent
    by (apply plain_no_dot || apply plain_no_comma; assumption).
  simpl. apply removeAll_none, Hs.
Qed.

(** Before a final dot, commas are dropped. *)
Lemma normalizeSeparators_grouped_dot (a b : string) :
  lacks "." a = true -> plain b = true ->
  normalizeSeparators (a ++ String "." b)
  = removeAll (is_char ",") a ++ String "." b.
Proof.
  intros Ha Hb. unfold normalizeSeparators.
  rewrite (lastIndexOf_mark "." a b) by (apply plain_no_dot; assumption).
  pose proof (lastIndexOf_before "," "." a b eq_refl (plain_no_comma _ Hb)) as L.
  destruct (Z.ltb_spec (lastIndexOf "," (a ++ String "." b))
                       (Z.of_nat (String.length a))) as [_|L']; [|lia].
  rewrite removeAll_app. simpl.
  rewrite (removeAll_none (is_char ",") b) by (apply plain_no_comma; assumption).
  reflexivity.
Qed.

(** Before a final comma, dots are dropped and the comma becomes the dot. *)
Lemma normalizeSeparators_grouped_comma (a b : string) :
  lacks "," a = true -> plain b = true ->
  normalizeSeparators (a ++ String "," b)
  = removeAll (is_char ".") a ++ String "." b.
Proof.
  intros Ha Hb. unfold normalizeSeparators.
  rewrite (lastIndexOf_mark "," a b) by (apply plain_no_comma; assumption).
  pose proof (lastIndexOf_before "." "," a b eq_refl (plain_no_dot _ Hb)) as L.
  destruct (Z.ltb_spec (Z.of_nat (String.length a))
                       (lastIndexOf "." (a ++ String "," b))) as [L'|_]; [lia|].
  destruct (Z.ltb_spec (lastIndexOf "." (a ++ String "," b))
                       (Z.of_nat (String.length a))) as [_|L']; [|lia].
  rewrite removeAll_app. simpl.
  rewrite (removeAll_none (is_char ".") b) by (apply plain_no_dot; assumption).
  apply replaceFirst_mark. apply every_removeAll, Ha.
Qed.

Lemma plain_removeAll_comma (a : string) :
  lacks "." a = true -> plain (removeAll (is_char ",") a) = true.
Proof.
  intros Ha. unfold plain.
  pose proof (every_removeAll _ (is_char ",") a Ha) as H1.
  pose proof (every_removeAll_cls (is_char ",") a) as H2.
  revert H1 H2. generalize (removeAll (is_char ",") a) as r.
  induction r as [|c r IH]; simpl; auto.
  intros E1 E2. apply andb_true_iff in E1 as [E1 E1'].
  apply andb_true_iff in E2 as [E2 E2']. rewrite IH by assumption.
  unfold is_separator, is_char in *.
  destruct (Ascii.eqb c ","), (Ascii.eqb c "."); simpl in *; congruence.
Qed.

Lemma plain_removeAll_dot (a : string) :
  lacks "," a = true -> plain (removeAll (is_char ".") a) = true.
Proof.
  intros Ha. unfold plain.
  pose proof (every_removeAll _ (is_char ".") a Ha) as H1.
  pose proof (every_removeAll_cls (is_char ".") a) as H2.
  revert H1 H2. generalize (removeAll (is_char ".") a) as r.
  induction r as [|c r IH]; simpl; auto.
  intros E1 E2. apply andb_true_iff in E1 as [E1 E1'].
  apply andb_true_iff in E2 as [E2 E2']. rewrite IH by assumption.
  unfold is_separator, is_char in *.
  destruct (Ascii.eqb c ","), (Ascii.eqb c "."); simpl in *; congruence.
Qed.

(** What [parseNumeric] hands to [parseFloat] for a text with a mark in it. *)
Lemma parseNumeric_text `{NumberOps} (s : string) :
  s <> EmptyString ->
  parseNumeric (VStr s)
  = (let n := parseFloat (normalizeSeparators (trim s)) in
     if isNaN n then None else Some n).
Proof.
  intros Hs. unfold parseNumeric, is_blank, toString.
  destruct (String.eqb_spec s EmptyString); [contradiction|reflexivity].
Qed.

Lemma parseFloat_front (u v w : string) :
  trimStart u = trimStart v ->
  parseFloat (u ++ String "." w) = parseFloat (v ++ String "." w).
Proof.
  intros E. unfold parseFloat.
  rewrite !trimStart_app_mark by reflexivity. rewrite E. reflexivity.
Qed.

(** X1. Grouping separators do not change the number read: before a final dot
    every comma is dropped, before a final comma every dot is dropped and the
    comma is read as the decimal point; white space around the text and
    inside the grouping is of no account. *)
Theorem parseNumeric_drops_grouping `{NumberOps} (a b : string) :
  plain b = true ->
  (lacks "." a = true ->
   parseNumeric (VStr (a ++ "." ++ b))
   = parseNumeric (VStr (removeAll (is_char ",") a ++ "." ++ b))) /\
  (lacks "," a = true ->
   parseNumeric (VStr (a ++ "," ++ b))
   = parseNumeric (VStr (removeAll (is_char ".") a ++ "." ++ b))).
Proof.
  intros Hb.
  assert (Hsp : forall x, is_space x = true -> is_char "," x = false).
  { intros x. destruct x as [[] [] [] [] [] [] [] []]; cbv; congruence. }
  assert (Hsp' : forall x, is_space x = true -> is_char "." x = false).
  { intros x. destruct x as [[] [] [] [] [] [] [] []]; cbv; congruence. }
  split; intros Ha.
  - change (a ++ "." ++ b) with (a ++ String "." b).
    change (removeAll (is_char ",") a ++ "." ++ b)
      with (removeAll (is_char ",") a ++ String "." b).
    rewrite !parseNumeric_text by (destruct a; discriminate || (destruct (removeAll _ _); discriminate)).
    rewrite !trim_app_mark by reflexivity.
    rewrite normalizeSeparators_grouped_dot
      by (try apply every_trimStart; try apply plain_trimEnd; assumption).
    rewrite normalizeSeparators_dot
      by (try apply plain_trimStart; try apply plain_removeAll_comma;
          try apply plain_trimEnd; assumption).
    cbv zeta.
    rewrite (parseFloat_front (removeAll (is_char ",") (trimStart a))
               (trimStart (removeAll (is_char ",") a))); [reflexivity|].
    rewrite trimStart_idem. apply trimStart_removeAll, Hsp.
  - change (a ++ "," ++ b) with (a ++ String "," b).
    change (removeAll (is_char ".") a ++ "." ++ b)
      with (removeAll (is_char ".") a ++ String "." b).
    rewrite !parseNumeric_text by (destruct a; discriminate || (destruct (removeAll _ _); discriminate)).
    rewrite !trim_app_mark by reflexivity.
    rewrite normalizeSeparators_grouped_comma
      by (try apply every_trimStart; try apply plain_trimEnd; assumption).
    rewrite normalizeSeparators_dot
      by (try apply plain_trimStart; try apply plain_removeAll_dot;
          try apply plain_trimEnd; assumption).
    cbv zeta.
    rewrite (parseFloat_front (removeAll (is_char ".") (trimStart a))
               (trimStart (removeAll (is_char ".") a))); [reflexivity|].
    rewrite trimStart_idem. apply trimStart_removeAll, Hsp'.
Qed.

Lemma parseNumeric_drops_grouping_witness :
  plain "89" = true /\ lacks "." "1,234,567" = true /\
  lacks "," "1.234.567" = true /\
  @parseNumeric decimalHost (VStr "1,234,567.89")
  = @parseNumeric decimalHost (VStr "1234567.89") /\
  @parseNumeric decimalHost (VStr "1.234.567,89")
  = @parseNumeric decimalHost (VStr "1234567.89").
Proof.
  pose proof (@parseNumeric_drops_grouping decimalHost "1,234,567" "89" eq_refl)
    as [H1 _].
  pose proof (@parseNumeric_drops_grouping decimalHost "1.234.567" "89" eq_refl)
    as [_ H2].
  split; [reflexivity|]. split; [reflexivity|]. split; [reflexivity|].
  split; [exact (H1 eq_refl)|exact (H2 eq_refl)].
Defined.

End NumericFacts.

(** ** The pattern matcher *)

Module RegexFacts.
Import Js Shapes StringFacts.

Lemma take_drop (k : nat) (s : string) : take k s ++ drop k s = s.
Proof.
  revert s. induction k as [|k IH]; intros [|c s]; simpl; auto.
  rewrite IH. reflexivity.
Qed.

Lemma text_app_assoc (a b c : string) : (a ++ b) ++ c = a ++ (b ++ c).
Proof. induction a as [|x a IH]; simpl; [|rewrite IH]; reflexivity. Qed.

Lemma text_app_empty (a : string) : a ++ EmptyString = a.
Proof. induction a as [|x a IH]; simpl; [|rewrite IH]; reflexivity. Qed.

(** Any prefix of the greedy run is in the class and within the bound. *)
Lemma run_length_take (p : ascii -> bool) (limit : option nat) (s : string)
    (k : nat) :
  k <= run_length p limit s ->
  every p (take k s) = true /\ String.length (take k s) = k /\
  match limit with Some m => k <= m | None => True end.
Proof.
  revert limit k. induction s as [|c s IH]; intros limit k Hk.
  - assert (k = 0) as -> by (destruct limit as [[|m]|]; simpl in Hk; lia).
    simpl. destruct limit; repeat split; lia.
  - destruct k as [|k].
    + simpl. destruct limit; repeat split; lia.
    + destruct limit as [[|m]|]; simpl in Hk; try lia.
      * destruct (p c) eqn:Ec; [|lia].
        destruct (IH (Some m) k ltac:(simpl; lia)) as (E1 & E2 & E3).
        simpl. rewrite Ec, E1, E2. repeat split; lia.
      * destruct (p c) eqn:Ec; [|lia].
        destruct (IH None k ltac:(simpl; lia)) as (E1 & E2 & _).
        simpl. rewrite Ec, E1, E2. repeat split; lia.
Qed.

Lemma backtrack_sound (k lo : nat) (s : string)
    (rest : string -> option (list string * string))
    (gs : list string) (r : string) :
  lo <= k ->
  backtrack k lo s rest = Some (gs, r) ->
  exists j gs', lo <= j /\ j <= k /\ gs = take j s :: gs' /\
                rest (drop j s) = Some (gs', r).
Proof.
  induction k as [|k IH]; intros Hlo; cbn [backtrack].
  - destruct (rest (drop 0 s)) as [[gs' r']|] eqn:E; [|discriminate].
    intros [= <- <-]. exists 0, gs'. repeat split; auto.
  - destruct (rest (drop (S k) s)) as [[gs' r']|] eqn:E.
    + intros [= <- <-]. exists (S k), gs'. repeat split; auto.
    + destruct (Nat.leb_spec lo k) as [L|L]; [|discriminate].
      intros Hb. destruct (IH L Hb) as (j & gs' & H1 & H2 & H3 & H4).
      exists j, gs'. repeat split; auto.
Qed.

(** A match splits the input into one fitting text per atom and the rest. *)
Lemma match_here_sound (p : Pattern) (to_end : bool) (s : string)
    (gs : list string) (r : string) :
  match_here p to_end s = Some (gs, r) ->
  Forall2 (fun a g => fits a g = true) p gs /\ s = joined gs ++ r /\
  (to_end = true -> r = EmptyString).
Proof.
  revert s gs r. induction p as [|a p IH]; intros s gs r; simpl.
  - destruct to_end.
    + destruct s; [|discriminate]. intros [= <- <-]. repeat split; auto.
    + intros [= <- <-]. repeat split; auto. discriminate.
  - destruct (Nat.ltb_spec (run_length (cls a) (rmax a) s) (rmin a)) as [L|L];
      [discriminate|].
    intros Hb. apply backtrack_sound in Hb as (j & gs' & H1 & H2 & -> & H4);
      [|assumption].
    destruct (IH _ _ _ H4) as (F & E & Hend).
    destruct (run_length_take (cls a) (rmax a) s j H2) as (E1 & E2 & E3).
    repeat split; auto.
    + constructor; [|assumption]. unfold fits. rewrite E1, E2.
      destruct (Nat.leb_spec (rmin a) j); [|lia]. simpl.
      destruct (rmax a); [apply Nat.leb_le; assumption|reflexivity].
    + simpl. rewrite text_app_assoc, <- E. symmetry. apply take_drop.
Qed.

Lemma search_sound (p : Pattern) (s : string) (gs : list string) :
  search p s = Some gs ->
  Forall2 (fun a g => fits a g = true) p gs /\
  exists pre post, s = pre ++ joined gs ++ post.
Proof.
  induction s as [|c s IH]; simpl.
  - destruct (match_here p false EmptyString) as [[gs' r]|] eqn:E;
      [|discriminate].
    intros [= <-]. apply match_here_sound in E as (F & E & _).
    split; [assumption|]. exists EmptyString, r. exact E.
  - destruct (match_here p false (String c s)) as [[gs' r]|] eqn:E.
    + intros [= <-]. apply match_here_sound in E as (F & E & _).
      split; [assumption|]. exists EmptyString, r. exact E.
    + intros Hs. destruct (IH Hs) as (F & pre & post & ->).
      split; [assumption|]. exists (String c pre), post. reflexivity.
Qed.

Lemma fits_class (a : Atom) (g : string) :
  fits a g = true -> every (cls a) g = true.
Proof.
  unfold fits. intros E. apply andb_true_iff in E as [E _].
  apply andb_true_iff in E as [E _]. exact E.
Qed.

Lemma fits_exactly (c : ascii -> bool) (n : nat) (g : string) :
  fits (times n n c) g = true -> String.length g = n.
Proof.
  unfold fits. simpl. intros E.
  apply andb_true_iff in E as [E E2]. apply andb_true_iff in E as [_ E1].
  apply Nat.leb_le in E1, E2. lia.
Qed.

End RegexFacts.

(** ** Dates *)

Module DateFacts.
Import Js TableManager Shapes StringFacts TrimFacts RegexFacts.

Lemma digits_inv (n : nat) (s : string) :
  digits n s = true -> every is_digit s = true /\ String.length s = n.
Proof.
  unfold digits. intros E. apply andb_true_iff in E as [E1 E2].
  apply Nat.eqb_eq in E2. auto.
Qed.

Lemma digits_intro (n : nat) (s : string) :
  every is_digit s = true -> String.length s = n -> digits n s = true.
Proof.
  unfold digits. intros -> <-. rewrite Nat.eqb_refl. reflexivity.
Qed.

Lemma monthMap_values (k m : string) :
  get k monthMap = Some m ->
  In m ["01"; "02"; "03"; "04"; "05"; "06"; "07"; "08"; "09"; "10"; "11"; "12"].
Proof.
  unfold monthMap. cbn [get].
  repeat match goal with
         | |- context [String.eqb k ?x] => destruct (String.eqb k x)
         end;
    try discriminate; intros [= <-]; simpl; tauto.
Qed.

Lemma month_digits (m : string) :
  In m ["01"; "02"; "03"; "04"; "05"; "06"; "07"; "08"; "09"; "10"; "11"; "12"] ->
  digits 2 m = true.
Proof.
  simpl. intros Hin.
  repeat (destruct Hin as [<-|Hin]; [reflexivity|]). contradiction.
Qed.

(** A match of the day-month-year pattern has five texts, one per atom. *)
Lemma dayMonthYear_groups (s : string) (gs : list string) :
  search dayMonthYear s = Some gs ->
  exists d s1 m s2 y pre post,
    gs = [d; s1; m; s2; y] /\
    s = pre ++ (d ++ s1 ++ m ++ s2 ++ y) ++ post /\
    fits (times 1 2 is_digit) d = true /\ fits (plus is_alpha) m = true /\
    fits (times 4 4 is_digit) y = true.
Proof.
  intros Hs. apply search_sound in Hs as (F & pre & post & E).
  unfold dayMonthYear in F.
  inversion F as [|a1 d p1 l1 Fd F1]; subst.
  inversion F1 as [|a2 s1 p2 l2 Fs1 F2]; subst.
  inversion F2 as [|a3 m p3 l3 Fm F3]; subst.
  inversion F3 as [|a4 s2 p4 l4 Fs2 F4]; subst.
  inversion F4 as [|a5 y p5 l5 Fy F5]; subst.
  inversion F5; subst.
  exists d, s1, m, s2, y, pre, post. repeat split; auto.
  simpl. rewrite text_app_empty. reflexivity.
Qed.

(** The pattern asks for a letter. *)
Lemma no_letter_no_match (s : string) :
  every (fun c => negb (is_alpha c)) s = true -> search dayMonthYear s = None.
Proof.
  intros Hs. destruct (search dayMonthYear s) as [gs|] eqn:E; [|reflexivity].
  apply dayMonthYear_groups in E
    as (d & s1 & m & s2 & y & pre & post & _ & -> & _ & Fm & _).
  rewrite !every_app in Hs.
  apply andb_true_iff in Hs as [_ Hs]. apply andb_true_iff in Hs as [Hs _].
  apply andb_true_iff in Hs as [_ Hs]. apply andb_true_iff in Hs as [_ Hs].
  apply andb_true_iff in Hs as [Hs _].
  unfold fits in Fm. simpl in Fm.
  apply andb_true_iff in Fm as [Fm _]. apply andb_true_iff in Fm as [Fm1 Fm2].
  destruct m as [|c m]; [discriminate|].
  simpl in Fm1, Hs. destruct (is_alpha c); discriminate.
Qed.

Lemma padStart_day (d : string) :
  fits (times 1 2 is_digit) d = true -> digits 2 (padStart 2 "0" d) = true.
Proof.
  unfold fits. simpl. intros E.
  apply andb_true_iff in E as [E E2]. apply andb_true_iff in E as [E0 E1].
  destruct d as [|c1 [|c2 [|c3 d]]]; try discriminate;
    unfold digits, padStart; simpl in *; rewrite E0; reflexivity.
Qed.

(** What [parseDate] does on a text that is not blank: hand the trimmed text
    back, or rewrite a match whose month it knows. *)
Lemma parseDate_cases `{NumberOps} (v : Value) :
  is_blank v = false ->
  parseDate v = Some (trim (toString v)) \/
  exists d m y month,
    fits (times 1 2 is_digit) d = true /\ fits (times 4 4 is_digit) y = true /\
    get (take 3 (toLowerCase m)) monthMap = Some month /\
    parseDate v = Some (y ++ "-" ++ month ++ "-" ++ padStart 2 "0" d).
Proof.
  intros Hb. unfold parseDate. rewrite Hb.
  destruct (search dayMonthYear (trim (toString v))) as [gs|] eqn:E; [|auto].
  apply dayMonthYear_groups in E
    as (d & s1 & m & s2 & y & pre & post & -> & _ & Fd & _ & Fy).
  destruct (get (take 3 (toLowerCase m)) monthMap) as [month|] eqn:Em; [|auto].
  right. exists d, m, y, month. auto.
Qed.

Lemma iso_chars (y m d : string) (p : ascii -> bool) :
  (forall c, is_digit c = true -> p c = true) -> p "-"%char = true ->
  every is_digit y = true -> every is_digit m = true ->
  every is_digit d = true ->
  every p (y ++ "-" ++ m ++ "-" ++ d) = true.
Proof.
  intros Hp Hdash Hy Hm Hd.
  change (y ++ "-" ++ m ++ "-" ++ d) with (y ++ String "-" (m ++ String "-" d)).
  rewrite every_app. simpl. rewrite every_app. simpl.
  rewrite Hdash, !(every_impl is_digit p) by assumption. reflexivity.
Qed.

Lemma digit_no_letter (c : ascii) :
  is_digit c = true -> negb (is_alpha c) = true.
Proof. destruct c as [[] [] [] [] [] [] [] []]; cbv; congruence. Qed.

Lemma digit_no_space (c : ascii) :
  is_digit c = true -> negb (is_space c) = true.
Proof. destruct c as [[] [] [] [] [] [] [] []]; cbv; congruence. Qed.

Lemma digit_no_dash (c : ascii) :
  is_digit c = true -> Ascii.eqb c "-" = false.
Proof. destruct c as [[] [] [] [] [] [] [] []]; cbv; congruence. Qed.

(** X2. Both coercions look at the trimmed text only.  A text of white space
    alone is [null] for [parseNumeric], but the empty string, not [null],
    for [parseDate]. *)
Theorem coercions_ignore_outer_space `{NumberOps} (s : string) :
  s <> EmptyString ->
  (trim s <> EmptyString ->
   parseNumeric (VStr s) = parseNumeric (VStr (trim s)) /\
   parseDate (VStr s) = parseDate (VStr (trim s))) /\
  (trim s = EmptyString ->
   parseNumeric (VStr s) = None /\ parseDate (VStr s) = Some EmptyString).
Proof.
  intros Hs. split.
  - intros Ht. unfold parseNumeric, parseDate, is_blank, toString.
    destruct (String.eqb_spec s EmptyString); [contradiction|].
    destruct (String.eqb_spec (trim s) EmptyString); [contradiction|].
    rewrite trim_idem. split; reflexivity.
  - intros Ht. unfold parseNumeric, parseDate, is_blank, toString.
    destruct (String.eqb_spec s EmptyString); [contradiction|].
    rewrite Ht. split; reflexivity.
Qed.

Lemma coercions_ignore_outer_space_witness :
  (@parseNumeric decimalHost (VStr "  1.250,5 ")
   = @parseNumeric decimalHost (VStr "1.250,5") /\
   @parseDate decimalHost (VStr "  5 Mei 2024 ")
   = @parseDate decimalHost (VStr "5 Mei 2024")) /\
  (@parseNumeric decimalHost (VStr "   ") = None /\
   @parseDate decimalHost (VStr "   ") = Some EmptyString).
Proof.
  split.
  - split.
    + exact (proj1 (proj1 (@coercions_ignore_outer_space decimalHost
               "  1.250,5 " ltac:(discriminate)) ltac:(discriminate))).
    + exact (proj2 (proj1 (@coercions_ignore_outer_space decimalHost
               "  5 Mei 2024 " ltac:(discriminate)) ltac:(discriminate))).
  - exact (proj2 (@coercions_ignore_outer_space decimalHost "   "
             ltac:(discriminate)) eq_refl).
Defined.

(** X3. [parseDate] returns [null] for a blank input only.  Any other result is
    the trimmed text, or a date written as four digits, a month number from
    01 to 12 and two digits, with dashes between; the day is only padded,
    never checked. *)
Theorem parseDate_result_shape `{NumberOps} (v : Value) :
  match parseDate v with
  | None => is_blank v = true
  | Some r =>
      is_blank v = false /\
      (r = trim (toString v) \/
       exists y m d,
         r = y ++ "-" ++ m ++ "-" ++ d /\ digits 4 y = true /\
         In m ["01"; "02"; "03"; "04"; "05"; "06";
               "07"; "08"; "09"; "10"; "11"; "12"] /\
         digits 2 d = true)
  end.
Proof.
  destruct (is_blank v) eqn:Hb.
  - unfold parseDate. rewrite Hb. reflexivity.
  - destruct (parseDate_cases v Hb) as [E|(d & m & y & month & Fd & Fy & Em & E)];
      rewrite E; (split; [reflexivity|]); [left; reflexivity|].
    right. exists y, month, (padStart 2 "0" d). repeat split.
    + apply digits_intro; [apply (fits_class _ _ Fy)|apply (fits_exactly _ _ _ Fy)].
    + apply (monthMap_values _ _ Em).
    + apply padStart_day, Fd.
Qed.

(** X4. A date [parseDate] has produced is left as it is when it is parsed
    again, unless it is the empty string, which then reads as [null]. *)
Theorem parseDate_stable `{NumberOps} (v : Value) (r : string) :
  parseDate v = Some r -> r <> EmptyString -> parseDate (VStr r) = Some r.
Proof.
  intros Hp Hr.
  assert (Hb : is_blank v = false).
  { unfold parseDate in Hp. destruct (is_blank v); [discriminate|reflexivity]. }
  assert (Hb' : is_blank (VStr r) = false).
  { simpl. destruct (String.eqb_spec r EmptyString); [contradiction|reflexivity]. }
  destruct (parseDate_cases v Hb) as [E|(d & m & y & month & Fd & Fy & Em & E)];
    rewrite E in Hp; injection Hp as <-.
  - (* the trimmed text: the same search, on the same text *)
    unfold parseDate in E |- *. rewrite Hb in E. rewrite Hb'.
    cbn [toString]. rewrite trim_idem.
    destruct (search dayMonthYear (trim (toString v))) as [[|d [|s1 [|m [|s2 [|y [|]]]]]]|];
      try reflexivity.
    destruct (get (take 3 (toLowerCase m)) monthMap); [|reflexivity].
    exact E.
  - (* a rewritten date holds no letter *)
    pose proof (fits_class _ _ Fy) as Hy. cbn [cls times] in Hy.
    pose proof (digits_inv _ _ (month_digits _ (monthMap_values _ _ Em))) as [Hm _].
    pose proof (digits_inv _ _ (padStart_day _ Fd)) as [Hd _].
    unfold parseDate. rewrite Hb'. cbn [toString].
    rewrite trim_no_space
      by (apply iso_chars; auto using digit_no_space).
    rewrite no_letter_no_match
      by (apply iso_chars; auto using digit_no_letter).
    reflexivity.
Qed.

Lemma parseDate_stable_witness :
  @parseDate decimalHost (VStr " 5 Agustus 2024 ") = Some "2024-08-05" /\
  @parseDate decimalHost (VStr "2024-08-05") = Some "2024-08-05".
Proof.
  split; [reflexivity|].
  exact (@parseDate_stable decimalHost (VStr " 5 Agustus 2024 ") "2024-08-05"
           eq_refl ltac:(discriminate)).
Defined.

Lemma digits2_inv (s : string) :
  digits 2 s = true ->
  exists a b, s = String a (String b EmptyString) /\
              is_digit a = true /\ is_digit b = true.
Proof.
  intros E. apply digits_inv in E as [E L].
  destruct s as [|a [|b [|c s]]]; try discriminate.
  simpl in E. apply andb_true_iff in E as [Ea E].
  apply andb_true_iff in E as [Eb _]. eauto.
Qed.

Lemma digits4_inv (s : string) :
  digits 4 s = true ->
  exists a b c d,
    s = String a (String b (String c (String d EmptyString))) /\
    is_digit a = true /\ is_digit b = true /\
    is_digit c = true /\ is_digit d = true.
Proof.
  intros E. apply digits_inv in E as [E L].
  destruct s as [|a [|b [|c [|d [|e s]]]]]; try discriminate.
  simpl in E. apply andb_true_iff in E as [Ea E].
  apply andb_true_iff in E as [Eb E]. apply andb_true_iff in E as [Ec E].
  apply andb_true_iff in E as [Ed _]. exists a, b, c, d. auto.
Qed.

Lemma fixDate_swaps (d m y : string) :
  digits 2 d = true -> digits 2 m = true -> digits 4 y = true ->
  Server.fixDate (d ++ "-" ++ m ++ "-" ++ y) = y ++ "-" ++ m ++ "-" ++ d.
Proof.
  intros Hd Hm Hy.
  apply digits2_inv in Hd as (d1 & d2 & -> & Hd1 & Hd2).
  apply digits2_inv in Hm as (m1 & m2 & -> & Hm1 & Hm2).
  apply digits4_inv in Hy as (y1 & y2 & y3 & y4 & -> & Hy1 & Hy2 & Hy3 & Hy4).
  unfold Server.fixDate, match_whole, Server.strictDMY, times, one.
  cbn. rewrite ?Hd1, ?Hd2. cbn. rewrite ?Hm1, ?Hm2. cbn.
  rewrite ?Hy1, ?Hy2, ?Hy3, ?Hy4. cbn.
  rewrite !digit_no_dash by assumption. reflexivity.
Qed.

(** A date that starts with four digits is not of the form the server
    rewrites. *)
Lemma year_first_not_rewritten (y rest : string) :
  digits 4 y = true -> match_whole Server.strictDMY (y ++ rest) = None.
Proof.
  intros Hy.
  apply digits4_inv in Hy as (y1 & y2 & y3 & y4 & -> & Hy1 & Hy2 & Hy3 & Hy4).
  unfold match_whole, Server.strictDMY, times, one.
  cbn. rewrite Hy1, Hy2. cbn. unfold is_char.
  rewrite (digit_no_dash _ Hy3). reflexivity.
Qed.

(** What the strict pattern accepts. *)
Lemma strictDMY_shape (s : string) (gs : list string) :
  match_whole Server.strictDMY s = Some gs ->
  exists d m y,
    s = d ++ "-" ++ m ++ "-" ++ y /\
    digits 2 d = true /\ digits 2 m = true /\ digits 4 y = true.
Proof.
  unfold match_whole. destruct (match_here _ _ _) as [[gs' r]|] eqn:E;
    [|discriminate].
  intros _. apply match_here_sound in E as (F & -> & Hr).
  rewrite (Hr eq_refl), text_app_empty. unfold Server.strictDMY in F.
  inversion F as [|a1 d p1 l1 Fd F1]; subst.
  inversion F1 as [|a2 h1 p2 l2 Fh1 F2]; subst.
  inversion F2 as [|a3 m p3 l3 Fm F3]; subst.
  inversion F3 as [|a4 h2 p4 l4 Fh2 F4]; subst.
  inversion F4 as [|a5 y p5 l5 Fy F5]; subst.
  inversion F5; subst.
  assert (Hdash : forall h, fits (one (is_char "-")) h = true -> h = "-").
  { intros h Fh. pose proof (fits_class _ _ Fh) as Hc.
    pose proof (fits_exactly _ 1 _ Fh) as Hl.
    destruct h as [|c [|c' h]]; try discriminate.
    simpl in Hc. unfold is_char in Hc.
    destruct (Ascii.eqb_spec c "-"); [subst; reflexivity|discriminate]. }
  rewrite (Hdash _ Fh1), (Hdash _ Fh2).
  exists d, m, y. split; [simpl; rewrite text_app_empty; reflexivity|].
  repeat split; apply digits_intro;
    first [ exact (fits_class _ _ Fd) | exact (fits_exactly _ _ _ Fd)
          | exact (fits_class _ _ Fm) | exact (fits_exactly _ _ _ Fm)
          | exact (fits_class _ _ Fy) | exact (fits_exactly _ _ _ Fy) ].
Qed.

(** X5. The date fix of the server's window scan swaps day and year of a text
    that is exactly two digits, a dash, two digits, a dash and four digits,
    leaves every other text alone, and leaves its own results alone. *)
Theorem fixDate_swaps_day_and_year :
  (forall d m y : string,
     digits 2 d = true -> digits 2 m = true -> digits 4 y = true ->
     Server.fixDate (d ++ "-" ++ m ++ "-" ++ y) = y ++ "-" ++ m ++ "-" ++ d) /\
  (forall s : string,
     Server.fixDate s <> s ->
     exists d m y,
       s = d ++ "-" ++ m ++ "-" ++ y /\
       digits 2 d = true /\ digits 2 m = true /\ digits 4 y = true) /\
  (forall s : string, Server.fixDate (Server.fixDate s) = Server.fixDate s).
Proof.
  split; [exact fixDate_swaps|]. split.
  - intros s Hne.
    destruct (match_whole Server.strictDMY s) as [gs|] eqn:E.
    + exact (strictDMY_shape _ _ E).
    + exfalso. apply Hne. unfold Server.fixDate. rewrite E. reflexivity.
  - intros s.
    destruct (match_whole Server.strictDMY s) as [gs|] eqn:E.
    + destruct (strictDMY_shape _ _ E) as (d & m & y & -> & Hd & Hm & Hy).
      rewrite (fixDate_swaps _ _ _ Hd Hm Hy).
      unfold Server.fixDate at 1.
      rewrite (year_first_not_rewritten y _ Hy). reflexivity.
    + assert (Es : Server.fixDate s = s)
        by (unfold Server.fixDate; rewrite E; reflexivity).
      rewrite !Es. reflexivity.
Qed.

Lemma fixDate_swaps_witness :
  Server.fixDate "07-03-2024" = "2024-03-07" /\
  (exists d m y : string,
     "07-03-2024" = d ++ "-" ++ m ++ "-" ++ y /\
     digits 2 d = true /\ digits 2 m = true /\ digits 4 y = true).
Proof.
  destruct fixDate_swaps_day_and_year as (H1 & H2 & _).
  split.
  - exact (H1 "07" "03" "2024" eq_refl eq_refl eq_refl).
  - apply H2. discriminate.
Defined.

End DateFacts.

(** ** The day-month-year pattern *)

Module DatePatternFacts.
Import Js TableManager Shapes StringFacts TrimFacts RegexFacts DateFacts.















End DatePatternFacts.

(** ** The decimal separator *)

Module SeparatorFacts.
Import Js TableManager Shapes StringFacts CoercionFacts TrimFacts NumericFacts.













End SeparatorFacts.

(** ** The delete window *)

Module WindowFacts.
Import Js Sql TableManager FileWatcher Shapes.

(** *** The order of [<] on strings *)

Lemma ascii_compare_refl (a : ascii) : Ascii.compare a a = Eq.
Proof. unfold Ascii.compare. apply N.compare_refl. Qed.

Lemma compare_refl (s : string) : String.compare s s = Eq.
Proof.
  induction s as [|c s IH]; simpl; auto. rewrite ascii_compare_refl. exact IH.
Qed.

Lemma ltb_irrefl (s : string) : String.ltb s s = false.
Proof. unfold String.ltb. rewrite compare_refl. reflexivity. Qed.

Lemma compare_lt_trans (a b c : string) :
  String.compare a b = Lt -> String.compare b c = Lt -> String.compare a c = Lt.
Proof.
  revert b c. induction a as [|x a IH]; intros [|y b] [|z c]; simpl;
    try discriminate; auto.
  unfold Ascii.compare.
  destruct (N.compare_spec (N_of_ascii x) (N_of_ascii y)) as [E1|L1|G1];
    try discriminate;
    destruct (N.compare_spec (N_of_ascii y) (N_of_ascii z)) as [E2|L2|G2];
    try discriminate; intros H1 H2.
  - rewrite E1, E2, N.compare_refl. eauto.
  - rewrite E1. apply N.compare_lt_iff in L2. rewrite L2. reflexivity.
  - rewrite <- E2. apply N.compare_lt_iff in L1. rewrite L1. reflexivity.
  - assert (L : (N_of_ascii x < N_of_ascii z)%N) by lia.
    apply N.compare_lt_iff in L. rewrite L. reflexivity.
Qed.

Lemma ltb_trans (a b c : string) :
  String.ltb a b = true -> String.ltb b c = true -> String.ltb a c = true.
Proof.
  unfold String.ltb. intros H1 H2.
  destruct (String.compare a b) eqn:E1; try discriminate.
  destruct (String.compare b c) eqn:E2; try discriminate.
  rewrite (compare_lt_trans _ _ _ E1 E2). reflexivity.
Qed.

(** If nothing seen is before [lo] and [p] is before [lo], nothing seen is
    before [p]. *)
Lemma ltb_lower (p lo d : string) :
  String.ltb p lo = true -> String.ltb d lo = false -> String.ltb d p = false.
Proof.
  intros H1 H2. destruct (String.ltb d p) eqn:E; [|reflexivity].
  rewrite (ltb_trans _ _ _ E H1) in H2. discriminate.
Qed.

Lemma ltb_raise (p hi d : string) :
  String.ltb hi p = true -> String.ltb hi d = false -> String.ltb p d = false.
Proof.
  intros H1 H2. destruct (String.ltb p d) eqn:E; [|reflexivity].
  rewrite (ltb_trans _ _ _ H1 E) in H2. discriminate.
Qed.

(** *** The scan for the earliest and the latest date *)

(** The two assignments of the scan, for one date. *)
Local Abbreviation scanStep :=
  (fun (acc : option string * option string) (d : string) =>
     (lowerTo d (fst acc), raiseTo d (snd acc))).

Lemma scan_step (lo hi p : string) (seen : list string) :
  lo <> EmptyString -> hi <> EmptyString ->
  bounds lo hi seen ->
  exists lo' hi',
    lowerTo p (Some lo) = Some lo' /\ raiseTo p (Some hi) = Some hi' /\
    (p <> EmptyString -> lo' <> EmptyString /\ hi' <> EmptyString) /\
    bounds lo' hi' (seen ++ [p]).
Proof.
  intros Hlo Hhi (Ilo & Ihi & B). unfold lowerTo, raiseTo, date_truthy.
  destruct (String.eqb_spec lo EmptyString) as [|_]; [contradiction|].
  destruct (String.eqb_spec hi EmptyString) as [|_]; [contradiction|].
  cbn [negb orb].
  destruct (String.ltb p lo) eqn:E1; destruct (String.ltb hi p) eqn:E2;
    eexists; eexists; (split; [reflexivity|]); (split; [reflexivity|]);
    (split; [auto|]); unfold bounds;
    (split; [apply in_or_app; simpl; auto|]);
    (split; [apply in_or_app; simpl; auto|]);
    intros d Hd; apply in_app_or in Hd as [Hd|[<-|[]]];
    try (destruct (B d Hd) as [B1 B2]);
    rewrite ?ltb_irrefl; split;
    eauto using ltb_lower, ltb_raise.
Qed.

Lemma scan_bounds (ds : list string) :
  Forall (fun d => d <> EmptyString) ds ->
  forall (lo hi : string) (seen : list string),
    lo <> EmptyString -> hi <> EmptyString -> bounds lo hi seen ->
    exists lo' hi',
      fold_left scanStep ds (Some lo, Some hi) = (Some lo', Some hi') /\
      bounds lo' hi' (seen ++ ds).
Proof.
  induction 1 as [|p ds Hp Hds IH]; intros lo hi seen Hlo Hhi B.
  - exists lo, hi. rewrite app_nil_r. auto.
  - destruct (scan_step lo hi p seen Hlo Hhi B)
      as (lo' & hi' & E1 & E2 & Hne & B').
    destruct (Hne Hp) as [Hlo' Hhi'].
    destruct (IH lo' hi' (seen ++ [p])%list Hlo' Hhi' B')
      as (lo2 & hi2 & E & B2).
    exists lo2, hi2. cbn [fold_left fst snd]. rewrite E1, E2.
    rewrite <- app_assoc in B2. auto.
Qed.

Lemma scan_from_nothing (ds : list string) :
  Forall (fun d => d <> EmptyString) ds ->
  match ds with
  | [] => fold_left scanStep ds (None, None) = (None, None)
  | _ =>
      exists lo hi,
        fold_left scanStep ds (None, None) = (Some lo, Some hi) /\
        bounds lo hi ds
  end.
Proof.
  destruct ds as [|p ds]; [reflexivity|].
  intros F. inversion F as [|? ? Hp Hds]; subst.
  cbn [fold_left fst snd lowerTo raiseTo].
  apply (scan_bounds ds Hds p p [p] Hp Hp).
  unfold bounds. simpl. repeat split; auto;
    destruct H as [<-|[]]; apply ltb_irrefl.
Qed.

Section Scans.
Context `{NumberOps}.
Variable tableName : string.

Lemma watcher_step_dates (w : Window) (row : Record_) :
  let w' := FileWatcher.windowStep tableName w row in
  (minDate w', maxDate w')
  = match watcherDate row with
    | Some p => (lowerTo p (minDate w), raiseTo p (maxDate w))
    | None => (minDate w, maxDate w)
    end.
Proof.
  unfold FileWatcher.windowStep, watcherDate. cbv zeta.
  destruct (truthy (dateValueOf row)); [|reflexivity].
  destruct (parseDate (dateValueOf row)) as [p|]; [|reflexivity].
  destruct (String.eqb p EmptyString); reflexivity.
Qed.

Lemma server_step_dates (w : Window) (row : Record_) :
  let w' := Server.windowStep tableName w row in
  (minDate w', maxDate w')
  = match serverDate row with
    | Some p => (lowerTo p (minDate w), raiseTo p (maxDate w))
    | None => (minDate w, maxDate w)
    end.
Proof.
  unfold Server.windowStep, serverDate. cbv zeta.
  destruct (truthy (dateValueOf row)); reflexivity.
Qed.

Lemma scan_of_steps (step : Window -> Record_ -> Window)
    (dateOf : Record_ -> option string) (rows : list Record_) (w : Window) :
  (forall w row,
     (minDate (step w row), maxDate (step w row))
     = match dateOf row with
       | Some p => (lowerTo p (minDate w), raiseTo p (maxDate w))
       | None => (minDate w, maxDate w)
       end) ->
  (minDate (fold_left step rows w), maxDate (fold_left step rows w))
  = fold_left scanStep (collect dateOf rows) (minDate w, maxDate w).
Proof.
  intros Hstep. revert w. induction rows as [|row rows IH]; intros w.
  - reflexivity.
  - cbn [fold_left]. rewrite IH, Hstep. unfold collect. cbn [flat_map].
    rewrite fold_left_app. destruct (dateOf row); reflexivity.
Qed.

Lemma window_of_scan (step : Window -> Record_ -> Window)
    (dateOf : Record_ -> option string) (rows : list Record_) :
  (forall w row,
     (minDate (step w row), maxDate (step w row))
     = match dateOf row with
       | Some p => (lowerTo p (minDate w), raiseTo p (maxDate w))
       | None => (minDate w, maxDate w)
       end) ->
  Forall (fun d => d <> EmptyString) (collect dateOf rows) ->
  let w := fold_left step rows noWindow in
  match collect dateOf rows with
  | [] => minDate w = None /\ maxDate w = None
  | ds =>
      exists lo hi, minDate w = Some lo /\ maxDate w = Some hi /\ bounds lo hi ds
  end.
Proof.
  intros Hstep F. cbv zeta.
  pose proof (scan_of_steps step dateOf rows noWindow Hstep) as E.
  pose proof (scan_from_nothing _ F) as S.
  cbn [minDate maxDate noWindow] in E.
  destruct (collect dateOf rows) as [|d ds].
  - rewrite S in E. injection E as -> ->. auto.
  - destruct S as (lo & hi & S & B). rewrite S in E. injection E as -> ->.
    exists lo, hi. auto.
Qed.

Lemma watcherDate_not_empty (rows : list Record_) :
  Forall (fun d => d <> EmptyString) (collect watcherDate rows).
Proof.
  unfold collect. induction rows as [|row rows IH]; simpl; [constructor|].
  apply Forall_app. split; [|exact IH].
  unfold watcherDate. cbv zeta.
  destruct (truthy (dateValueOf row)); [|constructor].
  destruct (parseDate (dateValueOf row)) as [p|]; [|constructor].
  destruct (String.eqb_spec p EmptyString); constructor; auto.
Qed.

(** X6. The window of [fileWatcher.js] is the earliest and the latest of the
    parsed dates of the batch, in the order of [<] on strings: both are
    dates of rows, no row's date is before the one or after the other, and
    both are [null] exactly when no row has a date. *)
Theorem watcher_window_bounds (rows : list Record_) :
  let w := FileWatcher.computeWindow tableName rows in
  match collect watcherDate rows with
  | [] => minDate w = None /\ maxDate w = None
  | ds =>
      exists lo hi, minDate w = Some lo /\ maxDate w = Some hi /\ bounds lo hi ds
  end.
Proof.
  apply (window_of_scan (FileWatcher.windowStep tableName) watcherDate rows).
  - intros w row. apply watcher_step_dates.
  - apply watcherDate_not_empty.
Qed.

Lemma fixDate_not_empty (s : string) :
  s <> EmptyString -> Server.fixDate s <> EmptyString.
Proof.
  intros Hs. destruct (match_whole Server.strictDMY s) as [gs|] eqn:E.
  - destruct (DateFacts.strictDMY_shape _ _ E) as (d & m & y & -> & Hd & Hm & Hy).
    rewrite (DateFacts.fixDate_swaps _ _ _ Hd Hm Hy).
    apply DateFacts.digits_inv in Hy as [_ Hy].
    destruct y; [discriminate|]. discriminate.
  - unfold Server.fixDate. rewrite E. exact Hs.
Qed.

(** X7. The window of [server.js] is the earliest and the latest, in the
    order of [<] on strings, of the date cells of the batch as texts, day
    and year swapped where [fixDate] applies: both are dates of rows, no
    row's date is before the one or after the other, and both are [null]
    exactly when no row has a date.  The date cells are taken to be texts,
    as the cells of a parsed CSV file are. *)
Theorem server_window_bounds (rows : list Record_) :
  Forall (fun row => match dateValueOf row with VNum _ => False | _ => True end)
         rows ->
  let w := Server.computeWindow tableName rows in
  match collect serverDate rows with
  | [] => minDate w = None /\ maxDate w = None
  | ds =>
      exists lo hi, minDate w = Some lo /\ maxDate w = Some hi /\ bounds lo hi ds
  end.
Proof.
  intros Htext.
  apply (window_of_scan (Server.windowStep tableName) serverDate rows).
  - intros w row. apply server_step_dates.
  - unfold collect. induction Htext as [|row rows Hrow _ IH]; simpl;
      [constructor|].
    apply Forall_app. split; [|exact IH].
    unfold serverDate. cbv zeta.
    destruct (dateValueOf row) as [| |s|n]; simpl; try constructor; auto.
    + destruct (String.eqb_spec s EmptyString); simpl; constructor; auto.
      apply fixDate_not_empty. assumption.
    + contradiction.
Qed.

End Scans.

(** *** The store set *)

Lemma number_eqb_refl (n : number) : number_eqb n n = true.
Proof.
  destruct n as [|b|d]; simpl; auto.
  - destruct b; reflexivity.
  - rewrite N.eqb_refl, Z.eqb_refl. simpl.
    destruct (dneg d); simpl; auto using orb_true_r.
Qed.

Lemma number_eqb_sym (a b : number) : number_eqb a b = number_eqb b a.
Proof.
  destruct a as [|x|x], b as [|y|y]; simpl; auto.
  - destruct x, y; reflexivity.
  - rewrite (N.eqb_sym (dmant x)), (Z.eqb_sym (dexp x)).
    destruct (N.eqb_spec (dmant y) (dmant x)) as [E|_]; [|reflexivity].
    rewrite E. destruct (dneg x), (dneg y); reflexivity.
Qed.

Lemma sameValueZero_refl (v : Value) : sameValueZero v v = true.
Proof.
  destruct v; simpl; auto using String.eqb_refl, number_eqb_refl.
Qed.

Lemma sameValueZero_sym (a b : Value) : sameValueZero a b = sameValueZero b a.
Proof.
  destruct a, b; simpl; auto using String.eqb_sym, number_eqb_sym.
Qed.

Lemma set_has_app (v : Value) (a b : list Value) :
  set_has v (a ++ b) = set_has v a || set_has v b.
Proof. unfold set_has. apply existsb_app. Qed.

Lemma set_has_add (v u : Value) (l : list Value) :
  set_has v l = true -> set_has v (set_add u l) = true.
Proof.
  intros Hv. unfold set_add. destruct (set_has u l); [assumption|].
  rewrite set_has_app, Hv. reflexivity.
Qed.

Lemma set_has_added (v : Value) (l : list Value) :
  set_has v (set_add v l) = true.
Proof.
  unfold set_add. destruct (set_has v l) eqn:E; [assumption|].
  rewrite set_has_app. simpl. rewrite sameValueZero_refl.
  auto using orb_true_r.
Qed.

Lemma distinct_snoc (l : list Value) (v : Value) :
  ForallOrdPairs (fun a b => sameValueZero a b = false) l ->
  set_has v l = false ->
  ForallOrdPairs (fun a b => sameValueZero a b = false) (l ++ [v]).
Proof.
  induction 1 as [|u l Hu Hl IH]; simpl; intros Hv.
  - repeat constructor.
  - apply orb_false_iff in Hv as [Hvu Hvl]. constructor.
    + apply Forall_app. split; [assumption|].
      constructor; [|constructor]. rewrite sameValueZero_sym. exact Hvu.
    + apply IH, Hvl.
Qed.

Lemma set_add_distinct (l : list Value) (v : Value) :
  ForallOrdPairs (fun a b => sameValueZero a b = false) l ->
  ForallOrdPairs (fun a b => sameValueZero a b = false) (set_add v l).
Proof.
  intros Hl. unfold set_add. destruct (set_has v l) eqn:E; [assumption|].
  apply distinct_snoc; assumption.
Qed.

Lemma In_set_add (u v : Value) (l : list Value) :
  In u (set_add v l) -> In u l \/ u = v.
Proof.
  unfold set_add. destruct (set_has v l); [auto|].
  intros Hin. apply in_app_or in Hin as [Hin|[<-|[]]]; auto.
Qed.

Section Stores.
Variable tableName : string.

Local Abbreviation storeStep :=
  (fun (l : list Value) (row : Record_) => addStore tableName row l).

Lemma stores_from (rows : list Record_) (l : list Value) :
  let l' := fold_left storeStep rows l in
  (forall v, In v l' ->
     In v l \/ exists row, In row rows /\ storeOf tableName row = Some v) /\
  (forall v, set_has v l = true -> set_has v l' = true) /\
  (forall row v, In row rows -> storeOf tableName row = Some v ->
     set_has v l' = true) /\
  (ForallOrdPairs (fun a b => sameValueZero a b = false) l ->
   ForallOrdPairs (fun a b => sameValueZero a b = false) l').
Proof.
  revert l. induction rows as [|r rows IH]; intros l; cbv zeta.
  - simpl. repeat split; auto; intros row v [].
  - cbn [fold_left]. destruct (IH (addStore tableName r l)) as (A & B & C & D).
    cbv zeta in A, B, C, D. unfold addStore in *.
    destruct (storeOf tableName r) as [s|] eqn:Es.
    + repeat split.
      * intros v Hv. destruct (A v Hv) as [Hin|(row & Hrow & E)].
        -- apply In_set_add in Hin as [Hin| ->]; [auto|].
           right. exists r. simpl. auto.
        -- right. exists row. simpl. auto.
      * intros v Hv. apply B, set_has_add, Hv.
      * intros row v [<-|Hrow] E.
        -- rewrite Es in E. injection E as <-. apply B, set_has_added.
        -- eapply C; eassumption.
      * intros Hl. apply D, set_add_distinct, Hl.
    + repeat split; auto.
      * intros v Hv. destruct (A v Hv) as [Hin|(row & Hrow & E)]; [auto|].
        right. exists row. simpl. auto.
      * intros row v [<-|Hrow] E; [congruence|]. eapply C; eassumption.
Qed.

Lemma stores_of_steps (step : Window -> Record_ -> Window)
    (rows : list Record_) (w : Window) :
  (forall w row, stores (step w row) = addStore tableName row (stores w)) ->
  stores (fold_left step rows w) = fold_left storeStep rows (stores w).
Proof.
  intros Hstep. revert w. induction rows as [|row rows IH]; intros w.
  - reflexivity.
  - cbn [fold_left]. rewrite IH, Hstep. reflexivity.
Qed.

(** X8. The store set of a batch, which both scans build alike: it holds the
    truthy store cell of every row (up to the equality of [Set]), holds
    nothing else, and holds no value twice. *)
Theorem window_stores `{NumberOps} (rows : list Record_) :
  let held := stores (FileWatcher.computeWindow tableName rows) in
  stores (Server.computeWindow tableName rows) = held /\
  (forall v, In v held ->
     exists row, In row rows /\ storeOf tableName row = Some v) /\
  (forall row v, In row rows -> storeOf tableName row = Some v ->
     set_has v held = true) /\
  ForallOrdPairs (fun a b => sameValueZero a b = false) held.
Proof.
  cbv zeta. unfold FileWatcher.computeWindow, Server.computeWindow.
  rewrite (stores_of_steps (FileWatcher.windowStep tableName) rows noWindow).
  2:{ intros w row. unfold FileWatcher.windowStep. cbv zeta.
      destruct (truthy (dateValueOf row)); [|reflexivity].
      destruct (parseDate (dateValueOf row)) as [p|]; [|reflexivity].
      destruct (String.eqb p EmptyString); reflexivity. }
  rewrite (stores_of_steps (Server.windowStep tableName) rows noWindow).
  2:{ intros w row. unfold Server.windowStep. cbv zeta.
      destruct (truthy (dateValueOf row)); reflexivity. }
  destruct (stores_from rows (stores noWindow)) as (A & B & C & D).
  cbv zeta in A, B, C, D. split; [reflexivity|]. split; [|split].
  - intros v Hv. destruct (A v Hv) as [[]|Hrow]. exact Hrow.
  - exact C.
  - apply D. constructor.
Qed.

End Stores.

Import Samples.

Lemma server_window_bounds_witness :
  let rows := [sale "03-12-2025" "A" "1"; sale "25-11-2025" "B" "2";
               sale "2025-11-30" "A" "3"] in
  let w := @Server.computeWindow decimalHost "SNJ_SRP_DETAIL" rows in
  exists lo hi,
    minDate w = Some lo /\ maxDate w = Some hi /\
    bounds lo hi ["2025-12-03"; "2025-11-25"; "2025-11-30"].
Proof.
  exact (@server_window_bounds decimalHost "SNJ_SRP_DETAIL"
           [sale "03-12-2025" "A" "1"; sale "25-11-2025" "B" "2";
            sale "2025-11-30" "A" "3"]
           ltac:(repeat constructor)).
Defined.

Lemma window_stores_witness :
  let held :=
    stores (@FileWatcher.computeWindow decimalHost "SNJ_SRP_DETAIL"
              storelessBatch) in
  held = [VStr "A"] /\ set_has (VStr "A") held = true /\
  exists row, In row storelessBatch /\
              storeOf "SNJ_SRP_DETAIL" row = Some (VStr "A").
Proof.
  destruct (@window_stores "SNJ_SRP_DETAIL" decimalHost storelessBatch)
    as (_ & A & C & _).
  split; [reflexivity|]. split.
  - apply (C (sale "2025-11-25" "A" "10") (VStr "A")); [simpl; auto|reflexivity].
  - apply A. simpl. auto.
Defined.

End WindowFacts.

(** ** Loading the same batch twice *)

Module IdempotenceFacts.
Import Js Sql TableManager FileWatcher RefDB Shapes.

Lemma detectTableName_range (fileName : string) (data : list Record_) :
  detectTableName fileName data = "SALES_INVOICE_ACCURATE_ONLINE" \/
  detectTableName fileName data = "SNJ_SRP_DETAIL".
Proof.
  unfold detectTableName. cbv zeta.
  destruct (_ || _); [auto|]. destruct (_ || _); [auto|].
  destruct data as [|firstRow _]; [auto|].
  destruct (_ || _); [auto|]. destruct (_ || _); auto.
Qed.

Lemma collect_In {A B : Type} (f : A -> option B) (l : list A) (y : B) :
  In y (collect f l) <-> exists x, In x l /\ f x = Some y.
Proof.
  unfold collect. rewrite in_flat_map. split.
  - intros (x & Hx & Hy). exists x. split; [exact Hx|].
    destruct (f x) as [z|]; [|contradiction].
    destruct Hy as [<-|[]]. reflexivity.
  - intros (x & Hx & E). exists x. split; [exact Hx|]. rewrite E. simpl. auto.
Qed.

Lemma prop_get (k : string) (row : Record_) :
  truthy (prop k row) = true -> get k row = Some (prop k row).
Proof. unfold prop. destruct (get k row); [reflexivity|discriminate]. Qed.

Lemma truthy_not_blank (v : Value) : truthy v = true -> is_blank v = false.
Proof.
  destruct v as [| |s|n]; simpl; try discriminate; [|reflexivity].
  destruct (String.eqb s EmptyString); [discriminate|reflexivity].
Qed.

Section Reference.
Context `{NumberOps}.
Variable dateKey : string -> option Z.
Variable violates : list StoredRow -> InsertStmt -> option string.
Variable schemas : Schemas.
Variable tableName : string.
Variable cols : list (string * string).

Local Abbreviation cts := (columnTypesOf cols).
Local Abbreviation rStmt := (insertFor schemas tableName cts).
Local Abbreviation dateColumn := (dateColumnOf tableName).
Local Abbreviation storeColumn := (storeColumnOf tableName).

(** The cell an accepted insert stores under a column of the record. *)
Lemma get_stored (row : Record_) (col : string) :
  get col (stored (rStmt row))
  = option_map (bindParam schemas tableName cts col) (get col row).
Proof.
  unfold stored, insertFor. cbn [ins_columns ins_params]. unfold keys.
  induction row as [|[k v] row IH]; [reflexivity|].
  cbn [map combine get fst snd].
  destruct (String.eqb_spec col k) as [->|_]; [reflexivity|exact IH].
Qed.

Lemma watcher_step_stores (w : Window) (row : Record_) :
  stores (windowStep tableName w row) = addStore tableName row (stores w).
Proof.
  unfold windowStep. cbv zeta.
  destruct (truthy (dateValueOf row)); [|reflexivity].
  destruct (parseDate (dateValueOf row)) as [p|]; [|reflexivity].
  destruct (String.eqb p EmptyString); reflexivity.
Qed.

Section Batch.
Variable rows : list Record_.

Hypothesis known_table :
  tableName = "SALES_INVOICE_ACCURATE_ONLINE" \/ tableName = "SNJ_SRP_DETAIL".
Hypothesis date_typed : getColumnType schemas tableName dateColumn = date.
Hypothesis store_typed : getColumnType schemas tableName storeColumn = string_.
Hypothesis store_text : numericType (get storeColumn cts) = false.
Hypothesis dated :
  forall row, In row rows ->
    truthy (prop dateColumn row) = true /\
    (tableName = "SALES_INVOICE_ACCURATE_ONLINE" ->
     truthy (prop "SALES_DATE" row) = false) /\
    exists d, parseDate (prop dateColumn row) = Some d /\ d <> EmptyString.
Hypothesis ordered :
  forall r1 r2 d1 d2, In r1 rows -> In r2 rows ->
    parseDate (prop dateColumn r1) = Some d1 ->
    parseDate (prop dateColumn r2) = Some d2 ->
    String.ltb d2 d1 = false ->
    exists k1 k2, dateKey d1 = Some k1 /\ dateKey d2 = Some k2 /\ (k1 <= k2)%Z.
Hypothesis stores_named :
  (forall row, In row rows ->
     exists s, prop storeColumn row = VStr s /\ s <> EmptyString /\
               test scientific s = false) \/
  (forall row, In row rows -> truthy (prop storeColumn row) = false).

(** The date the window scan reads from a record is the one of the
    designated column. *)
Lemma scanned_date (row : Record_) :
  In row rows ->
  exists d, parseDate (prop dateColumn row) = Some d /\ d <> EmptyString /\
            watcherDate row = Some d.
Proof.
  intros Hin. destruct (dated row Hin) as (Ht & Hsales & d & Hp & Hd).
  exists d. split; [exact Hp|]. split; [exact Hd|].
  assert (E : dateValueOf row = prop dateColumn row).
  { unfold dateValueOf, or_else, dateColumnOf in *.
    destruct known_table as [T|T]; rewrite T in *; cbn in Ht |- *.
    - rewrite (Hsales eq_refl). reflexivity.
    - rewrite Ht. reflexivity. }
  unfold watcherDate. cbv zeta. rewrite E, Ht, Hp.
  destruct (String.eqb_spec d EmptyString); [contradiction|reflexivity].
Qed.

Lemma stored_date (row : Record_) (d : string) :
  In row rows -> parseDate (prop dateColumn row) = Some d ->
  cellDate dateKey (stored (rStmt row)) dateColumn = dateKey d.
Proof.
  intros Hin Hp. destruct (dated row Hin) as (Ht & _).
  unfold cellDate. rewrite get_stored, (prop_get _ _ Ht). cbn [option_map].
  unfold bindParam. cbv zeta.
  rewrite (truthy_not_blank _ Ht), date_typed, Hp. reflexivity.
Qed.

Lemma store_of (row : Record_) :
  storeOf tableName row
  = if truthy (prop storeColumn row) then Some (prop storeColumn row) else None.
Proof.
  unfold storeOf, storeColumnOf.
  destruct known_table as [T|T]; rewrite T; cbn;
    destruct (truthy _); reflexivity.
Qed.

(** Every row the batch stores satisfies the condition of its own delete. *)
Lemma window_covers_batch (row : Record_) :
  In row rows ->
  windowSelects dateKey tableName (computeWindow tableName rows)
                (stored (rStmt row)) = true.
Proof.
  intros Hin. set (w := computeWindow tableName rows).
  destruct (scanned_date row Hin) as (d & Hp & Hd & Hw).
  pose proof (WindowFacts.window_of_scan (windowStep tableName) watcherDate rows
                (fun w0 r => WindowFacts.watcher_step_dates tableName w0 r)
                (WindowFacts.watcherDate_not_empty rows)) as Hscan.
  cbv zeta in Hscan. fold (computeWindow tableName rows) in Hscan. fold w in Hscan.
  assert (Hind : In d (collect watcherDate rows)).
  { apply collect_In. exists row. auto. }
  destruct (collect watcherDate rows) as [|d0 ds] eqn:Ec; [contradiction|].
  rewrite <- Ec in *. clear d0 ds Ec.
  destruct Hscan as (lo & hi & Hmin & Hmax & Hlo & Hhi & Hb).
  destruct (Hb d Hind) as [Blo Bhi].
  apply collect_In in Hlo as (rlo & Hrlo & Wlo).
  apply collect_In in Hhi as (rhi & Hrhi & Whi).
  destruct (scanned_date rlo Hrlo) as (dlo & Plo & Nlo & Wlo').
  destruct (scanned_date rhi Hrhi) as (dhi & Phi & Nhi & Whi').
  assert (dlo = lo) by congruence. assert (dhi = hi) by congruence.
  subst dlo dhi.
  destruct (ordered rlo row lo d Hrlo Hin Plo Hp Blo) as (klo & k & Klo & Kd & L1).
  destruct (ordered row rhi d hi Hin Hrhi Hp Phi Bhi) as (k' & khi & Kd' & Khi & L2).
  assert (k' = k) by congruence. subst k'.
  unfold windowSelects. rewrite Hmin, Hmax, Klo, Khi.
  assert (Tlo : date_truthy (Some lo) = true).
  { simpl. destruct (String.eqb_spec lo EmptyString); [contradiction|reflexivity]. }
  assert (Thi : date_truthy (Some hi) = true).
  { simpl. destruct (String.eqb_spec hi EmptyString); [contradiction|reflexivity]. }
  rewrite Tlo, Thi. cbn [andb].
  unfold selected, deleteFor.
  cbn [del_dateColumn del_stores del_storeColumn].
  rewrite (stored_date row d Hin Hp), Kd.
  apply andb_true_iff. split.
  { apply andb_true_iff. split; apply Z.leb_le; assumption. }
  assert (Est : stores w = fold_left (fun l r => addStore tableName r l) rows []).
  { unfold w, computeWindow.
    apply (WindowFacts.stores_of_steps tableName (windowStep tableName) rows
             noWindow watcher_step_stores). }
  destruct (WindowFacts.stores_from tableName rows []) as (A & _ & C & _).
  cbv zeta in A, C. rewrite <- Est in A, C.
  destruct stores_named as [Named|Nameless].
  - destruct (Named row Hin) as (s & Hs & Ns & Sci).
    assert (Ts : truthy (prop storeColumn row) = true).
    { rewrite Hs. simpl.
      destruct (String.eqb_spec s EmptyString); [contradiction|reflexivity]. }
    pose proof (C row (VStr s) Hin) as Hheld.
    rewrite store_of, Ts, Hs in Hheld. specialize (Hheld eq_refl).
    destruct (stores w) as [|v l] eqn:Ew; [reflexivity|]. rewrite <- Ew.
    rewrite get_stored, (prop_get _ _ Ts), Hs. cbn [option_map].
    unfold bindParam. cbv zeta.
    replace (is_blank (VStr s)) with false
      by (simpl; destruct (String.eqb_spec s EmptyString);
          [contradiction|reflexivity]).
    rewrite store_typed, store_text. cbn [pvalue].
    unfold textFor. cbn [toString orb]. rewrite Sci, Ew. exact Hheld.
  - destruct (stores w) as [|v l] eqn:Ew; [reflexivity|]. exfalso.
    destruct (A v (or_introl eq_refl)) as [[]|(r & Hr & E)].
    rewrite store_of, (Nameless r Hr) in E. discriminate.
Qed.

End Batch.

(** C1, amended.  Take a batch whose destination table exists and starts
    empty, and whose first load ends with no row in error.  Let every record
    carry a date value in the designated date column, one that is not white
    space only and that is the date the window scan reads (a record for the
    invoice table has no [SALES_DATE] beside it); let the database read
    every date of the batch, in the order their texts have; and let every
    record name its store as a text written as it is stored, or no record
    name a store at all.  The date column is read as a date and the store
    column as text, and the column names are ordinary.  Then the table holds
    one row per record after the first load, and the second load deletes
    exactly those rows, inserts the batch again and leaves the database as
    the first load left it, with the same outcome: the row count is the same
    after both loads. *)
Theorem reload_is_idempotent (data : list Record_) (fileName : string)
    (pool pool1 : DB) (log1 : list LogEvent) (o1 : Outcome) :
  let mappedData := map (fun row => mapColumns schemas row tableName) data in
  detectTableName fileName data = tableName ->
  get tableName pool = Some (mkTable cols []) ->
  getColumnType schemas tableName dateColumn = date ->
  getColumnType schemas tableName storeColumn = string_ ->
  numericType (get storeColumn cts) = false ->
  forallb ordinaryRecord mappedData = true ->
  (forall row, In row mappedData ->
     truthy (prop dateColumn row) = true /\
     (tableName = "SALES_INVOICE_ACCURATE_ONLINE" ->
      truthy (prop "SALES_DATE" row) = false) /\
     exists d, parseDate (prop dateColumn row) = Some d /\ d <> EmptyString) ->
  (forall r1 r2 d1 d2, In r1 mappedData -> In r2 mappedData ->
     parseDate (prop dateColumn r1) = Some d1 ->
     parseDate (prop dateColumn r2) = Some d2 ->
     String.ltb d2 d1 = false ->
     exists k1 k2,
       dateKey d1 = Some k1 /\ dateKey d2 = Some k2 /\ (k1 <= k2)%Z) ->
  ((forall row, In row mappedData ->
      exists s, prop storeColumn row = VStr s /\ s <> EmptyString /\
                test scientific s = false) \/
   (forall row, In row mappedData -> truthy (prop storeColumn row) = false)) ->
  @uploadToDatabase _ DB (refDriver dateKey violates) schemas data fileName pool
  = (pool1, log1, Ok o1) ->
  outErrorCount o1 = 0 ->
  rowCount pool1 tableName = List.length data /\
  exists log2,
    @uploadToDatabase _ DB (refDriver dateKey violates) schemas data fileName pool1
    = (pool1, log2, Ok o1) /\
    (data <> [] -> In (Deleted (List.length data)) log2).
Proof.
  intros mappedData Ht Hget Hdt Hst Hsx _ Hdated Hord Hstores Hup Herr.
  assert (Hknown : tableName = "SALES_INVOICE_ACCURATE_ONLINE" \/
                   tableName = "SNJ_SRP_DETAIL").
  { rewrite <- Ht. apply detectTableName_range. }
  destruct (ReloadFacts.second_load_when_covered dateKey violates schemas
              tableName cols data fileName pool pool1 log1 o1 Ht Hget Hup Herr)
    as (Hcount & Hsame & _).
  split; [exact Hcount|]. apply Hsame.
  intros row Hin.
  apply (window_covers_batch mappedData Hknown Hdt Hst Hsx Hdated Hord Hstores
           row Hin).
Qed.

End Reference.

Import Samples.

Lemma reload_is_idempotent_witness :
  exists (pool1 : DB) (log2 : list LogEvent),
    rowCount pool1 "SNJ_SRP_DETAIL" = 2 /\
    @uploadToDatabase decimalHost _ lenientDriver detailSchemas
      storeBatch "snj.csv" pool1
    = (pool1, log2,
       Ok (mkOutcome true 2 0 (Some "2025-11-25", Some "2025-11-26") [VStr "A"]))
    /\ In (Deleted 2) log2.
Proof.
  edestruct (@reload_is_idempotent decimalHost isoDate lenient
               detailSchemas "SNJ_SRP_DETAIL" detailColumns storeBatch "snj.csv"
               emptyDetail)
    as (Hcount & log2 & Hup2 & Hdel).
  - reflexivity.
  - reflexivity.
  - reflexivity.
  - reflexivity.
  - reflexivity.
  - reflexivity.
  - intros row [<-|[<-|[]]]; (split; [reflexivity|]);
      (split; [discriminate|]); eexists; (split; [reflexivity|discriminate]).
  - intros r1 r2 d1 d2 [<-|[<-|[]]] [<-|[<-|[]]] E1 E2 L;
      vm_compute in E1; vm_compute in E2;
      injection E1 as <-; injection E2 as <-;
      try (vm_compute in L; discriminate L);
      eexists; eexists; (split; [reflexivity|]); (split; [reflexivity|]);
      vm_compute; discriminate.
  - left. intros row [<-|[<-|[]]]; exists "A";
      (split; [reflexivity|]); (split; [discriminate|reflexivity]).
  - vm_compute. reflexivity.
  - reflexivity.
  - eexists. exists log2. split; [exact Hcount|]. split; [exact Hup2|].
    apply Hdel. discriminate.
Defined.

End IdempotenceFacts.


(** ** The parameters of an insert *)

Module BindFacts.
Import Js Sql TableManager Shapes.

Section Binding.
Context `{NumberOps}.
Variable schemas : Schemas.
Variable tableName : string.
Variable columnTypes : list (string * string).

Lemma parseNumeric_bound (value : Value) :
  wellBound (mkParam Numeric (FileWatcher.nullable_num (parseNumeric value)))
  = true.
Proof.
  unfold parseNumeric. destruct (is_blank value); [reflexivity|].
  cbv zeta. destruct (isNaN _) eqn:E; [reflexivity|].
  unfold wellBound. simpl. rewrite E. reflexivity.
Qed.

Lemma parseDate_bound (value : Value) :
  is_blank value = false ->
  wellBound (mkParam Date (FileWatcher.nullable_str (parseDate value))) = true.
Proof.
  intros Hb. unfold parseDate. rewrite Hb. cbv zeta.
  destruct (search dayMonthYear _) as [[|d [|s1 [|m [|s2 [|y [|]]]]]]|];
    try reflexivity.
  destruct (get _ monthMap); reflexivity.
Qed.

(** X9. Neither insert ever binds [undefined] or NaN.  A blank cell is bound as
    an [NVarChar] null whatever its column; [null] is otherwise bound for a
    numeric column only, when the cell does not read as a number; and
    [server.js] binds no parameter as a date. *)
Theorem bindParam_well_bound (col : string) (value : Value) :
  let w := FileWatcher.bindParam schemas tableName columnTypes col value in
  let s := Server.bindParam columnTypes col value in
  wellBound w = true /\ wellBound s = true /\ ptype s <> Date /\
  (is_blank value = true ->
   w = mkParam NVarChar VNull /\ s = mkParam NVarChar VNull) /\
  (is_blank value = false ->
   (pvalue w = VNull -> ptype w = Numeric) /\
   (pvalue s = VNull -> ptype s = Numeric)).
Proof.
  cbv zeta. unfold FileWatcher.bindParam, Server.bindParam.
  destruct (is_blank value) eqn:Hb.
  - repeat split; auto; discriminate.
  - cbv zeta.
    split; [|split; [|split; [|split; [discriminate|split]]]].
    + destruct (getColumnType schemas tableName col);
        auto using parseNumeric_bound, parseDate_bound.
      destruct (FileWatcher.numericType (get col columnTypes));
        auto using parseNumeric_bound.
    + destruct (FileWatcher.numericType (get col columnTypes)); [|reflexivity].
      destruct (isNaN _) eqn:E; [reflexivity|].
      unfold wellBound. simpl. rewrite E. reflexivity.
    + destruct (FileWatcher.numericType (get col columnTypes)); discriminate.
    + destruct (getColumnType schemas tableName col); try reflexivity.
      * pose proof (parseDate_bound value Hb) as B.
        destruct (parseDate value); simpl in *; discriminate.
      * destruct (FileWatcher.numericType (get col columnTypes));
          [reflexivity|discriminate].
    + destruct (FileWatcher.numericType (get col columnTypes));
        [reflexivity|discriminate].
Qed.

End Binding.

Lemma bindParam_well_bound_witness :
  let w := @FileWatcher.bindParam decimalHost Samples.detailSchemas
             "SNJ_SRP_DETAIL" Samples.detailColumns "AMOUNT" (VStr "abc") in
  (pvalue w = VNull /\ ptype w = Numeric) /\
  @Server.bindParam decimalHost Samples.detailColumns "AMOUNT" (VStr "")
  = mkParam NVarChar VNull.
Proof.
  pose proof (@bindParam_well_bound decimalHost Samples.detailSchemas
                "SNJ_SRP_DETAIL" Samples.detailColumns "AMOUNT" (VStr "abc"))
    as (_ & _ & _ & _ & Hnull).
  pose proof (@bindParam_well_bound decimalHost Samples.detailSchemas
                "SNJ_SRP_DETAIL" Samples.detailColumns "AMOUNT" (VStr ""))
    as (_ & _ & _ & Hblank & _).
  split.
  - split; [reflexivity|]. exact (proj1 (Hnull eq_refl) eq_refl).
  - exact (proj2 (Hblank eq_refl)).
Defined.

End BindFacts.

(** ** The error list of the server's load *)

Module ErrorFacts.
Import Js Sql TableManager.

Lemma ordered_app_l {A : Type} (R : A -> A -> Prop) (a b : list A) :
  ForallOrdPairs R (a ++ b) -> ForallOrdPairs R a.
Proof.
  induction a as [|x a IH]; simpl; intros F; [constructor|].
  inversion F as [|? ? Hx Ha]; subst. constructor.
  - apply Forall_app in Hx as [Hx _]. exact Hx.
  - apply IH, Ha.
Qed.

Lemma ordered_app {A : Type} (R : A -> A -> Prop) (a b : list A) :
  ForallOrdPairs R a -> ForallOrdPairs R b ->
  (forall x y, In x a -> In y b -> R x y) ->
  ForallOrdPairs R (a ++ b).
Proof.
  induction 1 as [|x a Hx Ha IH]; simpl; intros Hb Hab; [assumption|].
  constructor.
  - apply Forall_app. split; [assumption|].
    apply Forall_forall. intros y Hy. apply Hab; simpl; auto.
  - apply IH; [assumption|]. intros u v Hu Hv. apply Hab; simpl; auto.
Qed.

Section AnyDriver.
Context `{NumberOps} {DB : Type} `{Driver DB}.
Variable tableName : string.
Variable columnTypes : list (string * string).

Local Abbreviation sLoop := (Server.insertLoop tableName columnTypes).
Local Abbreviation sRow := (Server.insertRow tableName columnTypes).

(** An entry made while the rows from index [i] on are run: it carries the
    one-based number of its row, and the row. *)
Local Abbreviation entryOf i rows :=
  (fun e : Server.ErrorEntry =>
     i < Server.row e <= i + List.length rows /\
     nth_error rows (Server.row e - 1 - i) = Some (Server.data e)).

Lemma server_row_errors (i : nat) (r : Record_) (st : Server.Loop) :
  exists new,
    Server.errors (sRow i r st) = (Server.errors st ++ new)%list /\
    Server.errorCount (sRow i r st)
    = Server.errorCount st + List.length new /\
    Forall (fun e => Server.row e = i + 1 /\ Server.data e = r) new.
Proof.
  unfold Server.insertRow. cbv zeta.
  destruct (Server.skips columnTypes r).
  - exists []. simpl. rewrite app_nil_r. auto.
  - destruct (execInsert (Server.tx st) _) as [tx'|m].
    + exists []. simpl. rewrite app_nil_r. auto.
    + exists [Server.mkError (i + 1) m r]. simpl.
      repeat split; auto. lia.
Qed.

Lemma server_loop_errors (i : nat) (rows : list Record_) (st : Server.Loop) :
  exists new,
    Server.errors (sLoop i rows st) = (Server.errors st ++ new)%list /\
    Server.errorCount (sLoop i rows st)
    = Server.errorCount st + List.length new /\
    Forall (entryOf i rows) new /\
    ForallOrdPairs (fun a b => Server.row a < Server.row b) new.
Proof.
  revert i st. induction rows as [|r rows IH]; intros i st.
  - exists []. simpl. rewrite app_nil_r. repeat split; auto. constructor.
  - cbn [Server.insertLoop].
    destruct (server_row_errors i r st) as (n1 & E1 & C1 & F1).
    destruct (IH (S i) (sRow i r st)) as (n2 & E2 & C2 & F2 & O2).
    exists (n1 ++ n2)%list. rewrite E2, E1, C2, C1, length_app, <- app_assoc.
    repeat split; try lia.
    + apply Forall_app. split.
      * eapply Forall_impl; [|exact F1]. intros e [Er Ed]. simpl.
        rewrite Er, Ed. split; [lia|].
        replace (i + 1 - 1 - i) with 0 by lia. reflexivity.
      * eapply Forall_impl; [|exact F2]. intros e [Er Ed]. simpl.
        split; [lia|].
        replace (Server.row e - 1 - i) with (S (Server.row e - 1 - S i)) by lia.
        exact Ed.
    + apply ordered_app; [|assumption|].
      * destruct F1 as [|e l [Er _] Fl]; [constructor|].
        inversion Fl; subst; [repeat constructor|].
        exfalso. clear - C1 E1.
        unfold Server.insertRow in C1. cbv zeta in C1.
        destruct (Server.skips columnTypes r); simpl in C1; [lia|].
        destruct (execInsert (Server.tx st) _); simpl in C1; lia.
      * intros x y Hx Hy.
        pose proof (proj1 (Forall_forall _ _) F1 x Hx) as [Ex _].
        pose proof (proj1 (Forall_forall _ _) F2 y Hy) as [Ey _]. lia.
Qed.

End AnyDriver.

Section Load.
Context `{NumberOps} {DB : Type} `{Driver DB}.
Variable tableName : string.

(** X10. The errors a finished load of [server.js] reports are the first ten of
    the failed rows, or all of them if fewer failed: each entry carries the
    one-based position of its row in the batch and that row, and the
    entries are in the order of the rows. *)
Theorem server_reports_first_ten_errors (data : list Record_) (pool pool' : DB)
    (log : list LogEvent) (o : Server.Outcome) :
  Server.uploadToDatabase data tableName pool = (pool', log, Ok o) ->
  List.length (Server.outErrors o) = Nat.min 10 (Server.outErrorCount o) /\
  Forall (fun e =>
            1 <= Server.row e <= List.length data /\
            nth_error data (Server.row e - 1) = Some (Server.data e))
         (Server.outErrors o) /\
  ForallOrdPairs (fun a b => Server.row a < Server.row b) (Server.outErrors o).
Proof.
  unfold Server.uploadToDatabase.
  destruct (queryColumns pool tableName) as [recordset|m]; [|discriminate].
  cbv zeta. destruct (beginTransaction pool) as [[]|m]; [|discriminate].
  unfold Server.transaction, rolledBack.
  destruct (FileWatcher.deletePhase _ _ _) as [log1 [tx1|m]];
    [|destruct (rollbackTransaction _ _) as [p [u|m']]; discriminate].
  cbv zeta.
  destruct (server_loop_errors tableName (FileWatcher.columnTypesOf recordset)
              0 data (Server.mkLoop tx1 0 0 [] []))
    as (new & E & C & F & O).
  cbn [Server.errors Server.errorCount app] in E, C.
  destruct (commitTransaction _) as [[]|m];
    [|destruct (rollbackTransaction _ _) as [p [u|m']]; discriminate].
  intros Eq. apply (f_equal snd) in Eq. cbn [snd] in Eq.
  apply (f_equal (fun t => match t with Ok a => a | Throw _ => o end)) in Eq.
  cbv beta iota in Eq. rewrite <- Eq.
  cbn [Server.outErrors Server.outErrorCount].
  rewrite E, C. rewrite length_firstn. split; [reflexivity|].
  rewrite <- (firstn_skipn 10 new) in F, O. split.
  - apply Forall_app in F as [F _]. eapply Forall_impl; [|exact F].
    intros e [Hr Hd]. simpl in Hr. split; [lia|].
    replace (Server.row e - 1) with (Server.row e - 1 - 0) by lia. exact Hd.
  - exact (ordered_app_l _ _ _ O).
Qed.

End Load.

Import Samples.

Lemma server_reports_first_ten_errors_witness :
  exists pool' log o,
    @Server.uploadToDatabase decimalHost RefDB.DB strictDriver threeSales
      "SNJ_SRP_DETAIL" emptyDetail = (pool', log, Ok o) /\
    map Server.row (Server.outErrors o) = [2] /\
    List.length (Server.outErrors o) = Nat.min 10 (Server.outErrorCount o) /\
    Forall (fun e =>
              1 <= Server.row e <= List.length threeSales /\
              nth_error threeSales (Server.row e - 1) = Some (Server.data e))
           (Server.outErrors o) /\
    ForallOrdPairs (fun a b => Server.row a < Server.row b) (Server.outErrors o).
Proof.
  eexists _, _, _. split; [vm_compute; reflexivity|].
  split; [reflexivity|].
  eapply (@server_reports_first_ten_errors decimalHost RefDB.DB strictDriver
            "SNJ_SRP_DETAIL" threeSales emptyDetail).
  vm_compute. reflexivity.
Defined.

Section Report.
Context `{NumberOps} {DB : Type} `{Driver DB}.
Variable tableName : string.
Variable columnTypes : list (string * string).

Lemma filter_unknown (l : list string) :
  filter isSkippingUnknownColumn (map SkippingUnknownColumn l)
  = map SkippingUnknownColumn l.
Proof. induction l as [|c l IH]; simpl; [|rewrite IH]; reflexivity. Qed.

(** X11. The load of [server.js] reports the columns the table does not declare
    for the first record only: one line per undeclared column of that
    record, in its order, and no such line for any later record, whatever
    columns the table lacks there.  The column names of the batch are taken
    to be ordinary: [columnTypes[col]] is truthy for a member of
    [Object.prototype], which is then not reported as undeclared. *)
Theorem server_reports_unknown_columns_once (r : Record_)
    (rows : list Record_) (tx0 : DB) :
  forallb Shapes.ordinaryRecord (r :: rows) = true ->
  filter isSkippingUnknownColumn
    (Server.loopLog
       (Server.insertLoop tableName columnTypes 0 (r :: rows)
          (Server.mkLoop tx0 0 0 [] [])))
  = map SkippingUnknownColumn
      (filter (fun col => negb (Server.declared columnTypes col)) (keys r)).
Proof.
  intros _. cbn [Server.insertLoop].
  rewrite (LoopFacts.server_unknown_once tableName columnTypes 0 rows).
  unfold Server.insertRow, Server.unknownColumns. cbv zeta.
  cbn [Server.loopLog Nat.eqb app].
  destruct (Server.skips columnTypes r).
  - cbn [Server.loopLog]. rewrite filter_app, filter_unknown. simpl.
    apply app_nil_r.
  - destruct (execInsert _ _); cbn [Server.loopLog].
    + apply filter_unknown.
    + rewrite filter_app, filter_unknown. simpl. apply app_nil_r.
Qed.

End Report.

Lemma server_reports_unknown_columns_once_witness :
  filter isSkippingUnknownColumn
    (Server.loopLog
       (@Server.insertLoop decimalHost RefDB.DB lenientDriver "SNJ_SRP_DETAIL"
          detailColumns 0 [saleWithExtra; strangerRow]
          (Server.mkLoop emptyDetail 0 0 [] [])))
  = [SkippingUnknownColumn "EXTRA"].
Proof.
  exact (@server_reports_unknown_columns_once decimalHost RefDB.DB lenientDriver
           "SNJ_SRP_DETAIL" detailColumns saleWithExtra [strangerRow]
           emptyDetail eq_refl).
Defined.

End ErrorFacts.

(** ** Connecting, with retries *)

Module ConnectFacts.
Import Js Sql Ingest.

Section Connect.
Context {P : Type}.
Variable connect : nat -> Throws P.

(** All attempts from [a] up to [b] fail. *)
Local Abbreviation failing a b :=
  (forall j, a <= j <= b -> exists m, connect j = Throw m).

Lemma attempts_spec (n : nat) (rem a : nat) :
  a + rem = S n -> 1 <= a ->
  let '(log, r) := attempts connect n a rem in
  match r with
  | NoPool => rem = 0 /\ log = []
  | Pool pool =>
      exists k, a <= k <= n /\ connect k = Ok pool /\ failing a (k - 1) /\
                count isConnecting log = k + 1 - a /\
                count isWaited log = k - a
  | Thrown message =>
      1 <= rem /\ failing a n /\
      (exists m, connect n = Throw m /\
                 message = "Failed to connect after "
                           ++ digits_of (N.of_nat n) ++ " attempts: " ++ m) /\
      count isConnecting log = n + 1 - a /\ count isWaited log = n - a
  end.
Proof.
  revert a. induction rem as [|rem IH]; intros a Ha H1; cbn [attempts].
  - auto.
  - destruct (connect a) as [pool|m] eqn:Ea.
    + exists a. split; [lia|]. split; [assumption|]. split; [intros j Hj; lia|].
      unfold count. simpl. lia.
    + destruct (Nat.eqb_spec a n) as [->|Hne].
      * split; [lia|]. split.
        { intros j Hj. assert (j = n) as -> by lia. eauto. }
        split; [eauto|]. unfold count. simpl. lia.
      * specialize (IH (S a) ltac:(lia) ltac:(lia)).
        destruct (attempts connect n (S a) rem) as [log r].
        destruct r as [pool|message|].
        -- destruct IH as (k & Hk & Ek & Hf & C1 & C2).
           exists k. split; [lia|]. split; [assumption|]. split.
           { intros j Hj. destruct (Nat.eq_dec j a) as [->|Hja]; [eauto|].
             apply Hf. lia. }
           unfold count in *. simpl. lia.
        -- destruct IH as (Hr & Hf & Hm & C1 & C2).
           split; [lia|]. split.
           { intros j Hj. destruct (Nat.eq_dec j a) as [->|Hja]; [eauto|].
             apply Hf. lia. }
           split; [assumption|]. unfold count in *. simpl. lia.
        -- destruct IH as [Hr _]. lia.
Qed.

(** X12. [connectWithRetry] tries at most [retries] times (three when the number
    is not given), one after the other, and stops at the first success.  It
    returns the pool of the first attempt that connects; it throws only
    after [retries] failures, with the message of the last one; it pauses
    after every failure but the last; and it returns nothing at all, without
    one attempt, when [retries] is zero. *)
Theorem connectWithRetry_attempts (retries : option nat) :
  let n := match retries with Some n => n | None => 3 end in
  let '(log, r) := connectWithRetry connect retries in
  match r with
  | NoPool => n = 0 /\ log = []
  | Pool pool =>
      exists k, 1 <= k <= n /\ connect k = Ok pool /\ failing 1 (k - 1) /\
                count isConnecting log = k /\ count isWaited log = k - 1
  | Thrown message =>
      1 <= n /\ failing 1 n /\
      (exists m, connect n = Throw m /\
                 message = "Failed to connect after "
                           ++ digits_of (N.of_nat n) ++ " attempts: " ++ m) /\
      count isConnecting log = n /\ count isWaited log = n - 1
  end.
Proof.
  cbv zeta. unfold connectWithRetry.
  set (n := match retries with Some n => n | None => 3 end).
  pose proof (attempts_spec n n 1 ltac:(lia) ltac:(lia)) as S.
  destruct (attempts connect n 1 n) as [log r].
  destruct r as [pool|message|]; auto.
  - destruct S as (k & Hk & Ek & Hf & C1 & C2).
    exists k. split; [lia|]. split; [assumption|]. split; [assumption|]. lia.
  - destruct S as (Hr & Hf & Hm & C1 & C2).
    split; [lia|]. split; [assumption|]. split; [assumption|]. lia.
Qed.

End Connect.

Lemma connectWithRetry_attempts_witness :
  let connect := fun k : nat =>
    if (k <? 3)%nat then Throw "ETIMEOUT" else Ok tt in
  exists k,
    1 <= k <= 3 /\ connect k = Ok tt /\
    (forall j, 1 <= j <= k - 1 -> exists m, connect j = Throw m) /\
    count isConnecting (fst (connectWithRetry connect None)) = k /\
    count isWaited (fst (connectWithRetry connect None)) = k - 1.
Proof.
  exact (connectWithRetry_attempts
           (fun k : nat => if (k <? 3)%nat then Throw "ETIMEOUT" else Ok tt)
           None).
Defined.

End ConnectFacts.

(** ** Routing a file to its database *)

Module RouteFacts.
Import Js Sql Ingest.

Lemma findNamed_found (name : string) (connections : list Connection)
    (c : Connection) :
  findNamed name connections = Some c ->
  In c connections /\ conn_name c = name.
Proof.
  unfold findNamed. intros E. apply find_some in E as [Hin Hn].
  apply String.eqb_eq in Hn. auto.
Qed.

Lemma routeByTable_ok (connections : list Connection) (tableName : string)
    (c : Connection) :
  routeByTable connections tableName = Ok c <->
  findNamed (if String.eqb tableName "SALES_INVOICE_ACCURATE_ONLINE"
             then "Database 2" else "Database 1") connections = Some c /\
  conn_enabled c = true.
Proof.
  unfold routeByTable.
  destruct (String.eqb tableName "SALES_INVOICE_ACCURATE_ONLINE");
    destruct (findNamed _ connections) as [d|];
    try destruct (conn_enabled d) eqn:Ed; split;
    try (intros [E1 E2]; try discriminate; injection E1 as <-; congruence);
    intros E; try discriminate; injection E as <-; auto.
Qed.

Lemma routeWatcher_ok (connections : list Connection) (tableName : string)
    (c : Connection) :
  routeWatcher connections tableName = Ok c <->
  routeByTable connections tableName = Ok c.
Proof.
  unfold routeWatcher.
  destruct (filter conn_enabled connections) as [|e l] eqn:F; [|tauto].
  split; [discriminate|]. intros E.
  apply routeByTable_ok in E as [E1 E2].
  apply findNamed_found in E1 as [Hin _].
  assert (Hf : In c (filter conn_enabled connections))
    by (apply filter_In; auto).
  rewrite F in Hf. contradiction.
Qed.

(** X13. A file for the Accurate Online table goes to the first connection named
    [Database 2], every other file to the first one named [Database 1], and
    only if that very connection is enabled: a disabled connection is never
    the target, and a later enabled connection of the same name does not
    stand in for a disabled first one.  Watcher and upload endpoint route
    alike whenever a configuration is loaded. *)
Theorem routing_targets (connections : list Connection) (tableName : string)
    (c : Connection) :
  let target :=
    if String.eqb tableName "SALES_INVOICE_ACCURATE_ONLINE"
    then "Database 2" else "Database 1" in
  (routeWatcher connections tableName = Ok c <->
   findNamed target connections = Some c /\ conn_enabled c = true) /\
  (routeServer (Some connections) tableName = Ok c <->
   routeWatcher connections tableName = Ok c) /\
  (routeWatcher connections tableName = Ok c ->
   In c connections /\ conn_name c = target /\ conn_enabled c = true).
Proof.
  cbv zeta.
  pose proof (routeWatcher_ok connections tableName c) as W.
  split; [|split].
  - rewrite W. apply routeByTable_ok.
  - rewrite W. reflexivity.
  - intros E. apply W, routeByTable_ok in E as [E1 E2].
    apply findNamed_found in E1 as [Hin Hn]. auto.
Qed.

Lemma routing_targets_witness :
  let connections :=
    [mkConnection "Database 1" false; mkConnection "Database 2" true;
     mkConnection "Database 1" true] in
  routeWatcher connections "SALES_INVOICE_ACCURATE_ONLINE"
  = Ok (mkConnection "Database 2" true) /\
  routeServer (Some connections) "SALES_INVOICE_ACCURATE_ONLINE"
  = Ok (mkConnection "Database 2" true) /\
  routeWatcher connections "SNJ_SRP_DETAIL" <> Ok (mkConnection "Database 1" true).
Proof.
  cbv zeta.
  pose proof (routing_targets
                [mkConnection "Database 1" false; mkConnection "Database 2" true;
                 mkConnection "Database 1" true]
                "SALES_INVOICE_ACCURATE_ONLINE" (mkConnection "Database 2" true))
    as (H1 & H2 & _).
  pose proof (routing_targets
                [mkConnection "Database 1" false; mkConnection "Database 2" true;
                 mkConnection "Database 1" true]
                "SNJ_SRP_DETAIL" (mkConnection "Database 1" true))
    as (H3 & _ & _).
  cbv zeta in H1, H2, H3.
  assert (E : routeWatcher
                [mkConnection "Database 1" false; mkConnection "Database 2" true;
                 mkConnection "Database 1" true]
                "SALES_INVOICE_ACCURATE_ONLINE"
              = Ok (mkConnection "Database 2" true))
    by (apply H1; split; reflexivity).
  split; [exact E|]. split; [apply H2; exact E|].
  intros E3. apply H3 in E3 as [E3 _]. discriminate E3.
Defined.

End RouteFacts.

(** ** Telling a workbook from a text file *)

Module FileTypeFacts.
Import Js Ingest.

Lemma code_is (c : ascii) (n : N) :
  (n < 256)%N -> (code c =? n)%N = true -> c = ascii_of_N n.
Proof.
  intros Hn E. apply N.eqb_eq in E. unfold code in E. rewrite <- E.
  symmetry. apply ascii_N_embedding.
Qed.

(** The signature test looks at the first four bytes. *)
Lemma zipSignature_prefix (bytes : string) :
  zipSignature bytes = true <->
  exists rest,
    bytes = String (ascii_of_N 80) (String (ascii_of_N 75)
              (String (ascii_of_N 3) (String (ascii_of_N 4) rest))).
Proof.
  unfold zipSignature, byteAt. split.
  - intros E. apply andb_true_iff in E as [E E4].
    apply andb_true_iff in E as [E E3]. apply andb_true_iff in E as [E1 E2].
    destruct bytes as [|b1 [|b2 [|b3 [|b4 rest]]]]; try discriminate.
    simpl in E1, E2, E3, E4.
    apply code_is in E1, E2, E3, E4; try reflexivity. subst. eauto.
  - intros [rest ->]. reflexivity.
Qed.

Lemma text_test (s : string) :
  test_at_start [plus is_text] s = true <->
  exists c rest, s = String c rest /\ is_text c = true.
Proof.
  unfold test_at_start. cbn [match_here plus cls rmin rmax].
  destruct s as [|c rest].
  - simpl. split; [discriminate|]. intros (c & rest & E & _). discriminate.
  - cbn [run_length]. destruct (is_text c) eqn:Ec.
    + cbn [option_map]. cbn [Nat.ltb Nat.leb].
      split; [intros _; eauto|intros _].
      destruct (run_length is_text None rest); cbn [backtrack]; simpl;
        reflexivity.
    + simpl. split; [discriminate|].
      intros (c' & rest' & E & Hc). injection E as <- <-. congruence.
Qed.

(** X14. [detectFileType] answers [xlsx] exactly for a file that starts with the
    four bytes [50 4B 03 04].  Any other file is [csv] as soon as the first
    character of its text is printable ASCII, a carriage return, a line feed
    or a tab, whatever comes after it, and [unknown] otherwise; a file with
    no text is [unknown]. *)
Theorem detectFileType_cases (bytes text : string) :
  (detectFileType bytes text = xlsx <->
   exists rest,
     bytes = String (ascii_of_N 80) (String (ascii_of_N 75)
               (String (ascii_of_N 3) (String (ascii_of_N 4) rest)))) /\
  (detectFileType bytes text = csv <->
   zipSignature bytes = false /\
   exists c rest, text = String c rest /\ is_text c = true) /\
  (text = EmptyString -> detectFileType bytes text <> csv).
Proof.
  unfold detectFileType. cbv zeta. split; [|split].
  - rewrite <- zipSignature_prefix.
    destruct (zipSignature bytes); [tauto|].
    destruct (test_at_start _ _); split; discriminate.
  - destruct (zipSignature bytes).
    + split; [discriminate|]. intros [E _]. discriminate.
    + destruct (test_at_start [plus is_text] (take 100 text)) eqn:T.
      * split; [intros _|reflexivity]. split; [reflexivity|].
        apply text_test in T as (c & rest & E & Hc).
        destruct text as [|c' text']; [discriminate|].
        injection E as <- _. eauto.
      * split; [discriminate|]. intros (_ & c & rest & -> & Hc).
        assert (T' : test_at_start [plus is_text] (take 100 (String c rest))
                     = true) by (apply text_test; simpl; eauto).
        congruence.
  - intros ->. destruct (zipSignature bytes); discriminate.
Qed.

Lemma detectFileType_cases_witness :
  detectFileType (String "a" (String (ascii_of_N 0) "b"))
                 (String "a" (String (ascii_of_N 0) "b")) = csv /\
  detectFileType "" "" <> csv.
Proof.
  pose proof (detectFileType_cases (String "a" (String (ascii_of_N 0) "b"))
                (String "a" (String (ascii_of_N 0) "b"))) as (_ & H & _).
  pose proof (detectFileType_cases "" "") as (_ & _ & H').
  split.
  - apply H. split; [reflexivity|]. eexists _, _. split; reflexivity.
  - apply H'. reflexivity.
Defined.

End FileTypeFacts.

(** ** What a committed load leaves in the reference database *)

Module ConservationFacts.
Import Js Sql TableManager FileWatcher RefDB MappingFacts ReloadFacts.

Section Reference.
Context `{NumberOps}.
Variable dateKey : string -> option Z.
Variable violates : list StoredRow -> InsertStmt -> option string.
Variable schemas : Schemas.
Variable tableName : string.
Variable cols : list (string * string).

Local Abbreviation drv := (refDriver dateKey violates).
Local Abbreviation cts := (columnTypesOf cols).
Local Abbreviation rLoop :=
  (@insertLoop _ DB drv schemas tableName cts).
Local Abbreviation rStmt := (insertFor schemas tableName cts).
Local Abbreviation table rows := (mkTable cols rows).

(** The loop appends one stored row per success, and nothing else. *)
Lemma loop_appends (i : nat) (rows : list Record_) (st : Loop)
    (rows0 : list StoredRow) :
  get tableName (tx st) = Some (table rows0) ->
  exists added,
    tx (rLoop i rows st) = set tableName (table (rows0 ++ added)) (tx st) /\
    successCount (rLoop i rows st) = successCount st + List.length added /\
    Forall (fun a => exists r, In r rows /\ a = stored (rStmt r)) added.
Proof.
  revert i st rows0. induction rows as [|r rows IH]; intros i st rows0 Hget.
  - exists []. simpl. rewrite app_nil_r, (set_same _ _ _ Hget), Nat.add_0_r.
    auto.
  - cbn [insertLoop].
    assert (Erow : @insertRow _ DB drv schemas tableName cts i r st
                   = match refInsert violates (tx st) (rStmt r) with
                     | Ok tx' => mkLoop tx' (S (successCount st)) (errorCount st)
                                        (loopLog st)
                     | Throw m => mkLoop (tx st) (successCount st)
                                         (S (errorCount st))
                                         (loopLog st ++ [RowError (i + 1) m])
                     end) by reflexivity.
    rewrite Erow. clear Erow.
    destruct (refInsert_shape violates tableName cols (tx st) rows0 (rStmt r)
                Hget eq_refl) as [E|[m E]]; rewrite E; cbv beta iota.
    + destruct (IH (S i)
                  (mkLoop (set tableName (table (rows0 ++ [stored (rStmt r)]))
                               (tx st))
                          (S (successCount st)) (errorCount st) (loopLog st))
                  (rows0 ++ [stored (rStmt r)])%list)
        as (added & Etx & Ecount & Fadded).
      { cbn [tx]. apply get_set_same. }
      exists (stored (rStmt r) :: added).
      split; [etransitivity; [exact Etx|]|split; [etransitivity; [exact Ecount|]|]].
      { cbn [tx]. rewrite set_set, <- app_assoc. reflexivity. }
      { cbn [successCount]. simpl. lia. }
      constructor; [exists r; simpl; auto|].
      eapply Forall_impl; [|exact Fadded]. intros a (r' & Hr' & ->).
      simpl. eauto.
    + destruct (IH (S i)
                  (mkLoop (tx st) (successCount st) (S (errorCount st))
                          (loopLog st ++ [RowError (i + 1) m])) rows0 Hget)
        as (added & Etx & Ecount & Fadded).
      exists added.
      split; [exact Etx|split; [exact Ecount|]].
      eapply Forall_impl; [|exact Fadded]. intros a (r' & Hr' & ->).
      simpl. eauto.
Qed.

(** X15. A committed load against a database that has the destination table
    leaves in it the rows the delete window does not select, followed by one
    stored row per counted success, each the insert of a record of the
    batch; every other table is as it was. *)
Theorem committed_load_conserves (data : list Record_) (fileName : string)
    (db db' : DB) (rows : list StoredRow) (log : list LogEvent) (o : Outcome) :
  let mappedData := map (fun row => mapColumns schemas row tableName) data in
  let w := computeWindow tableName mappedData in
  detectTableName fileName data = tableName ->
  get tableName db = Some (table rows) ->
  @uploadToDatabase _ DB drv schemas data fileName db = (db', log, Ok o) ->
  exists added,
    rowsOf db' tableName
    = (filter (fun r => negb (windowSelects dateKey tableName w r)) rows
       ++ added)%list /\
    List.length added = outSuccessCount o /\
    Forall (fun a => exists r, In r mappedData /\ a = stored (rStmt r)) added /\
    (forall t, t <> tableName -> get t db' = get t db).
Proof.
  intros mappedData w Ht Hget Hup.
  destruct (get tableName schemas) as [schema|] eqn:Hs.
  2: { unfold uploadToDatabase, ensureTable in Hup. rewrite Ht, Hs in Hup.
       discriminate. }
  rewrite (upload_on_existing_table dateKey violates schemas tableName cols
             data fileName db rows schema Ht Hs Hget) in Hup.
  fold mappedData in Hup. fold w in Hup.
  unfold transaction in Hup.
  destruct (@deletePhase DB drv tableName w db) as [logd [txd|md]] eqn:Hdel;
    [|discriminate].
  destruct (deletePhase_shape dateKey violates tableName cols db rows w logd txd
              Hget Hdel) as [Etx _].
  set (kept := filter (fun r => negb (windowSelects dateKey tableName w r)) rows)
    in *.
  assert (Hgetd : get tableName txd = Some (table kept))
    by (rewrite Etx; apply get_set_same).
  destruct (loop_appends 0 mappedData (mkLoop txd 0 0 []) kept Hgetd)
    as (added & Eloop & Ecount & Fadded).
  cbn [tx successCount] in Eloop, Ecount.
  change (@commitTransaction DB drv) with (fun _ : DB => @Ok unit tt) in Hup.
  cbv beta in Hup. injection Hup as Hpool Hlog Hout.
  exists added. split; [|split; [|split]].
  - unfold rowsOf. rewrite <- Hpool.
    etransitivity; [exact (f_equal (fun d => match get tableName d with
                                             | Some t => t_rows t
                                             | None => []
                                             end) Eloop)|].
    rewrite get_set_same. reflexivity.
  - rewrite <- Hout. cbn [outSuccessCount].
    etransitivity; [|symmetry; exact Ecount]. reflexivity.
  - exact Fadded.
  - intros t Hne. rewrite <- Hpool.
    etransitivity; [exact (f_equal (get t) Eloop)|].
    rewrite get_set, Etx, get_set.
    destruct (String.eqb_spec t tableName); [contradiction|reflexivity].
Qed.

End Reference.

Import Samples.

Lemma committed_load_conserves_witness :
  exists (db' : DB) (log : list LogEvent) (o : Outcome) (added : list StoredRow),
    @uploadToDatabase decimalHost _ strictDriver detailSchemas
      threeSales "snj.csv" oneSaleDetail = (db', log, Ok o) /\
    outSuccessCount o = 2 /\ outErrorCount o = 1 /\
    rowsOf db' "SNJ_SRP_DETAIL"
    = (filter (fun r =>
                 negb (windowSelects isoDate "SNJ_SRP_DETAIL"
                         (@computeWindow decimalHost "SNJ_SRP_DETAIL"
                            (map (fun row =>
                                    mapColumns detailSchemas row "SNJ_SRP_DETAIL")
                                 threeSales)) r))
              (rowsOf oneSaleDetail "SNJ_SRP_DETAIL") ++ added)%list /\
    List.length added = 2.
Proof.
  destruct (@committed_load_conserves decimalHost isoDate amountRequired
              detailSchemas "SNJ_SRP_DETAIL" detailColumns threeSales "snj.csv"
              oneSaleDetail
              (fst (fst (@uploadToDatabase decimalHost _ strictDriver
                           detailSchemas threeSales "snj.csv" oneSaleDetail)))
              (rowsOf oneSaleDetail "SNJ_SRP_DETAIL")
              (snd (fst (@uploadToDatabase decimalHost _ strictDriver
                           detailSchemas threeSales "snj.csv" oneSaleDetail)))
              (mkOutcome true 2 1 (Some "2025-11-25", Some "2025-11-27")
                         [VStr "A"])
              eq_refl eq_refl ltac:(vm_compute; reflexivity))
    as (added & E1 & E2 & _ & _).
  eexists _, _, _, added.
  split; [vm_compute; reflexivity|].
  split; [reflexivity|]. split; [reflexivity|].
  split; [exact E1|exact E2].
Defined.

End ConservationFacts.

(** ** Provisioning the table, and its column types *)

Module ProvisionFacts.
Import Js Sql TableManager RefDB MappingFacts.

(** One log line per index column, in order, whether or not the statement
    was accepted. *)
Lemma createIndexes_log {DB : Type} `{Driver DB} (pool : DB)
    (tableName : string) (cols : list string) :
  Forall2 (fun col e =>
             e = IndexCreated ("idx_" ++ toLowerCase col) col \/
             exists m, e = IndexWarning ("idx_" ++ toLowerCase col) m)
          cols (snd (createIndexes pool tableName cols)).
Proof.
  revert pool. induction cols as [|col cols IH]; intros pool; simpl.
  - constructor.
  - destruct (execCreateIndex pool _) as [pool'|m].
    + specialize (IH pool').
      destruct (createIndexes pool' tableName cols) as [p l]. simpl in *.
      constructor; auto.
    + specialize (IH pool).
      destruct (createIndexes pool tableName cols) as [p l]. simpl in *.
      constructor; eauto.
Qed.

Section Reference.
Variable dateKey : string -> option Z.
Variable violates : list StoredRow -> InsertStmt -> option string.
Variable schemas : Schemas.

Local Abbreviation drv := (refDriver dateKey violates).

(** X16. Against the reference database [ensureTable] is idempotent: once it has
    returned, a second call finds the table, says so and changes nothing.
    A call that reports a creation found no table of that name and leaves an
    empty one with the columns of the schema, every other table being as it
    was, and logs one line per index of the schema after the two lines of
    the table; a call that reports none leaves the database as it was. *)
Theorem ensureTable_idempotent (tableName : string) (pool pool1 : DB)
    (log : list LogEvent) (created : bool) :
  @ensureTable DB drv schemas pool tableName = (log, Ok (pool1, created)) ->
  @ensureTable DB drv schemas pool1 tableName = ([], Ok (pool1, false)) /\
  (created = true ->
   get tableName pool = None /\
   exists schema,
     get tableName schemas = Some schema /\
     get tableName pool1 = Some (mkTable (columns schema) []) /\
     (forall t, t <> tableName -> get t pool1 = get t pool) /\
     List.length log
     = 2 + List.length (match indexes schema with Some l => l | None => [] end)) /\
  (created = false -> pool1 = pool /\ log = []).
Proof.
  unfold ensureTable, tableExists.
  destruct (get tableName schemas) as [schema|] eqn:Hs; [|discriminate].
  change (@countTables DB drv) with
    (fun (db : DB) (t : string) => @Ok nat (if hasOwnProperty t db then 1 else 0)).
  cbv beta. unfold hasOwnProperty.
  destruct (get tableName pool) as [tb|] eqn:Hget; cbn [Nat.ltb Nat.leb].
  - intros [= <- <- <-]. rewrite Hget. cbn [Nat.ltb Nat.leb].
    split; [reflexivity|]. split; [discriminate|auto].
  - unfold createTable.
    change (@execCreateTable DB drv) with refCreateTable.
    unfold refCreateTable. cbn [ct_table ct_columns]. rewrite Hget.
    match goal with
    | |- context [@createIndexes ?D ?d ?p ?n ?c] =>
        pose proof (UploadFacts.createIndexes_reference dateKey violates p n c)
          as Hidx;
        pose proof (@createIndexes_log D d p n c) as Hlog;
        destruct (@createIndexes D d p n c) as [p' l']
    end.
    simpl in Hidx, Hlog. subst p'.
    intros [= <- <- <-]. rewrite get_set, String.eqb_refl.
    cbn [Nat.ltb Nat.leb].
    split; [reflexivity|]. split; [|discriminate].
    intros _. split; [reflexivity|]. exists schema.
    split; [reflexivity|]. split; [reflexivity|].
    split.
    + intros t Hne. rewrite get_set.
      destruct (String.eqb_spec t tableName); [contradiction|reflexivity].
    + simpl. rewrite (Forall2_length Hlog). reflexivity.
Qed.

End Reference.

Lemma ensureTable_idempotent_witness :
  exists (pool1 : DB) (log : list LogEvent),
    @ensureTable DB Samples.lenientDriver Samples.detailSchemas [] "SNJ_SRP_DETAIL"
    = (log, Ok (pool1, true)) /\
    @ensureTable DB Samples.lenientDriver Samples.detailSchemas pool1
      "SNJ_SRP_DETAIL" = ([], Ok (pool1, false)) /\
    get "SNJ_SRP_DETAIL" (A := Table) [] = None.
Proof.
  eexists _, _. split; [vm_compute; reflexivity|].
  pose proof (ensureTable_idempotent isoDate Samples.lenient
                Samples.detailSchemas "SNJ_SRP_DETAIL" [] _ _ true
                ltac:(vm_compute; reflexivity)) as (H1 & H2 & _).
  split; [exact H1|]. exact (proj1 (H2 eq_refl)).
Defined.

(** The column types read from the metadata: each name once, with the type
    of the last metadata row that has the name. *)
Lemma columnTypesOf_from (recordset o : list (string * string)) (c : string) :
  get c (fold_left (fun o (col : string * string) => set (fst col) (snd col) o)
                   recordset o)
  = match get c (rev recordset) with
    | Some t => Some t
    | None => get c o
    end.
Proof.
  revert o. induction recordset as [|[k t] rs IH]; intros o; simpl.
  - reflexivity.
  - rewrite IH.
    assert (G : forall a b : list (string * string),
              get c (a ++ b) = match get c a with
                               | Some v => Some v
                               | None => get c b
                               end).
    { induction a as [|[k' v'] a IHa]; intros b; simpl; [reflexivity|].
      destruct (String.eqb c k'); auto. }
    rewrite G. destruct (get c (rev rs)); [reflexivity|].
    simpl. rewrite get_set. destruct (String.eqb c k); reflexivity.
Qed.

Lemma columnTypesOf_keys (recordset : list (string * string)) (c : string) :
  In c (keys (FileWatcher.columnTypesOf recordset)) <-> In c (map fst recordset).
Proof.
  unfold FileWatcher.columnTypesOf.
  assert (G : forall o : list (string * string),
            In c (keys (fold_left
                          (fun o (col : string * string) =>
                             set (fst col) (snd col) o) recordset o))
            <-> In c (map fst recordset) \/ In c (keys o)).
  { induction recordset as [|x rs IH]; intros o; simpl; [tauto|].
    rewrite IH, keys_set. intuition (subst; auto). }
  rewrite G. simpl. tauto.
Qed.

(** X17. The column types both loads read from the table metadata hold each
    column name once, with the type of the last metadata row of that name;
    the names are those of the metadata rows. *)
Theorem columnTypes_last_wins (recordset : list (string * string)) :
  NoDup (keys (FileWatcher.columnTypesOf recordset)) /\
  (forall c, get c (FileWatcher.columnTypesOf recordset) = get c (rev recordset)) /\
  (forall c, In c (keys (FileWatcher.columnTypesOf recordset)) <->
             In c (map fst recordset)).
Proof.
  unfold FileWatcher.columnTypesOf. split; [|split].
  - assert (G : forall o : list (string * string),
              NoDup (keys o) ->
              NoDup (keys (fold_left
                             (fun o (col : string * string) =>
                                set (fst col) (snd col) o) recordset o))).
    { induction recordset as [|x rs IH]; intros o Ho; simpl; [assumption|].
      apply IH, NoDup_keys_set, Ho. }
    apply G. constructor.
  - intros c. rewrite columnTypesOf_from. destruct (get c (rev recordset));
      reflexivity.
  - intros c. apply (columnTypesOf_keys recordset c).
Qed.

Lemma columnTypes_last_wins_witness :
  get "A" (FileWatcher.columnTypesOf [("A", "int"); ("B", "date"); ("A", "varchar")])
  = Some "varchar" /\
  In "B" (keys (FileWatcher.columnTypesOf
                  [("A", "int"); ("B", "date"); ("A", "varchar")])).
Proof.
  destruct (columnTypes_last_wins [("A", "int"); ("B", "date"); ("A", "varchar")])
    as (_ & H1 & H2).
  split; [exact (H1 "A")|]. apply H2. simpl. auto.
Defined.

End ProvisionFacts.

(** ** Telling the destination table *)

Module TableNameFacts.
Import Js TableManager FileWatcher.

Lemma lower_char_idem (c : ascii) : lower_char (lower_char c) = lower_char c.
Proof. destruct c as [[] [] [] [] [] [] [] []]; reflexivity. Qed.

Lemma toLowerCase_idem (s : string) : toLowerCase (toLowerCase s) = toLowerCase s.
Proof.
  induction s as [|c s IH]; simpl; [reflexivity|].
  rewrite lower_char_idem, IH. reflexivity.
Qed.

(** X18. [detectTableName] answers one of the two tables, whatever it is given.
    It reads the file name without regard to letter case; a name with one of
    the four hints in it decides alone, whatever the rows are; and of the
    rows only the first is ever looked at. *)
Theorem detectTableName_reads_name_then_first_row :
  (forall f d,
     detectTableName f d = "SALES_INVOICE_ACCURATE_ONLINE" \/
     detectTableName f d = "SNJ_SRP_DETAIL") /\
  (forall f d, detectTableName (toLowerCase f) d = detectTableName f d) /\
  (forall f d d',
     includes "accurate" (toLowerCase f) || includes "invoice" (toLowerCase f)
     || includes "snj" (toLowerCase f) || includes "srp" (toLowerCase f) = true ->
     detectTableName f d = detectTableName f d') /\
  (forall f r d d', detectTableName f (r :: d) = detectTableName f (r :: d')).
Proof.
  split; [|split; [|split]].
  - intros f d. unfold detectTableName.
    destruct (_ || _); [auto|]. destruct (_ || _); [auto|].
    destruct d as [|r d]; [auto|].
    destruct (_ || _); [auto|]. destruct (_ || _); auto.
  - intros f d. unfold detectTableName. rewrite toLowerCase_idem. reflexivity.
  - intros f d d' Hint. unfold detectTableName.
    destruct (includes "accurate" (toLowerCase f)
              || includes "invoice" (toLowerCase f)); [reflexivity|].
    simpl in Hint. rewrite Hint. reflexivity.
  - reflexivity.
Qed.

Lemma detectTableName_witness :
  detectTableName "SNJ_Invoice.XLSX" [[("BILL_NO", VStr "1")]]
  = detectTableName "SNJ_Invoice.XLSX" [] /\
  detectTableName "SNJ_Invoice.XLSX" [] = "SALES_INVOICE_ACCURATE_ONLINE".
Proof.
  destruct detectTableName_reads_name_then_first_row as (_ & _ & H & _).
  split; [|reflexivity].
  exact (H "SNJ_Invoice.XLSX" [[("BILL_NO", VStr "1")]] [] eq_refl).
Defined.

End TableNameFacts.

(** ** The insert of the server, against the reference database *)

Module ServerInsertFacts.
Import Js Sql TableManager RefDB MappingFacts.

Lemma keys_filter {A : Type} (p : string -> bool) (o : list (string * A)) :
  keys (filter (fun cell => p (fst cell)) o) = filter p (keys o).
Proof.
  unfold keys. induction o as [|[k v] o IH]; simpl; [reflexivity|].
  destruct (p k); simpl; rewrite IH; reflexivity.
Qed.

Lemma declared_known (cols : list (string * string)) (c : string) :
  Server.declared (FileWatcher.columnTypesOf cols) c = true ->
  hasOwnProperty c cols = true.
Proof.
  unfold Server.declared. intros D.
  apply hasOwnProperty_keys. apply (ProvisionFacts.columnTypesOf_keys cols c).
  apply hasOwnProperty_keys. unfold hasOwnProperty.
  destruct (get c (FileWatcher.columnTypesOf cols)); [reflexivity|discriminate].
Qed.

(** X19. The insert [server.js] builds for a record whose column names are
    ordinary names only columns of the record that the table has.  So,
    unless the record is passed over for having no such column, the
    reference database never refuses the insert for its column list: it
    stores the row, or refuses it for the reason the table itself gives.
    (For a column named as a member of [Object.prototype] is, the test
    [columnTypes[col]] passes without the table having the column; such
    names are left out here.) *)
Theorem server_insert_names_known_columns `{NumberOps}
    (violates : list StoredRow -> InsertStmt -> option string)
    (tableName : string) (cols : list (string * string))
    (rows : list StoredRow) (db : DB) (r : Record_) :
  let columnTypes := FileWatcher.columnTypesOf cols in
  let i := Server.insertFor tableName columnTypes r in
  Shapes.ordinaryRecord r = true ->
  (forall c, In c (ins_columns i) ->
     In c (keys r) /\ hasOwnProperty c cols = true) /\
  (get tableName db = Some (mkTable cols rows) ->
   Server.skips columnTypes r = false ->
   refInsert violates db i
   = match violates rows i with
     | Some m => Throw m
     | None => Ok (set tableName (mkTable cols (rows ++ [stored i])) db)
     end).
Proof.
  cbv zeta. intros _. unfold Server.insertFor, Server.skips, Server.validCells.
  cbn [ins_columns ins_params ins_table].
  set (valid := filter (fun cell : string * Value =>
                          Server.declared (FileWatcher.columnTypesOf cols)
                                          (fst cell)) r).
  assert (Hknown : forall c, In c (keys valid) ->
                     In c (keys r) /\ hasOwnProperty c cols = true).
  { intros c Hc. unfold valid in Hc. rewrite keys_filter in Hc.
    apply filter_In in Hc as [Hin Hc]. split; [exact Hin|].
    apply declared_known. exact Hc. }
  split; [exact Hknown|].
  intros Hget Hskip. unfold refInsert. cbn [ins_columns ins_table].
  rewrite Hget.
  destruct valid as [|cell valid'] eqn:Ev; [discriminate|]. rewrite <- Ev.
  assert (Hall : forallb (has_column (mkTable cols rows)) (keys valid) = true).
  { apply forallb_forall. intros c Hc. unfold has_column. cbn [t_columns].
    rewrite Ev in Hc. apply (proj2 (Hknown c Hc)). }
  rewrite Hall. cbn [negb t_rows t_columns].
  rewrite Ev at 1. cbn [keys map]. reflexivity.
Qed.

Lemma server_insert_names_known_columns_witness :
  (forall c,
     In c (ins_columns (@Server.insertFor decimalHost "SNJ_SRP_DETAIL"
                          Samples.detailColumns Samples.saleWithExtra)) ->
     In c (keys Samples.saleWithExtra) /\
     hasOwnProperty c Samples.detailColumns = true) /\
  exists db',
    refInsert Samples.lenient Samples.emptyDetail
      (@Server.insertFor decimalHost "SNJ_SRP_DETAIL"
         Samples.detailColumns Samples.saleWithExtra) = Ok db'.
Proof.
  pose proof (@server_insert_names_known_columns decimalHost Samples.lenient
                "SNJ_SRP_DETAIL" Samples.detailColumns [] Samples.emptyDetail
                Samples.saleWithExtra eq_refl) as (H1 & H2).
  split; [exact H1|].
  eexists. exact (H2 eq_refl eq_refl).
Defined.

End ServerInsertFacts.
